(** * learn-english-backend: the daily word engine and its dictionary builder

  A shallow embedding of [server.js] (definition lookup, daily selection,
  retrieval endpoints) and of [prepare-dictionary.js] (the offline corpus
  builder), followed by the properties of the specification that were
  checked against them.

  Part I holds the definitions, in the order of the source; Part II the
  theorems. *)

From Stdlib Require Import List String Ascii Bool Arith ZArith NArith Lia.
From Stdlib Require Import ListSet Permutation Sorted.
From Stdlib Require QArith_base.

Set Warnings "-register-all".
Import ListNotations.
Local Open Scope string_scope.
Local Open Scope list_scope.
Local Open Scope nat_scope.

(* ===================================================================== *)
(** * Part I. Definitions *)
(* ===================================================================== *)

(** ** JavaScript values and the operations the program applies to them *)

Module JS.

(** What [JSON.parse] can produce, plus [undefined], which reading a
    missing property yields.  An object is its own properties in
    insertion order, one entry per key. *)
Inductive value : Type :=
| VUndefined
| VNull
| VBool (b : bool)
| VNum (q : QArith_base.Q)
| VStr (s : string)
| VArr (elems : list value)
| VObj (props : list (string * value)).

Inductive error : Type :=
| TypeError      (* reading a property of undefined/null, calling a non-function *)
| SyntaxError    (* JSON.parse *)
| FetchError     (* node-fetch: the request did not complete *)
| SystemError.   (* fs: any errno other than ENOENT, or a failed write *)

(** Completion of an expression or of an awaited promise. *)
Inductive result (A : Type) : Type :=
| Ok (a : A)
| Throw (e : error).
Arguments Ok {A} a.
Arguments Throw {A} e.

Definition bind {A B} (r : result A) (k : A -> result B) : result B :=
  match r with
  | Ok a => k a
  | Throw e => Throw e
  end.

(** ToBoolean. *)
Definition truthy (v : value) : bool :=
  match v with
  | VUndefined | VNull => false
  | VBool b => b
  | VNum q => negb (Z.eqb (QArith_base.Qnum q) 0)
  | VStr s => negb (String.eqb s "")
  | VArr _ | VObj _ => true
  end.

(** [a || b] once both operands are values; the right operand is only
    evaluated by the callers when the left one is falsy. *)
Definition or_else (a b : value) : value := if truthy a then a else b.

Definition nullish (v : value) : bool :=
  match v with
  | VUndefined | VNull => true
  | _ => false
  end.

Fixpoint own (props : list (string * value)) (key : string) : value :=
  match props with
  | [] => VUndefined
  | (k, v) :: rest => if String.eqb k key then v else own rest key
  end.

(** The property names [getWordDetails] reads.  None of them is defined
    on [Object.prototype], [Array.prototype], [String.prototype],
    [Number.prototype] or [Boolean.prototype], except [length], which
    arrays and strings own; so a read resolves to the own property or to
    [undefined]. *)
Inductive field : Type :=
| f_word | f_phonetic | f_phonetics | f_meanings | f_text | f_audio
| f_definitions | f_definition | f_example | f_synonyms | f_antonyms
| f_length.

Definition field_name (f : field) : string :=
  match f with
  | f_word => "word" | f_phonetic => "phonetic" | f_phonetics => "phonetics"
  | f_meanings => "meanings" | f_text => "text" | f_audio => "audio"
  | f_definitions => "definitions" | f_definition => "definition"
  | f_example => "example" | f_synonyms => "synonyms"
  | f_antonyms => "antonyms" | f_length => "length"
  end.

Definition number_of_nat (n : nat) : value :=
  VNum (QArith_base.Qmake (Z.of_nat n) 1).

(** [v.f] *)
Definition member (v : value) (f : field) : result value :=
  match v with
  | VUndefined | VNull => Throw TypeError
  | VObj props => Ok (own props (field_name f))
  | VArr elems =>
      Ok (match f with f_length => number_of_nat (List.length elems) | _ => VUndefined end)
  | VStr s =>
      Ok (match f with f_length => number_of_nat (String.length s) | _ => VUndefined end)
  | VBool _ | VNum _ => Ok VUndefined
  end.

(** [v[0]] *)
Definition first_element (v : value) : result value :=
  match v with
  | VUndefined | VNull => Throw TypeError
  | VArr elems => Ok (nth 0 elems VUndefined)
  | VStr s =>
      Ok (match s with
          | EmptyString => VUndefined
          | String c _ => VStr (String c EmptyString)
          end)
  | VObj props => Ok (own props "0")
  | VBool _ | VNum _ => Ok VUndefined
  end.

(** [v?.…]: the rest of the chain is skipped when [v] is undefined or null. *)
Definition optional (v : value) (chain : value -> result value) : result value :=
  if nullish v then Ok VUndefined else chain v.

(** [Array.prototype.find]: the first element the callback accepts. *)
Fixpoint find_first (callback : value -> result bool) (elems : list value)
  : result value :=
  match elems with
  | [] => Ok VUndefined
  | x :: rest =>
      bind (callback x) (fun accepted =>
        if accepted then Ok x else find_first callback rest)
  end.

(** [v.find(callback)]: only an array has a callable [find]. *)
Definition call_find (v : value) (callback : value -> result bool) : result value :=
  match v with
  | VArr elems => find_first callback elems
  | _ => Throw TypeError
  end.

(** [x > 0].  For a number, boolean, null or undefined operand the result
    is fixed by ToNumber.  For a string, array or object operand it goes
    through string-to-number conversion (and may throw when an object
    cannot be converted to a primitive); that conversion is left to
    [coerce]. *)
Definition greater_than_zero (coerce : value -> result bool) (x : value)
  : result bool :=
  match x with
  | VNum q => Ok (Z.ltb 0 (QArith_base.Qnum q))
  | VBool b => Ok b
  | VUndefined | VNull => Ok false
  | VStr _ | VArr _ | VObj _ => coerce x
  end.

(** ** [Set]: insertion-ordered, no duplicates *)

Section JSSet.
Context {A : Type} (eq_dec : forall x y : A, {x = y} + {x <> y}).

Definition Set_add (w : A) (s : set A) : set A := set_add eq_dec w s.

Definition Set_has (s : set A) (w : A) : bool := set_mem eq_dec w s.

(** [new Set(iterable)]; spreading a set, [[...s]], is the list itself. *)
Definition new_Set (items : list A) : set A :=
  fold_left (fun s w => Set_add w s) items (empty_set A).

(** [a.indexOf(w)]: the position of the first occurrence; [a.length]
    stands for -1. *)
Fixpoint indexOf (a : list A) (w : A) : nat :=
  match a with
  | [] => 0
  | x :: rest => if eq_dec x w then 0 else S (indexOf rest w)
  end.

End JSSet.

(** ** Plain objects used as maps: [obj[key]] and [obj[key] = v] *)

(** The properties every plain object inherits from [Object.prototype]. *)
Definition Object_prototype_keys : list string :=
  [ "constructor"; "__defineGetter__"; "__defineSetter__"; "hasOwnProperty";
    "__lookupGetter__"; "__lookupSetter__"; "isPrototypeOf";
    "propertyIsEnumerable"; "toString"; "valueOf"; "__proto__";
    "toLocaleString" ].

Inductive lookup (A : Type) : Type :=
| Own (a : A)        (* an own property *)
| Inherited          (* a member of Object.prototype: a function or object, truthy *)
| Absent.            (* undefined *)
Arguments Own {A} a.
Arguments Inherited {A}.
Arguments Absent {A}.

Fixpoint own_property {A} (o : list (string * A)) (key : string) : option A :=
  match o with
  | [] => None
  | (k, v) :: rest => if String.eqb k key then Some v else own_property rest key
  end.

Definition obj_get {A} (o : list (string * A)) (key : string) : lookup A :=
  match own_property o key with
  | Some v => Own v
  | None => if in_dec string_dec key Object_prototype_keys then Inherited else Absent
  end.

(** Assignment keeps the position of an existing key and appends a new one. *)
Fixpoint obj_set {A} (o : list (string * A)) (key : string) (v : A)
  : list (string * A) :=
  match o with
  | [] => [(key, v)]
  | (k, old) :: rest =>
      if String.eqb k key then (k, v) :: rest else (k, old) :: obj_set rest key v
  end.

(** [Object.keys]: the own keys in property order.  (JavaScript lists
    integer-like keys first; a date key is never one.) *)
Definition Object_keys {A} (o : list (string * A)) : list string := map fst o.

(** [Array.prototype.sort(cmp)]: a stable sort; [cmp a b < 0] puts [a]
    first.  For a consistent comparator every stable sort returns the
    list computed here. *)
Fixpoint insert_by {A} (cmp : A -> A -> Z) (x : A) (sorted : list A) : list A :=
  match sorted with
  | [] => [x]
  | y :: rest =>
      if Z.leb (cmp y x) 0 then y :: insert_by cmp x rest else x :: y :: rest
  end.

Definition Array_sort {A} (cmp : A -> A -> Z) (l : list A) : list A :=
  fold_left (fun sorted x => insert_by cmp x sorted) l [].

End JS.

Import JS.

Notation "x <- e ;; k" := (bind e (fun x => k))
(at level 61, e at next level, right associativity).

(** ** server.js *)

(** The record [getWordDetails] builds.  A field holds whatever value the
    expression on its right-hand side produced; [word] is [VUndefined] when
    the entry has no [word] (the property is then left out by
    [JSON.stringify]). *)
Record WordRecord : Type := {
  word : value;
  pronunciation : value;
  audio : value;
  meaning : value;
  example : value;
  synonyms : value;
  antonyms : value
}.

(** What [fetch] followed by [response.json()] can do. *)
Inductive fetch_outcome : Type :=
| NetworkFailure                               (* fetch rejects *)
| Response (ok : bool) (body : option value).  (* body = None: not JSON *)

Inductive store : Type := WORDLIST_PATH | USED_WORDS_PATH | HISTORY_PATH.

(** How one [fs.writeFile] ends: the file replaced; the call failing before
    the file is touched; the call failing after the file was truncated. *)
Inductive write_outcome : Type := Written | Refused | Torn.

(** Everything the program takes from outside its own source. *)
Record Host : Type := {
  (** [Math.floor(Math.random() * n)] at the k-th draw is
      [Math_random k mod n]: any index below [n], never [n]. *)
  Math_random : nat -> nat;
  (** the outcome of the k-th lookup of a run, for the word asked *)
  fetch : nat -> string -> fetch_outcome;
  writeFile : store -> write_outcome;
  localeCompare : string -> string -> Z;
  (** [x > 0] for a string, array or object [x] *)
  coerced_gt0 : value -> result bool
}.

(** A JSON file on disk, holding a value of type [A] when it parses. *)
Inductive file (A : Type) : Type :=
| Missing                (* ENOENT *)
| Unreadable             (* any other read error, or text that is not JSON *)
| Content (a : A).
Arguments Missing {A}.
Arguments Unreadable {A}.
Arguments Content {A} a.

(** history.json: date key to that day's records, in property order. *)
Definition History : Type := list (string * list WordRecord).

Record Disk : Type := {
  wordlist_json : file (list string);
  used_words_json : file (list string);
  history_json : file History
}.

Definition loadJsonFile {A} (f : file A) (defaultValue : A) : result A :=
  match f with
  | Content data => Ok data
  | Missing => Ok defaultValue
  | Unreadable => Throw SystemError
  end.

Definition saveJsonFile {A} (w : write_outcome) (f : file A) (data : A)
  : file A * result unit :=
  match w with
  | Written => (Content data, Ok tt)
  | Refused => (f, Throw SystemError)
  | Torn => (Unreadable, Throw SystemError)
  end.

(** [entry.meanings[0]] *)
Definition first_meaning (entry : value) : result value :=
  meanings <- member entry f_meanings ;;
  first_element meanings.

(** The object literal of [getWordDetails], field by field in source order. *)
Definition entry_details (host : Host) (entry : value) : result WordRecord :=
  word_ <- member entry f_word ;;
  phonetic <- member entry f_phonetic ;;
  pronunciation_ <-
    (if truthy phonetic then Ok phonetic
     else
       phonetics <- member entry f_phonetics ;;
       p <- call_find phonetics
              (fun p => text <- member p f_text ;; Ok (truthy text)) ;;
       text <- member (or_else p (VObj [])) f_text ;;
       Ok (or_else text (VStr ""))) ;;
  phonetics <- member entry f_phonetics ;;
  p <- call_find phonetics
         (fun p =>
            a <- member p f_audio ;;
            if truthy a
            then len <- member a f_length ;;
                 greater_than_zero host.(coerced_gt0) len
            else Ok false) ;;
  a <- member (or_else p (VObj [])) f_audio ;;
  let audio_ := or_else a (VStr "") in
  m <- first_meaning entry ;;
  definition <-
    optional m (fun m =>
      definitions <- member m f_definitions ;;
      d <- first_element definitions ;;
      optional d (fun d => member d f_definition)) ;;
  let meaning_ := or_else definition (VStr "No definition available.") in
  m <- first_meaning entry ;;
  example_text <-
    optional m (fun m =>
      definitions <- member m f_definitions ;;
      d <- call_find definitions
             (fun d => e <- member d f_example ;; Ok (truthy e)) ;;
      optional d (fun d => member d f_example)) ;;
  let example_ := or_else example_text (VStr "No example sentence available.") in
  m <- first_meaning entry ;;
  syn <- optional m (fun m => member m f_synonyms) ;;
  let synonyms_ := or_else syn (VArr []) in
  m <- first_meaning entry ;;
  ant <- optional m (fun m => member m f_antonyms) ;;
  let antonyms_ := or_else ant (VArr []) in
  Ok {| word := word_; pronunciation := pronunciation_; audio := audio_;
        meaning := meaning_; example := example_;
        synonyms := synonyms_; antonyms := antonyms_ |}.

(** The [try] block of [getWordDetails]; [None] is [null]. *)
Definition getWordDetails_try (host : Host) (k : nat) (word : string)
  : result (option WordRecord) :=
  match host.(fetch) k word with
  | NetworkFailure => Throw FetchError
  | Response false _ => Ok None
  | Response true None => Throw SyntaxError
  | Response true (Some data) =>
      entry <- first_element data ;;
      details <- entry_details host entry ;;
      Ok (Some details)
  end.

(** [getWordDetails]: the [catch] block logs and returns [null]. *)
Definition getWordDetails (host : Host) (k : nat) (word : string)
  : result (option WordRecord) :=
  match getWordDetails_try host k word with
  | Ok details => Ok details
  | Throw _ => Ok None
  end.

(** One turn of the selection loop, as it was taken. *)
Record Pick : Type := {
  draw : nat;                  (* how many turns came before *)
  pool : list string;          (* availableWords before the splice *)
  used : set string;           (* usedWords before the turn *)
  selectedWord : string;
  details : option WordRecord  (* what getWordDetails returned *)
}.

(** The variables of [updateDailyWords] that the loop changes; [draws]
    counts the turns taken, and [picked] records them. *)
Record Selection : Type := {
  availableWords : list string;
  newWords : list WordRecord;
  usedWords : set string;
  draws : nat;
  picked : list Pick
}.

(** [a.splice(i, 1)] leaves [a] without its i-th element. *)
Definition splice_out {A} (a : list A) (i : nat) : list A :=
  firstn i a ++ skipn (S i) a.

(** [newWords.length < 3 && availableWords.length > 0] *)
Definition loop_condition (st : Selection) : bool :=
  (List.length st.(newWords) <? 3) && (0 <? List.length st.(availableWords)).

Definition loop_body (host : Host) (st : Selection) : result Selection :=
  let randomIndex :=
    host.(Math_random) st.(draws) mod List.length st.(availableWords) in
  let selectedWord_ := nth randomIndex st.(availableWords) "" in
  let remaining := splice_out st.(availableWords) randomIndex in
  details_ <- getWordDetails host st.(draws) selectedWord_ ;;
  let turn := {| draw := st.(draws);
                 pool := st.(availableWords); used := st.(usedWords);
                 selectedWord := selectedWord_; details := details_ |} in
  Ok match details_ with
     | Some d =>
         {| availableWords := remaining;
            newWords := st.(newWords) ++ [d];
            usedWords := Set_add string_dec selectedWord_ st.(usedWords);
            draws := S st.(draws);
            picked := st.(picked) ++ [turn] |}
     | None =>
         {| availableWords := remaining;
            newWords := st.(newWords);
            usedWords := st.(usedWords);
            draws := S st.(draws);
            picked := st.(picked) ++ [turn] |}
     end.

(** The [while] loop.  Every turn shortens [availableWords] by one, so
    [fuel = availableWords.length] turns suffice (see
    [while_loop_exits]). *)
Fixpoint while_loop (host : Host) (fuel : nat) (st : Selection) : result Selection :=
  match fuel with
  | O => Ok st
  | S fuel' =>
      if loop_condition st
      then st' <- loop_body host st ;; while_loop host fuel' st'
      else Ok st
  end.

Inductive outcome : Type :=
| AlreadyExists     (* "Words for today already exist. No update needed." *)
| NotEnoughWords    (* "Not enough new words available!" *)
| FetchShortfall    (* "Failed to fetch details for 3 new words." *)
| Saved.            (* "Successfully generated and saved words" *)

(** One call of [updateDailyWords]: the disk it leaves, the files it called
    [writeFile] on, how the promise settled, and the turns of the loop. *)
Record Run : Type := {
  disk_after : Disk;
  write_calls : list store;
  completion : result outcome;
  picks : list Pick
}.

(** The branch [newWords.length === 3]: assign today's key, save the
    history, then save the used words. *)
Definition commit (host : Host) (today : string) (disk : Disk)
    (history : History) (st : Selection) : Run :=
  let history' := obj_set history today st.(newWords) in
  let (h, saved_h) :=
    saveJsonFile (host.(writeFile) HISTORY_PATH) disk.(history_json) history' in
  let disk1 := {| wordlist_json := disk.(wordlist_json);
                  used_words_json := disk.(used_words_json);
                  history_json := h |} in
  match saved_h with
  | Throw e =>
      {| disk_after := disk1; write_calls := [HISTORY_PATH];
         completion := Throw e; picks := st.(picked) |}
  | Ok _ =>
      let (u, saved_u) :=
        saveJsonFile (host.(writeFile) USED_WORDS_PATH)
                     disk.(used_words_json) st.(usedWords) in
      let disk2 := {| wordlist_json := disk.(wordlist_json);
                      used_words_json := u;
                      history_json := h |} in
      {| disk_after := disk2;
         write_calls := [HISTORY_PATH; USED_WORDS_PATH];
         completion := (_ <- saved_u ;; Ok Saved);
         picks := st.(picked) |}
  end.

(** A run that ends without calling [writeFile]. *)
Definition stop (disk : Disk) (c : result outcome) (turns : list Pick) : Run :=
  {| disk_after := disk; write_calls := []; completion := c; picks := turns |}.

(** [allWords.filter(word => !usedWords.has(word))] *)
Definition unused (usedWords0 : set string) (allWords : list string) : list string :=
  filter (fun w => negb (Set_has string_dec usedWords0 w)) allWords.

Definition start (usedWords0 : set string) (availableWords0 : list string) : Selection :=
  {| availableWords := availableWords0; newWords := [];
     usedWords := usedWords0; draws := 0; picked := [] |}.

Definition updateDailyWords (host : Host) (today : string) (disk : Disk) : Run :=
  match loadJsonFile disk.(history_json) [] with
  | Throw e => stop disk (Throw e) []
  | Ok history =>
  match obj_get history today with
  | Own _ | Inherited => stop disk (Ok AlreadyExists) []
  | Absent =>
  match loadJsonFile disk.(wordlist_json) [] with
  | Throw e => stop disk (Throw e) []
  | Ok allWords =>
  match loadJsonFile disk.(used_words_json) [] with
  | Throw e => stop disk (Throw e) []
  | Ok used_words =>
    let usedWords0 := new_Set string_dec used_words in
    let availableWords0 := unused usedWords0 allWords in
    if List.length availableWords0 <? 3 then stop disk (Ok NotEnoughWords) [] else
    match while_loop host (List.length availableWords0)
                     (start usedWords0 availableWords0) with
    | Throw e => stop disk (Throw e) []
    | Ok st =>
        if List.length st.(newWords) =? 3
        then commit host today disk history st
        else stop disk (Ok FetchShortfall) st.(picked)
    end
  end end end end.

(** What a store holds: the parsed file, or the default of its load. *)
Definition stored {A} (f : file A) (defaultValue : A) : A :=
  match f with
  | Content data => data
  | _ => defaultValue
  end.

Definition corpus (disk : Disk) : list string := stored disk.(wordlist_json) [].
Definition ledger (disk : Disk) : list string := stored disk.(used_words_json) [].
Definition history_of (disk : Disk) : History := stored disk.(history_json) [].

(** The turns whose lookup succeeded, as (selected word, record). *)
Definition accepted (turns : list Pick) : list (string * WordRecord) :=
  flat_map (fun p => match p.(details) with
                     | Some d => [(p.(selectedWord), d)]
                     | None => []
                     end) turns.

(** *** The two endpoints *)

Inductive reply (A : Type) : Type :=
| Status200 (body : A)      (* res.json(body) *)
| Status200_inherited       (* res.json of a member of Object.prototype *)
| Status404                 (* { error: 'No words found for this date.' } *)
| Status500.                (* { error: 'Failed to load ...' } *)
Arguments Status200 {A} body.
Arguments Status200_inherited {A}.
Arguments Status404 {A}.
Arguments Status500 {A}.

(** GET /api/history (the specification's [listDates]) *)
Definition get_api_history (host : Host) (disk : Disk) : reply (list string) :=
  match loadJsonFile disk.(history_json) [] with
  | Ok history =>
      let dates :=
        Array_sort (fun a b => host.(localeCompare) b a) (Object_keys history) in
      Status200 dates
  | Throw _ => Status500
  end.

(** GET /api/words/:date (the specification's [getWords]) *)
Definition get_api_words (disk : Disk) (date : string) : reply (list WordRecord) :=
  match loadJsonFile disk.(history_json) [] with
  | Ok history =>
      match obj_get history date with
      | Own records => Status200 records
      | Inherited => Status200_inherited
      | Absent => Status404
      end
  | Throw _ => Status500
  end.

(** A date key as [toISOString().slice(0, 10)] writes it: YYYY-MM-DD. *)
Definition is_digit (c : ascii) : bool :=
  (48 <=? nat_of_ascii c) && (nat_of_ascii c <=? 57).

Definition is_hyphen (c : ascii) : bool := Ascii.eqb c "-"%char.

Definition is_date_key (s : string) : bool :=
  match list_ascii_of_string s with
  | [y1; y2; y3; y4; h1; m1; m2; h2; d1; d2] =>
      forallb is_digit [y1; y2; y3; y4; m1; m2; d1; d2]
      && is_hyphen h1 && is_hyphen h2
  | _ => false
  end.

(** ** prepare-dictionary.js *)

Module PrepareDictionary.

(** A JavaScript string is a sequence of UTF-16 code units. *)
Definition code_unit : Type := N.
Definition jsstring : Type := list code_unit.

Definition jsstring_dec : forall x y : jsstring, {x = y} + {x <> y} :=
  list_eq_dec N.eq_dec.

Definition comma : code_unit := 44%N.
Definition newline : code_unit := 10%N.

(** [s.split(sep)] for a separator of one code unit; never empty. *)
Fixpoint split (sep : code_unit) (s : jsstring) : list jsstring :=
  match s with
  | [] => [[]]
  | c :: rest =>
      if N.eqb c sep then [] :: split sep rest
      else match split sep rest with
           | piece :: pieces => (c :: piece) :: pieces
           | [] => [[c]]
           end
  end.

(** WhiteSpace and LineTerminator of ECMA-262, which [trim] strips. *)
Definition is_white_space (c : code_unit) : bool :=
  existsb (N.eqb c)
    [9; 10; 11; 12; 13; 32; 160; 5760; 8232; 8233; 8239; 8287; 12288; 65279]%N
  || (N.leb 8192 c && N.leb c 8202).

Fixpoint trimStart (s : jsstring) : jsstring :=
  match s with
  | [] => []
  | c :: rest => if is_white_space c then trimStart rest else s
  end.

Definition trim (s : jsstring) : jsstring :=
  rev (trimStart (rev (trimStart s))).

Definition is_letter (c : code_unit) : bool :=
  (N.leb 65 c && N.leb c 90) || (N.leb 97 c && N.leb c 122).

(** [/^[a-zA-Z]+$/.test(word)] *)
Definition alphabetic (word : jsstring) : bool :=
  negb (Nat.eqb (List.length word) 0) && forallb is_letter word.

(** [word && word.length > 2 && /^[a-zA-Z]+$/.test(word)] *)
Definition keep (word : jsstring) : bool :=
  negb (Nat.eqb (List.length word) 0)
  && (2 <? List.length word)
  && alphabetic word.

Definition lines (fileContent : jsstring) : list jsstring :=
  split newline fileContent.

(** [line.split(',')[0].trim()] *)
Definition first_column (line : jsstring) : jsstring :=
  trim (hd [] (split comma line)).

Definition words (fileContent : jsstring) : list jsstring :=
  filter keep (map first_column (lines fileContent)).

(** [[...new Set(words)]] *)
Definition uniqueWords (fileContent : jsstring) : list jsstring :=
  new_Set jsstring_dec (words fileContent).

(** A word matches [^[a-zA-Z]+$]. *)
Definition letters_only (w : jsstring) : Prop :=
  w <> [] /\ Forall (fun c => is_letter c = true) w.

End PrepareDictionary.

(** ** The response of the lookup service, as the specification types it *)

Module Api.

Record Phonetic : Type := {
  p_text : option string;
  p_audio : option string
}.

Record Sense : Type := {
  d_definition : string;
  d_example : option string
}.

Record Meaning : Type := {
  m_definitions : list Sense;
  m_synonyms : list string;
  m_antonyms : list string
}.

Record Entry : Type := {
  e_word : string;
  e_phonetic : option string;
  e_phonetics : list Phonetic;
  e_meanings : list Meaning
}.

(** The JSON value an entry of this type arrives as. *)
Definition property (key : string) (o : option string) : list (string * value) :=
  match o with
  | Some s => [(key, VStr s)]
  | None => []
  end.

Definition strings (l : list string) : value := VArr (map VStr l).

Definition phonetic_json (p : Phonetic) : value :=
  VObj (property "text" p.(p_text) ++ property "audio" p.(p_audio)).

Definition sense_json (d : Sense) : value :=
  VObj (("definition", VStr d.(d_definition)) :: property "example" d.(d_example)).

Definition meaning_json (m : Meaning) : value :=
  VObj [("definitions", VArr (map sense_json m.(m_definitions)));
        ("synonyms", strings m.(m_synonyms));
        ("antonyms", strings m.(m_antonyms))].

Definition entry_json (e : Entry) : value :=
  VObj (("word", VStr e.(e_word)) :: property "phonetic" e.(e_phonetic)
        ++ [("phonetics", VArr (map phonetic_json e.(e_phonetics)));
            ("meanings", VArr (map meaning_json e.(e_meanings)))]).

Definition response_json (entries : list Entry) : value :=
  VArr (map entry_json entries).

Definition no_definition : string := "No definition available.".
Definition no_example : string := "No example sentence available.".

Definition given (o : option string) : bool :=
  match o with Some _ => true | None => false end.

Definition non_empty (o : option string) : bool :=
  match o with Some s => negb (String.eqb s "") | None => false end.

Definition string_of (o : option string) : string :=
  match o with Some s => s | None => "" end.

(** *** The normalisation in the specification's words *)

Definition spec_pronunciation (e : Entry) : string :=
  match e.(e_phonetic) with
  | Some s => s
  | None => match find (fun p => non_empty p.(p_text)) e.(e_phonetics) with
            | Some p => string_of p.(p_text)
            | None => ""
            end
  end.

Definition spec_audio (e : Entry) : string :=
  match find (fun p => non_empty p.(p_audio)) e.(e_phonetics) with
  | Some p => string_of p.(p_audio)
  | None => ""
  end.

Definition spec_meaning (e : Entry) : string :=
  match e.(e_meanings) with
  | m :: _ => match m.(m_definitions) with
              | d :: _ => d.(d_definition)
              | [] => no_definition
              end
  | [] => no_definition
  end.

Definition spec_example (e : Entry) : string :=
  match e.(e_meanings) with
  | m :: _ => match find (fun d => given d.(d_example)) m.(m_definitions) with
              | Some d => string_of d.(d_example)
              | None => no_example
              end
  | [] => no_example
  end.

Definition spec_synonyms (e : Entry) : list string :=
  match e.(e_meanings) with m :: _ => m.(m_synonyms) | [] => [] end.

Definition spec_antonyms (e : Entry) : list string :=
  match e.(e_meanings) with m :: _ => m.(m_antonyms) | [] => [] end.

Definition spec_record (e : Entry) : WordRecord :=
  {| word := VStr e.(e_word);
     pronunciation := VStr (spec_pronunciation e);
     audio := VStr (spec_audio e);
     meaning := VStr (spec_meaning e);
     example := VStr (spec_example e);
     synonyms := strings (spec_synonyms e);
     antonyms := strings (spec_antonyms e) |}.

(** *** The same with an empty string counted as missing *)

Definition normal_pronunciation (e : Entry) : string :=
  if non_empty e.(e_phonetic) then string_of e.(e_phonetic)
  else match find (fun p => non_empty p.(p_text)) e.(e_phonetics) with
       | Some p => string_of p.(p_text)
       | None => ""
       end.

Definition normal_meaning (e : Entry) : string :=
  match e.(e_meanings) with
  | m :: _ => match m.(m_definitions) with
              | d :: _ => if String.eqb d.(d_definition) "" then no_definition
                          else d.(d_definition)
              | [] => no_definition
              end
  | [] => no_definition
  end.

Definition normal_example (e : Entry) : string :=
  match e.(e_meanings) with
  | m :: _ => match find (fun d => non_empty d.(d_example)) m.(m_definitions) with
              | Some d => string_of d.(d_example)
              | None => no_example
              end
  | [] => no_example
  end.

Definition normal_record (e : Entry) : WordRecord :=
  {| word := VStr e.(e_word);
     pronunciation := VStr (normal_pronunciation e);
     audio := VStr (spec_audio e);
     meaning := VStr (normal_meaning e);
     example := VStr (normal_example e);
     synonyms := strings (spec_synonyms e);
     antonyms := strings (spec_antonyms e) |}.

(** No string of the entry is present but empty. *)
Definition no_empty_strings (e : Entry) : Prop :=
  e.(e_phonetic) <> Some ""
  /\ forall m, In m e.(e_meanings) ->
       forall d, In d m.(m_definitions) ->
         d.(d_definition) <> "" /\ d.(d_example) <> Some "".

End Api.

(** ** The predicates the theorems are stated with *)

(** ** How a lookup can fail *)

(** The failures of the specification's section 4.3: a non-success status,
    a transport failure, a body that is not JSON, and a body whose shape
    makes reading the first entry raise an error. *)
Inductive lookup_fails (host : Host) (k : nat) (w : string) : Prop :=
| fails_status (body : option value) :
    host.(fetch) k w = Response false body -> lookup_fails host k w
| fails_transport :
    host.(fetch) k w = NetworkFailure -> lookup_fails host k w
| fails_parse :
    host.(fetch) k w = Response true None -> lookup_fails host k w
| fails_shape (data : value) (e : error) :
    host.(fetch) k w = Response true (Some data) ->
    (entry <- first_element data ;; entry_details host entry) = Throw e ->
    lookup_fails host k w.

(** A body of the shape the specification expects: a sequence of entries. *)
Definition expected_shape (data : value) : Prop :=
  exists entries, data = Api.response_json entries.

(** What one turn does. *)
Inductive turn_of (host : Host) (st st' : Selection) : Prop :=
| turn_taken (i : nat) (w : string) (d : option WordRecord) :
    i < List.length st.(availableWords) ->
    w = nth i st.(availableWords) "" ->
    getWordDetails host st.(draws) w = Ok d ->
    st'.(availableWords) = splice_out st.(availableWords) i ->
    st'.(draws) = S st.(draws) ->
    st'.(picked) = st.(picked) ++ [ {| draw := st.(draws);
                                       pool := st.(availableWords);
                                       used := st.(usedWords);
                                       selectedWord := w;
                                       details := d |} ] ->
    st'.(newWords) = st.(newWords)
                     ++ match d with Some r => [r] | None => [] end ->
    st'.(usedWords) = match d with
                      | Some _ => Set_add string_dec w st.(usedWords)
                      | None => st.(usedWords)
                      end ->
    turn_of host st st'.

(** Every pool is drawn from the starting pool, and every selected word
    from its pool. *)
Definition drawn_from (pool0 : list string) (st : Selection) : Prop :=
  incl st.(availableWords) pool0
  /\ forall p, In p st.(picked) ->
       incl p.(pool) pool0 /\ In p.(selectedWord) p.(pool).

(** With a corpus free of duplicates, the pool and the growing set of used
    words stay disjoint. *)
Definition apart (st : Selection) : Prop :=
  NoDup st.(availableWords)
  /\ (forall w, In w st.(availableWords) -> ~ In w st.(usedWords))
  /\ forall p, In p st.(picked) -> forall w, In w p.(pool) -> ~ In w p.(used).

(** The records gathered are those of the accepted turns, the used words
    are the starting set plus the accepted words, and every turn's details
    are what the lookup of its word returned. *)
Definition gathered (host : Host) (used0 : set string) (st : Selection) : Prop :=
  st.(newWords) = map snd (accepted st.(picked))
  /\ st.(usedWords)
     = fold_left (fun s w => Set_add string_dec w s)
                 (map fst (accepted st.(picked))) used0
  /\ forall p, In p st.(picked) ->
       getWordDetails host p.(draw) p.(selectedWord) = Ok p.(details).

(** The first turn draws from the whole starting pool. *)
Definition first_pool (pool0 : list string) (st : Selection) : Prop :=
  (st.(draws) = 0 -> st.(availableWords) = pool0)
  /\ forall p, In p st.(picked) -> p.(draw) = 0 -> p.(pool) = pool0.

(** The loop of a run that gets as far as selecting: it starts from the
    corpus without the ledger's words and returns [st]. *)
Definition selects (host : Host) (disk : Disk) (st : Selection) : Prop :=
  let usedWords0 := new_Set string_dec (ledger disk) in
  let availableWords0 := unused usedWords0 (corpus disk) in
  3 <= List.length availableWords0
  /\ while_loop host (List.length availableWords0)
                (start usedWords0 availableWords0) = Ok st.

(** The ways a run can go. *)
Inductive run_of (host : Host) (today : string) (disk : Disk) : Run -> Prop :=
| run_throws (e : error) :
    run_of host today disk (stop disk (Throw e) [])
| run_already_exists :
    obj_get (history_of disk) today <> Absent ->
    run_of host today disk (stop disk (Ok AlreadyExists) [])
| run_not_enough :
    List.length (unused (new_Set string_dec (ledger disk)) (corpus disk)) < 3 ->
    run_of host today disk (stop disk (Ok NotEnoughWords) [])
| run_shortfall (st : Selection) :
    selects host disk st ->
    List.length st.(newWords) <> 3 ->
    run_of host today disk (stop disk (Ok FetchShortfall) st.(picked))
| run_commit (st : Selection) :
    history_json disk <> Unreadable ->
    obj_get (history_of disk) today = Absent ->
    selects host disk st ->
    List.length st.(newWords) = 3 ->
    run_of host today disk (commit host today disk (history_of disk) st).

(** On date keys [localeCompare] orders as the code units do. *)
Definition locale_agrees (host : Host) : Prop :=
  forall a b, is_date_key a = true -> is_date_key b = true ->
    Z.compare (host.(localeCompare) a b) 0 = String.compare a b.

(** [a] is not before [b]: descending order, most recent date first. *)
Definition not_before (a b : string) : Prop := String.leb b a = true.

(** The digits of a date key read as one number, hyphens counting as 0:
    "2024-01-02" is 2024001002. *)
Definition digit_value (c : ascii) : nat := nat_of_ascii c - 48.

Fixpoint number (l : list ascii) : nat :=
  match l with
  | [] => 0
  | c :: rest => digit_value c * 10 ^ List.length rest + number rest
  end.

Definition date_number (s : string) : nat := number (list_ascii_of_string s).

(** Two characters that compare as their digit values do. *)
Definition same_order (x y : ascii) : Prop :=
  Ascii.compare x y = Nat.compare (digit_value x) (digit_value y)
  /\ digit_value x < 10 /\ digit_value y < 10.

(** ** Sample inputs *)

Module Samples.
Import Api.

(** Code-unit order, which [localeCompare] follows on date keys. *)
Definition by_code_unit (a b : string) : Z :=
  match String.compare a b with
  | Lt => (-1)%Z
  | Eq => 0%Z
  | Gt => 1%Z
  end.

Definition host_with (answer : nat -> string -> fetch_outcome)
                     (write : store -> write_outcome) : Host :=
  {| Math_random := fun _ => 0;
     fetch := answer;
     writeFile := write;
     localeCompare := by_code_unit;
     coerced_gt0 := fun _ => Ok false |}.

Definition bare_entry (w : string) : Entry :=
  {| e_word := w; e_phonetic := None; e_phonetics := []; e_meanings := [] |}.

(** A service that knows every word and echoes it. *)
Definition echo (_ : nat) (w : string) : fetch_outcome :=
  Response true (Some (response_json [bare_entry w])).

(** A service that answers with the word capitalised its own way. *)
Definition retitled (_ : nat) (w : string) : fetch_outcome :=
  Response true (Some (response_json [bare_entry ("The " ++ w)%string])).

Definition all_written (_ : store) : write_outcome := Written.

(** The history is written, the ledger write is refused. *)
Definition ledger_refused (s : store) : write_outcome :=
  match s with
  | USED_WORDS_PATH => Refused
  | _ => Written
  end.

Definition four_words : Disk :=
  {| wordlist_json := Content ["alpha"; "beta"; "gamma"; "delta"];
     used_words_json := Content ["alpha"];
     history_json := Missing |}.

(** An entry whose strings are present but empty. *)
Definition blank_entry : Entry :=
  {| e_word := "cat";
     e_phonetic := Some "";
     e_phonetics := [ {| p_text := Some "/kat/"; p_audio := None |} ];
     e_meanings :=
       [ {| m_definitions := [ {| d_definition := ""; d_example := None |} ];
            m_synonyms := []; m_antonyms := [] |} ] |}.

Definition full_entry : Entry :=
  {| e_word := "cat";
     e_phonetic := None;
     e_phonetics := [ {| p_text := None; p_audio := Some "" |};
                      {| p_text := Some "/kat/"; p_audio := Some "cat.mp3" |} ];
     e_meanings :=
       [ {| m_definitions :=
              [ {| d_definition := "A small animal."; d_example := None |};
                {| d_definition := "A person."; d_example := Some "A cool cat." |} ];
            m_synonyms := ["feline"]; m_antonyms := [] |} ] |}.

Definition answering (e : Entry) (_ : nat) (_ : string) : fetch_outcome :=
  Response true (Some (response_json [e])).

End Samples.

(** ** A response body read by property name *)

(** An optional string of the typed entry against the value of its
    property: the string itself, or undefined or null when it is left
    out. *)
Definition is_optional (v : value) (o : option string) : Prop :=
  match o with
  | Some s => v = VStr s
  | None => nullish v = true
  end.

(** A string and a list of strings that the program reads through [||]:
    left out, they read as the empty string and the empty list. *)
Definition is_text (v : value) (s : string) : Prop :=
  v = VStr s \/ (s = "" /\ nullish v = true).

Definition is_strings (v : value) (l : list string) : Prop :=
  v = Api.strings l \/ (l = [] /\ nullish v = true).

(** A JSON value carries a typed entry when the properties the program
    reads hold the entry's data.  Other properties, and the order of the
    properties, are free. *)
Definition phonetic_is (v : value) (p : Api.Phonetic) : Prop :=
  exists props, v = VObj props
    /\ is_optional (own props "text") p.(Api.p_text)
    /\ is_optional (own props "audio") p.(Api.p_audio).

Definition sense_is (v : value) (d : Api.Sense) : Prop :=
  exists props, v = VObj props
    /\ is_text (own props "definition") d.(Api.d_definition)
    /\ is_optional (own props "example") d.(Api.d_example).

Definition meaning_is (v : value) (m : Api.Meaning) : Prop :=
  exists props senses, v = VObj props
    /\ own props "definitions" = VArr senses
    /\ Forall2 sense_is senses m.(Api.m_definitions)
    /\ is_strings (own props "synonyms") m.(Api.m_synonyms)
    /\ is_strings (own props "antonyms") m.(Api.m_antonyms).

(** Only the first meaning group is read: the later ones are free. *)
Definition first_meaning_is (vs : list value) (ms : list Api.Meaning) : Prop :=
  match ms with
  | [] => vs = []
  | m :: _ => exists v rest, vs = v :: rest /\ meaning_is v m
  end.

Definition entry_is (v : value) (e : Api.Entry) : Prop :=
  exists props phonetics meanings, v = VObj props
    /\ own props "word" = VStr e.(Api.e_word)
    /\ is_optional (own props "phonetic") e.(Api.e_phonetic)
    /\ own props "phonetics" = VArr phonetics
    /\ Forall2 phonetic_is phonetics e.(Api.e_phonetics)
    /\ own props "meanings" = VArr meanings
    /\ first_meaning_is meanings e.(Api.e_meanings).

(** A body as the service sends it: the keys in its own order, properties
    the program never reads, no [phonetic] and no [antonyms], a second
    meaning group and a second entry that are not objects.  It carries
    [Samples.full_entry]. *)
Definition wire_entry : value :=
  VObj [ ("meanings",
          VArr [ VObj [ ("partOfSpeech", VStr "noun");
                        ("synonyms", VArr [VStr "feline"]);
                        ("definitions",
                         VArr [ VObj [ ("synonyms", VArr []);
                                       ("definition", VStr "A small animal.") ];
                                VObj [ ("example", VStr "A cool cat.");
                                       ("definition", VStr "A person.") ] ]) ];
                 VNull ]);
         ("license", VObj [("name", VStr "CC BY-SA 3.0")]);
         ("phonetics",
          VArr [ VObj [ ("audio", VStr ""); ("text", VNull) ];
                 VObj [ ("sourceUrl", VStr "https://example.org/cat");
                        ("audio", VStr "cat.mp3");
                        ("text", VStr "/kat/") ] ]);
         ("word", VStr "cat") ].

Definition wire_body : value := VArr [wire_entry; VNull].

Definition wire_host : Host :=
  Samples.host_with (fun _ _ => Response true (Some wire_body)) Samples.all_written.

(** ** More sample inputs *)

(** *** Hosts whose writes fail *)

(** The history write is refused; the ledger write would succeed. *)
Definition history_refused (s : store) : write_outcome :=
  match s with
  | HISTORY_PATH => Refused
  | _ => Written
  end.

(** The history is written; the ledger write fails half-way. *)
Definition ledger_torn (s : store) : write_outcome :=
  match s with
  | USED_WORDS_PATH => Torn
  | _ => Written
  end.

(** The sample disk with a ledger that does not parse. *)
Definition broken_ledger : Disk :=
  {| wordlist_json := Content ["alpha"; "beta"; "gamma"; "delta"];
     used_words_json := Unreadable;
     history_json := Missing |}.

(** *** A stored history *)

Definition record_of (w : string) : WordRecord :=
  Api.normal_record (Samples.bare_entry w).

Definition two_days : Disk :=
  {| wordlist_json := Missing;
     used_words_json := Missing;
     history_json :=
       Content [ ("2024-01-01", map record_of ["alpha"; "beta"; "gamma"]);
                 ("2024-01-02", map record_of ["delta"; "epsilon"; "zeta"]) ] |}.

(** ** The source file of the corpus builder, piece by piece *)

(** [pieces.join(sep)], which [split] undoes. *)
Fixpoint join_pieces (sep : PrepareDictionary.code_unit)
    (pieces : list PrepareDictionary.jsstring) : PrepareDictionary.jsstring :=
  match pieces with
  | [] => []
  | piece :: rest =>
      match rest with
      | [] => piece
      | _ :: _ => piece ++ sep :: join_pieces sep rest
      end
  end.

(** A string of white space only. *)
Definition all_white (s : PrepareDictionary.jsstring) : Prop :=
  Forall (fun c => PrepareDictionary.is_white_space c = true) s.

(** *** The lines and tokens of a source file, in the claim's words *)

(** The white space [trim] strips, code unit by code unit: tab, line feed,
    vertical tab, form feed, carriage return, space, no-break space, the
    Unicode spaces, the line and paragraph separators, and the byte order
    mark. *)
Definition white_unit (c : PrepareDictionary.code_unit) : Prop :=
  In c [9; 10; 11; 12; 13; 32; 160; 5760; 8232; 8233; 8239; 8287; 12288; 65279]%N
  \/ (8192 <= c <= 8202)%N.

(** A to Z, a to z. *)
Definition letter_unit (c : PrepareDictionary.code_unit) : Prop :=
  (65 <= c <= 90)%N \/ (97 <= c <= 122)%N.

(** The lines of a file: the pieces between its line feeds. *)
Definition lines_of (fileContent : PrepareDictionary.jsstring)
    (ls : list PrepareDictionary.jsstring) : Prop :=
  ls <> []
  /\ Forall (fun line => ~ In PrepareDictionary.newline line) ls
  /\ fileContent = join_pieces PrepareDictionary.newline ls.

(** The token of a line: the text before the line's first comma (the whole
    line when it has none), without the white space around it. *)
Definition token_of (line token : PrepareDictionary.jsstring) : Prop :=
  exists field rest pre post,
    line = field ++ rest
    /\ ~ In PrepareDictionary.comma field
    /\ (rest = [] \/ exists r, rest = PrepareDictionary.comma :: r)
    /\ field = pre ++ token ++ post
    /\ Forall white_unit pre
    /\ Forall white_unit post
    /\ (forall c r, token = c :: r -> ~ white_unit c)
    /\ (forall i c, token = i ++ [c] -> ~ white_unit c).

(** "abc,x" / " hello " / "ab" / "defg\r" / "a1c, 7" / "abc": six lines;
    "hello" stands on a padded line only, "defg" on a line that ends in a
    carriage return only, and "abc" comes twice. *)
Definition sample_lines : list PrepareDictionary.jsstring :=
  [ [97; 98; 99; 44; 120]; [32; 104; 101; 108; 108; 111; 32]; [97; 98];
    [100; 101; 102; 103; 13]; [97; 49; 99; 44; 32; 55];
    [97; 98; 99] ]%N.

Definition sample_tokens : list PrepareDictionary.jsstring :=
  [ [97; 98; 99]; [104; 101; 108; 108; 111]; [97; 98];
    [100; 101; 102; 103]; [97; 49; 99]; [97; 98; 99] ]%N.

Definition sample_file : PrepareDictionary.jsstring :=
  [97; 98; 99; 44; 120; 10; 32; 104; 101; 108; 108; 111; 32; 10; 97; 98; 10;
   100; 101; 102; 103; 13; 10; 97; 49; 99; 44; 32; 55; 10;
   97; 98; 99]%N.

(** Steps for checking a token of a sample line. *)
Ltac not_white :=
  unfold white_unit; simpl;
  let H := fresh "H" in
  intros [H|H];
  [ repeat (destruct H as [H|H]; [discriminate H|]); exact H | lia ].

Ltac all_white_units :=
  repeat (constructor; [unfold white_unit; simpl; tauto|]); constructor.

Ltac no_comma :=
  simpl;
  let H := fresh "H" in
  intros H; repeat (destruct H as [H|H]; [discriminate H|]); exact H.

Ltac token_here field rest pre post :=
  exists field, rest, pre, post;
  split; [reflexivity|];
  split; [no_comma|];
  split; [first [left; reflexivity | right; eexists; reflexivity]|];
  split; [reflexivity|];
  split; [all_white_units|];
  split; [all_white_units|];
  split;
  [ let c := fresh "c" in let r := fresh "r" in let E := fresh "E" in
    intros c r E; inversion E; subst; not_white
  | let i := fresh "i" in let c := fresh "c" in let E := fresh "E" in
    intros i c E; apply (f_equal (@rev PrepareDictionary.code_unit)) in E;
    rewrite rev_app_distr in E; simpl in E; inversion E; subst; not_white ].

(** ** What the further properties are stated with *)

(** *** The process: [updateDailyWords] at start-up, then at every firing
    of the cron schedule, one call after the other *)

Record Trigger : Type := {
  at_host : Host;      (* what the outside does during that call *)
  at_date : string     (* the call's [today] *)
}.

Fixpoint process (triggers : list Trigger) (disk : Disk) : list (string * Run) :=
  match triggers with
  | [] => []
  | t :: later =>
      let run := updateDailyWords t.(at_host) t.(at_date) disk in
      (t.(at_date), run) :: process later (disk_after run)
  end.

(** The disk the calls leave behind. *)
Definition disk_at_end (triggers : list Trigger) (disk : Disk) : Disk :=
  fold_left (fun d t => disk_after (updateDailyWords t.(at_host) t.(at_date) d))
            triggers disk.

(** *** More of what the selection loop keeps *)

(** The words drawn so far and the words left in the pool make up the
    starting pool. *)
Definition accounted (pool0 : list string) (st : Selection) : Prop :=
  Permutation (map selectedWord st.(picked) ++ st.(availableWords)) pool0.

(** Never more than 3 records; and once there are 3, the last turn taken is
    the one that brought the third. *)
Definition stops_at_three (st : Selection) : Prop :=
  List.length st.(newWords) <= 3
  /\ (List.length st.(newWords) = 3 ->
      exists earlier p r,
        st.(picked) = earlier ++ [p] /\ p.(details) = Some r).

(** Every lookup the host is asked for succeeds with a usable body. *)
Definition always_answers (host : Host) : Prop :=
  forall k w, exists r, getWordDetails host k w = Ok (Some r).

(** *** More sample inputs *)

Definition echo_host : Host := Samples.host_with Samples.echo Samples.all_written.

Definition call_on (date : string) : Trigger :=
  {| at_host := echo_host; at_date := date |}.

(** The first call on the sample disk. *)
Definition first_call : Run := updateDailyWords echo_host "2024-01-02" Samples.four_words.

(** A corpus that lasts two days, and the first call on it. *)
Definition seven_words : Disk :=
  {| wordlist_json :=
       Content ["alpha"; "beta"; "gamma"; "delta"; "epsilon"; "zeta"; "eta"];
     used_words_json := Content ["alpha"];
     history_json := Missing |}.

Definition first_of_seven : Run :=
  updateDailyWords echo_host "2024-01-02" seven_words.

(* ===================================================================== *)
(** * Part II. Theorems *)
(* ===================================================================== *)

(** ** The Definition Enricher on a response of the expected shape *)

Section Normalisation.
Import Api.
Variable host : Host.

Lemma optional_truthy (v : value) (o : option string) :
  is_optional v o -> truthy v = non_empty o.
Proof.
  destruct o as [s|]; simpl.
  - intros ->. reflexivity.
  - destruct v; simpl; intros H; try discriminate H; reflexivity.
Qed.

Lemma optional_non_empty (v : value) (o : option string) :
  is_optional v o -> non_empty o = true -> v = VStr (string_of o).
Proof. destruct o as [s|]; simpl; [intros -> _; reflexivity | discriminate]. Qed.

Lemma positive_length (s : string) :
  String.eqb s "" = false ->
  greater_than_zero host.(coerced_gt0) (number_of_nat (String.length s)) = Ok true.
Proof. destruct s; [discriminate | reflexivity]. Qed.

(** [p => p.text] and [d => d.example] on a value that carries a typed
    element. *)
Lemma accepts_text (v : value) (p : Phonetic) :
  phonetic_is v p ->
  (text <- member v f_text ;; Ok (truthy text)) = Ok (non_empty p.(p_text)).
Proof.
  intros (props & -> & Ht & _). cbn [member field_name bind].
  rewrite (optional_truthy _ _ Ht). reflexivity.
Qed.

Lemma accepts_example (v : value) (d : Sense) :
  sense_is v d ->
  (e <- member v f_example ;; Ok (truthy e)) = Ok (non_empty d.(d_example)).
Proof.
  intros (props & -> & _ & Hx). cbn [member field_name bind].
  rewrite (optional_truthy _ _ Hx). reflexivity.
Qed.

(** [p => p.audio && p.audio.length > 0] *)
Lemma accepts_audio (v : value) (p : Phonetic) :
  phonetic_is v p ->
  (a <- member v f_audio ;;
   if truthy a
   then len <- member a f_length ;; greater_than_zero host.(coerced_gt0) len
   else Ok false) = Ok (non_empty p.(p_audio)).
Proof.
  intros (props & -> & _ & Ha). cbn [member field_name bind].
  rewrite (optional_truthy _ _ Ha).
  destruct (non_empty (p_audio p)) eqn:E; [|reflexivity].
  rewrite (optional_non_empty _ _ Ha E).
  destruct (p_audio p) as [s|]; [|discriminate E]. simpl in E.
  cbn [member bind string_of]. apply positive_length.
  destruct (String.eqb s ""); [discriminate E | reflexivity].
Qed.

(** [find] on the values agrees with the search on the typed elements. *)
Lemma find_first_typed {T} (R : value -> T -> Prop) (test : T -> bool)
    (callback : value -> result bool) (vs : list value) (ts : list T) :
  (forall v t, R v t -> callback v = Ok (test t)) ->
  Forall2 R vs ts ->
  exists found, find_first callback vs = Ok found
    /\ match find test ts with
       | Some t => R found t /\ test t = true
       | None => found = VUndefined
       end.
Proof.
  intros Hcb H. induction H as [|v t vs ts Hvt _ IH].
  - exists VUndefined. split; reflexivity.
  - cbn [find_first find]. rewrite (Hcb v t Hvt). cbn [bind].
    destruct (test t) eqn:E.
    + exists v. split; [reflexivity | split; assumption].
    + exact IH.
Qed.

(** [(found || {}).f || fallback] and [found?.f || fallback], when [found]
    came from a search for a non-empty string under [f]. *)
Lemma found_string {T} (R : value -> T -> Prop) (get : T -> option string)
    (f : field) (found : value) (o : option T) (fallback : string) :
  (forall v t, R v t ->
     exists props, v = VObj props /\ is_optional (own props (field_name f)) (get t)) ->
  match o with
  | Some t => R found t /\ non_empty (get t) = true
  | None => found = VUndefined
  end ->
  exists x,
    member (or_else found (VObj [])) f = Ok x
    /\ optional found (fun d => member d f) = Ok x
    /\ or_else x (VStr fallback)
       = VStr match o with Some t => string_of (get t) | None => fallback end.
Proof.
  intros HR H. destruct o as [t|].
  - destruct H as [Hr Hn]. destruct (HR _ _ Hr) as (props & -> & Ho).
    exists (own props (field_name f)). repeat split.
    rewrite (optional_non_empty _ _ Ho Hn).
    destruct (get t) as [s|]; [|discriminate Hn].
    unfold or_else. simpl in *. rewrite Hn. reflexivity.
  - subst found. exists VUndefined. repeat split.
Qed.

Lemma phonetic_text (v : value) (p : Phonetic) :
  phonetic_is v p ->
  exists props, v = VObj props /\ is_optional (own props (field_name f_text)) p.(p_text).
Proof. intros (props & -> & Ht & _). exists props. split; [reflexivity | exact Ht]. Qed.

Lemma phonetic_audio (v : value) (p : Phonetic) :
  phonetic_is v p ->
  exists props, v = VObj props /\ is_optional (own props (field_name f_audio)) p.(p_audio).
Proof. intros (props & -> & _ & Ha). exists props. split; [reflexivity | exact Ha]. Qed.

Lemma sense_example (v : value) (d : Sense) :
  sense_is v d ->
  exists props, v = VObj props /\ is_optional (own props (field_name f_example)) d.(d_example).
Proof. intros (props & -> & _ & Hx). exists props. split; [reflexivity | exact Hx]. Qed.

Lemma text_or_placeholder (v : value) (s fallback : string) :
  is_text v s ->
  or_else v (VStr fallback) = VStr (if String.eqb s "" then fallback else s).
Proof.
  intros [->|[-> Hn]].
  - unfold or_else. simpl. destruct (String.eqb s ""); reflexivity.
  - destruct v; try discriminate Hn; reflexivity.
Qed.

Lemma strings_or_empty (v : value) (l : list string) :
  is_strings v l -> or_else v (VArr []) = strings l.
Proof.
  intros [->|[-> Hn]]; [reflexivity|].
  destruct v; try discriminate Hn; reflexivity.
Qed.

(** The four reads of [entry.meanings[0]] on a first meaning group. *)
Lemma meaning_details (v : value) (m : Meaning) :
  meaning_is v m ->
  (exists x,
     (definitions <- member v f_definitions ;;
      d <- first_element definitions ;;
      optional d (fun d => member d f_definition)) = Ok x
     /\ or_else x (VStr no_definition)
        = VStr match m.(m_definitions) with
               | d :: _ => if String.eqb d.(d_definition) "" then no_definition
                           else d.(d_definition)
               | [] => no_definition
               end)
  /\ (exists x,
        (definitions <- member v f_definitions ;;
         d <- call_find definitions
                (fun d => e <- member d f_example ;; Ok (truthy e)) ;;
         optional d (fun d => member d f_example)) = Ok x
        /\ or_else x (VStr no_example)
           = VStr match find (fun d => non_empty d.(d_example)) m.(m_definitions) with
                  | Some d => string_of d.(d_example)
                  | None => no_example
                  end)
  /\ (exists x, member v f_synonyms = Ok x
                /\ or_else x (VArr []) = strings m.(m_synonyms))
  /\ (exists x, member v f_antonyms = Ok x
                /\ or_else x (VArr []) = strings m.(m_antonyms)).
Proof.
  intros (props & senses & -> & Hd & Hs & Hsyn & Hant).
  cbn [member field_name]. rewrite Hd. cbn [bind first_element call_find].
  split; [|split; [|split]].
  - destruct Hs as [|s d ss ds (sp & -> & Hdef & _) _].
    + exists VUndefined. split; reflexivity.
    + cbn [nth optional nullish member field_name].
      exists (own sp "definition"). split; [reflexivity|].
      apply text_or_placeholder. exact Hdef.
  - destruct (find_first_typed sense_is (fun d => non_empty d.(d_example))
                (fun d => e <- member d f_example ;; Ok (truthy e))
                senses m.(m_definitions) accepts_example Hs) as (found & Hf & Hm).
    rewrite Hf. cbn [bind].
    destruct (found_string sense_is d_example f_example found _ no_example
                sense_example Hm) as (x & _ & Hx & Hor).
    exists x. split; assumption.
  - eexists. split; [reflexivity | apply strings_or_empty; exact Hsyn].
  - eexists. split; [reflexivity | apply strings_or_empty; exact Hant].
Qed.

(** The record computed from a first entry that carries [e]. *)
Lemma entry_details_reads (v : value) (e : Entry) :
  entry_is v e -> entry_details host v = Ok (normal_record e).
Proof.
  intros (props & phonetics & meanings & -> & Hw & Hp & Hps & Hphon & Hms & Hmean).
  unfold entry_details, first_meaning.
  cbn [member field_name]. rewrite Hw, Hps, Hms. cbn [bind call_find first_element].
  destruct (find_first_typed phonetic_is (fun p => non_empty p.(p_text))
              (fun p => text <- member p f_text ;; Ok (truthy text))
              phonetics e.(e_phonetics) accepts_text Hphon) as (pt & Hpt & Mt).
  destruct (find_first_typed phonetic_is (fun p => non_empty p.(p_audio))
              (fun p =>
                 a <- member p f_audio ;;
                 if truthy a
                 then len <- member a f_length ;;
                      greater_than_zero host.(coerced_gt0) len
                 else Ok false)
              phonetics e.(e_phonetics) accepts_audio Hphon) as (pa & Hpa & Ma).
  destruct (found_string phonetic_is p_text f_text pt _ "" phonetic_text Mt)
    as (text & Htext & _ & Hortext).
  destruct (found_string phonetic_is p_audio f_audio pa _ "" phonetic_audio Ma)
    as (aud & Haud & _ & Horaud).
  rewrite Hpt, Hpa. cbn [bind]. rewrite Htext, Haud. cbn [bind].
  rewrite Hortext, Horaud.
  assert (Hpron :
    (if truthy (own props "phonetic")
     then Ok (own props "phonetic")
     else Ok (VStr match find (fun p => non_empty (p_text p)) (e_phonetics e) with
                   | Some p => string_of (p_text p)
                   | None => ""
                   end))
    = Ok (VStr (normal_pronunciation e))).
  { unfold normal_pronunciation. rewrite (optional_truthy _ _ Hp).
    destruct (non_empty (e_phonetic e)) eqn:E; [|reflexivity].
    rewrite (optional_non_empty _ _ Hp E). reflexivity. }
  rewrite Hpron. cbn [bind].
  unfold normal_record, normal_meaning, normal_example, spec_synonyms,
    spec_antonyms, spec_audio.
  unfold first_meaning_is in Hmean.
  destruct (e_meanings e) as [|m ms].
  - subst meanings. reflexivity.
  - destruct Hmean as (mv & rest & -> & Hm). cbn [nth].
    assert (Hobj : nullish mv = false).
    { destruct Hm as (mp & ? & -> & _). reflexivity. }
    unfold optional at 1 3 5 6. rewrite Hobj.
    destruct (meaning_details mv m Hm)
      as ((xd & Hdef & Hord) & (x & Hex & Horx) & (xs & Hsyn & Hors)
          & (xa & Hant & Hora)).
    unfold no_example in Horx. unfold no_definition in Hord.
    rewrite Hdef, Hex, Hsyn, Hant. cbn [bind].
    rewrite Hord, Horx, Hors, Hora. reflexivity.
Qed.

(** The specification's own encoding of a typed entry carries it. *)
Lemma entry_json_is (e : Entry) : entry_is (entry_json e) e.
Proof.
  assert (Hp : forall p, phonetic_is (phonetic_json p) p).
  { intros [[t|] [a|]]; eexists; repeat split. }
  assert (Hd : forall d, sense_is (sense_json d) d).
  { intros [t [x|]]; eexists; (split; [reflexivity|]);
      (split; [left; reflexivity | reflexivity]). }
  assert (Hm : forall m, meaning_is (meaning_json m) m).
  { intros m. eexists. exists (map sense_json (m_definitions m)).
    split; [reflexivity|]. split; [reflexivity|].
    split; [induction (m_definitions m); constructor; auto|].
    split; left; reflexivity. }
  destruct e as [w ph ps ms]. unfold entry_json. cbn [e_word e_phonetic e_phonetics e_meanings].
  eexists. exists (map phonetic_json ps), (map meaning_json ms).
  split; [reflexivity|].
  split; [reflexivity|].
  split; [destruct ph; reflexivity|].
  split; [destruct ph; reflexivity|].
  split; [induction ps; constructor; auto|].
  split; [destruct ph; reflexivity|].
  destruct ms as [|m ms]; [reflexivity|].
  eexists. eexists. split; [reflexivity | apply Hm].
Qed.

End Normalisation.

(** ** C6: normalisation of a successful response *)

(** C6 (as amended).  For every successful lookup whose body is a sequence
    of entries and whose first entry has the expected shape -- whatever the
    order of its properties, whatever other properties it carries, and
    whatever the later entries and the later meaning groups are -- the
    first entry is normalised so that:
    [word] is the entry's word; [pronunciation] is the top-level phonetic
    string if present and non-empty, else the text of the first phonetics
    element with a non-empty text, else the empty string; [audio] is the
    audio of the first phonetics element with a non-empty audio, else empty;
    [meaning] is the text of the first definition of the first meaning group
    if non-empty, else "No definition available."; [example] is the example
    of the first definition of the first meaning group that has a non-empty
    example, else "No example sentence available."; [synonyms] and
    [antonyms] are those of the first meaning group, else empty. *)
Theorem getWordDetails_normalises (host : Host) (k : nat) (w : string)
    (first : value) (others : list value) (e : Api.Entry) :
  host.(fetch) k w = Response true (Some (VArr (first :: others))) ->
  entry_is first e ->
  getWordDetails host k w = Ok (Some (Api.normal_record e)).
Proof.
  intros H He. unfold getWordDetails, getWordDetails_try. rewrite H.
  cbn [first_element nth bind].
  rewrite (entry_details_reads host first e He). reflexivity.
Qed.

Lemma getWordDetails_normalises_witness :
  fetch wire_host 0 "cat" = Response true (Some (VArr [wire_entry; VNull]))
  /\ entry_is wire_entry Samples.full_entry
  /\ getWordDetails wire_host 0 "cat"
     = Ok (Some {| word := VStr "cat";
                   pronunciation := VStr "/kat/";
                   audio := VStr "cat.mp3";
                   meaning := VStr "A small animal.";
                   example := VStr "A cool cat.";
                   synonyms := VArr [VStr "feline"];
                   antonyms := VArr [] |}).
Proof.
  assert (He : entry_is wire_entry Samples.full_entry).
  { unfold wire_entry, entry_is.
    eexists. eexists. eexists.
    split; [reflexivity|].
    split; [reflexivity|].
    split; [reflexivity|].
    split; [reflexivity|].
    split.
    { constructor; [|constructor; [|constructor]];
        eexists; (split; [reflexivity|]); split; reflexivity. }
    split; [reflexivity|].
    eexists. eexists. split; [reflexivity|].
    eexists. eexists.
    split; [reflexivity|].
    split; [reflexivity|].
    split.
    { constructor; [|constructor; [|constructor]];
        eexists; (split; [reflexivity|]);
        (split; [left; reflexivity | reflexivity]). }
    split; [left; reflexivity | right; split; reflexivity]. }
  split; [reflexivity|]. split; [exact He|].
  apply (getWordDetails_normalises wire_host 0 "cat" wire_entry [VNull]
           Samples.full_entry).
  - reflexivity.
  - exact He.
Defined.

(** C6 as stated fails when a string is present but empty: the phonetic
    string [""] is passed over for the first phonetics text, and the
    definition [""] for the placeholder. *)
Lemma getWordDetails_skips_empty_strings :
  let host := Samples.host_with (Samples.answering Samples.blank_entry)
                                Samples.all_written in
  host.(fetch) 0 "cat"
    = Response true (Some (Api.response_json [Samples.blank_entry]))
  /\ Api.spec_pronunciation Samples.blank_entry = ""
  /\ Api.spec_meaning Samples.blank_entry = ""
  /\ (exists r, getWordDetails host 0 "cat" = Ok (Some r)
                /\ pronunciation r = VStr "/kat/"
                /\ meaning r = VStr "No definition available.")
  /\ getWordDetails host 0 "cat" <> Ok (Some (Api.spec_record Samples.blank_entry)).
Proof.
  cbv zeta. split; [reflexivity|]. split; [reflexivity|]. split; [reflexivity|].
  split.
  - eexists. split; [vm_compute; reflexivity|]. split; reflexivity.
  - vm_compute. discriminate.
Qed.

(** Where no string is present but empty, the two readings agree. *)
Lemma spec_record_agrees (e : Api.Entry) :
  Api.no_empty_strings e -> Api.spec_record e = Api.normal_record e.
Proof.
  intros [Hp Hm].
  unfold Api.spec_record, Api.normal_record. f_equal; f_equal.
  - unfold Api.spec_pronunciation, Api.normal_pronunciation.
    destruct (Api.e_phonetic e) as [s|]; [|reflexivity].
    simpl. destruct (String.eqb_spec s ""); [congruence | reflexivity].
  - unfold Api.spec_meaning, Api.normal_meaning.
    destruct (Api.e_meanings e) as [|m ms]; [reflexivity|].
    destruct (Api.m_definitions m) as [|d ds] eqn:E; [reflexivity|].
    destruct (Hm m (or_introl eq_refl) d) as [Hd _]; [rewrite E; left; reflexivity|].
    destruct (String.eqb_spec (Api.d_definition d) ""); [contradiction | reflexivity].
  - unfold Api.spec_example, Api.normal_example.
    destruct (Api.e_meanings e) as [|m ms]; [reflexivity|].
    assert (Hf : forall ds, incl ds (Api.m_definitions m) ->
              find (fun d => Api.given (Api.d_example d)) ds
              = find (fun d => Api.non_empty (Api.d_example d)) ds).
    { induction ds as [|d ds IH]; intros Hi; [reflexivity|].
      simpl. destruct (Hm m (or_introl eq_refl) d (Hi d (or_introl eq_refl))) as [_ Hx].
      rewrite IH by (intros x Hin; apply Hi; right; exact Hin).
      destruct (Api.d_example d) as [s|]; [|reflexivity].
      simpl. destruct (String.eqb_spec s ""); [congruence | reflexivity]. }
    rewrite Hf by apply incl_refl. reflexivity.
Qed.

(** ** C7: the Definition Enricher never raises *)

Lemma getWordDetails_total (host : Host) (k : nat) (w : string) :
  exists details, getWordDetails host k w = Ok details.
Proof.
  unfold getWordDetails. destruct (getWordDetails_try host k w); eauto.
Qed.

(** C7 (as amended).  For every word and every lookup outcome,
    [getWordDetails] returns to its caller and never raises; on a
    non-success status, a transport failure, a body that does not parse, or
    a body whose shape makes reading its first entry raise an error, what it
    returns is null. *)
Theorem getWordDetails_never_raises :
  (forall host k w, exists details, getWordDetails host k w = Ok details)
  /\ (forall host k w, lookup_fails host k w -> getWordDetails host k w = Ok None).
Proof.
  split; [exact getWordDetails_total|].
  intros host k w [body H | H | H | data e H Hshape];
    unfold getWordDetails, getWordDetails_try; rewrite H; try reflexivity.
  destruct (first_element data) as [entry|e']; [|reflexivity].
  cbn [bind] in *. rewrite Hshape. reflexivity.
Qed.

Lemma getWordDetails_never_raises_witness :
  getWordDetails (Samples.host_with (fun _ _ => Response true (Some (VArr [])))
                                    Samples.all_written) 0 "cat" = Ok None.
Proof.
  apply (proj2 getWordDetails_never_raises).
  apply fails_shape with (data := VArr []) (e := TypeError); reflexivity.
Defined.

(** Shapes that raise.  A body with no first entry: *)
Lemma raises_without_first_entry (host : Host) (data : value) :
  (forall first, first_element data = Ok first -> nullish first = true) ->
  exists e, (entry <- first_element data ;; entry_details host entry) = Throw e.
Proof.
  intros H. destruct (first_element data) as [v|e]; [|eexists; reflexivity].
  specialize (H v eq_refl). destruct v; try discriminate H; eexists; reflexivity.
Qed.

Lemma member_defined (v : value) (f : field) (u : value) :
  member v f = Ok u -> forall g, exists u', member v g = Ok u'.
Proof. destruct v; try discriminate; intros _ g; eexists; reflexivity. Qed.

(** a first entry whose [phonetics] is not an array: *)
Lemma raises_without_phonetics (host : Host) (entry v : value) :
  member entry f_phonetics = Ok v ->
  (forall elems, v <> VArr elems) ->
  entry_details host entry = Throw TypeError.
Proof.
  intros Hv Hn. unfold entry_details.
  destruct (member_defined _ _ _ Hv f_word) as [w Hw].
  destruct (member_defined _ _ _ Hv f_phonetic) as [p Hp].
  rewrite Hw, Hp, Hv. cbn [bind].
  assert (Hc : forall cb, call_find v cb = Throw TypeError).
  { destruct v; try reflexivity. exfalso. eapply Hn. reflexivity. }
  rewrite !Hc. destruct (truthy p); reflexivity.
Qed.

(** a first entry whose [meanings] is missing or null. *)
Lemma raises_without_meanings (host : Host) (entry v : value) :
  member entry f_meanings = Ok v ->
  nullish v = true ->
  exists e, entry_details host entry = Throw e.
Proof.
  intros Hv Hn. unfold entry_details.
  assert (Hm : first_meaning entry = Throw TypeError).
  { unfold first_meaning. rewrite Hv. destruct v; try discriminate Hn; reflexivity. }
  rewrite Hm.
  repeat match goal with
         | |- exists e, bind ?x _ = Throw e =>
             destruct x; cbn [bind]; [|eexists; reflexivity]
         end.
  eexists; reflexivity.
Qed.

(** C7 as stated fails for a body that departs from the expected shape
    without making any read raise: a first entry that only lacks [word] is
    returned as a record, whose [word] is undefined. *)
Lemma getWordDetails_returns_wordless_entry :
  let data := VArr [VObj [("phonetics", VArr []); ("meanings", VArr [])]] in
  let host := Samples.host_with (fun _ _ => Response true (Some data))
                                Samples.all_written in
  ~ expected_shape data
  /\ host.(fetch) 0 "cat" = Response true (Some data)
  /\ getWordDetails host 0 "cat"
     = Ok (Some {| word := VUndefined;
                   pronunciation := VStr "";
                   audio := VStr "";
                   meaning := VStr "No definition available.";
                   example := VStr "No example sentence available.";
                   synonyms := VArr [];
                   antonyms := VArr [] |})
  /\ getWordDetails host 0 "cat" <> Ok None.
Proof.
  cbv zeta. split; [|split; [reflexivity | split; [reflexivity | discriminate]]].
  intros [entries E].
  destruct entries as [|e [|e' entries]]; simpl in E; inversion E.
Qed.

(** ** The selection loop *)

Section Loop.
Variable host : Host.

Lemma splice_out_length {A} (a : list A) (i : nat) :
  i < List.length a -> List.length (splice_out a i) = List.length a - 1.
Proof.
  intros H. unfold splice_out.
  rewrite length_app, length_firstn, length_skipn. lia.
Qed.

Lemma splice_out_incl {A} (a : list A) (i : nat) : incl (splice_out a i) a.
Proof.
  revert i. induction a as [|y a IH]; intros i x H.
  - destruct i; exact H.
  - destruct i as [|i].
    + right. exact H.
    + change (In x (y :: splice_out a i)) in H.
      destruct H as [H|H]; [left; exact H | right; eapply IH; exact H].
Qed.

Lemma splice_out_NoDup {A} (a : list A) (i : nat) :
  NoDup a -> NoDup (splice_out a i).
Proof.
  revert i. induction a as [|x a IH]; intros i H.
  - destruct i; exact H.
  - inversion H as [|? ? Hx Ha]; subst. destruct i as [|i].
    + exact Ha.
    + change (NoDup (x :: splice_out a i)). constructor; [|apply IH; exact Ha].
      intros Hin. apply Hx. eapply splice_out_incl. exact Hin.
Qed.

Lemma splice_out_removes {A} (a : list A) (i : nat) (d : A) :
  NoDup a -> i < List.length a -> ~ In (nth i a d) (splice_out a i).
Proof.
  revert i. induction a as [|x a IH]; intros i H Hi; [simpl in Hi; lia|].
  inversion H as [|? ? Hx Ha]; subst. destruct i as [|i].
  - exact Hx.
  - change (~ In (nth i a d) (x :: splice_out a i)). intros [E|Hin].
    + apply Hx. rewrite E. apply nth_In. simpl in Hi. lia.
    + revert Hin. apply IH; [exact Ha | simpl in Hi; lia].
Qed.

Lemma loop_body_turn (st : Selection) :
  loop_condition st = true ->
  exists st', loop_body host st = Ok st' /\ turn_of host st st'.
Proof.
  intros Hc. unfold loop_condition in Hc.
  apply andb_true_iff in Hc. destruct Hc as [_ Hc]. apply Nat.ltb_lt in Hc.
  unfold loop_body.
  destruct (getWordDetails_total host (draws st)
              (nth (Math_random host (draws st) mod List.length (availableWords st))
                   (availableWords st) "")) as [d Hd].
  rewrite Hd. cbn [bind]. eexists. split; [reflexivity|].
  assert (Hi : Math_random host (draws st) mod List.length (availableWords st)
               < List.length (availableWords st))
    by (apply Nat.mod_upper_bound; lia).
  destruct d as [r|];
    (eapply turn_taken; [exact Hi | reflexivity | exact Hd | ..];
     try reflexivity).
  simpl. symmetry. apply app_nil_r.
Qed.

(** The loop always returns, *)
Lemma while_loop_total (fuel : nat) (st : Selection) :
  exists st', while_loop host fuel st = Ok st'.
Proof.
  revert st. induction fuel as [|fuel IH]; intros st; simpl; [eauto|].
  destruct (loop_condition st) eqn:Hc; [|eauto].
  destruct (loop_body_turn st Hc) as (st1 & -> & _). cbn [bind]. apply IH.
Qed.

(** and with [availableWords.length] turns allowed it has left the
    [while]: its condition is false. *)
Lemma while_loop_exits (fuel : nat) (st st' : Selection) :
  List.length st.(availableWords) <= fuel ->
  while_loop host fuel st = Ok st' ->
  loop_condition st' = false.
Proof.
  revert st. induction fuel as [|fuel IH]; intros st Hf H; simpl in H.
  - inversion H; subst. unfold loop_condition.
    replace (0 <? List.length (availableWords st')) with false;
      [apply andb_false_r | symmetry; apply Nat.ltb_ge; lia].
  - destruct (loop_condition st) eqn:Hc; [|inversion H; subst; exact Hc].
    destruct (loop_body_turn st Hc) as (st1 & E & T). rewrite E in H.
    cbn [bind] in H. apply (IH st1); [|exact H].
    destruct T as [i w d Hi _ _ Ha _ _ _ _].
    rewrite Ha, splice_out_length by exact Hi. lia.
Qed.

(** A property kept by every turn holds when the loop returns. *)
Lemma while_loop_invariant (P : Selection -> Prop) :
  (forall st st', P st -> loop_condition st = true -> turn_of host st st' -> P st') ->
  forall fuel st st', P st -> while_loop host fuel st = Ok st' -> P st'.
Proof.
  intros Hstep fuel. induction fuel as [|fuel IH]; intros st st' HP H; simpl in H.
  - inversion H; subst; exact HP.
  - destruct (loop_condition st) eqn:Hc; [|inversion H; subst; exact HP].
    destruct (loop_body_turn st Hc) as (st1 & E & T). rewrite E in H.
    cbn [bind] in H. apply (IH st1); [|exact H].
    eapply Hstep; eauto.
Qed.

(** *** What the loop keeps *)

Lemma drawn_from_kept (pool0 : list string) (st st' : Selection) :
  drawn_from pool0 st -> loop_condition st = true -> turn_of host st st' ->
  drawn_from pool0 st'.
Proof.
  intros [Ha Hp] _ [i w d Hi Hw _ Ea _ Ep _ _]. split.
  - rewrite Ea. intros x Hx. apply Ha. eapply splice_out_incl. exact Hx.
  - intros p Hin. rewrite Ep in Hin. apply in_app_or in Hin.
    destruct Hin as [Hin|[<-|[]]]; [apply Hp; exact Hin|].
    simpl. split; [exact Ha|]. rewrite Hw. apply nth_In. exact Hi.
Qed.

Lemma apart_kept (st st' : Selection) :
  apart st -> loop_condition st = true -> turn_of host st st' -> apart st'.
Proof.
  intros (Hn & Hd & Hp) _ [i w d Hi Hw _ Ea _ Ep _ Eu]. split; [|split].
  - rewrite Ea. apply splice_out_NoDup. exact Hn.
  - intros x Hx. rewrite Ea in Hx. rewrite Eu.
    pose proof (Hd x (splice_out_incl _ _ _ Hx)) as Hnot.
    destruct d as [r|]; [|exact Hnot].
    unfold Set_add. intros Hin. apply set_add_elim in Hin.
    destruct Hin as [E|Hin]; [|exact (Hnot Hin)].
    subst x. rewrite Hw in Hx. revert Hx. apply splice_out_removes; assumption.
  - intros p Hin. rewrite Ep in Hin. apply in_app_or in Hin.
    destruct Hin as [Hin|[<-|[]]]; [apply Hp; exact Hin|]. exact Hd.
Qed.

Lemma gathered_kept (used0 : set string) (st st' : Selection) :
  gathered host used0 st -> loop_condition st = true -> turn_of host st st' ->
  gathered host used0 st'.
Proof.
  intros (Hn & Hu & Hd) _ [i w d Hi Hw Hg Ea _ Ep En Eu].
  unfold gathered, accepted. rewrite Ep, flat_map_app. cbn [flat_map details selectedWord].
  rewrite !map_app, fold_left_app. fold (accepted (picked st)).
  rewrite <- Hn, <- Hu, En, Eu. split; [|split].
  - destruct d; reflexivity.
  - destruct d; reflexivity.
  - intros p Hin. apply in_app_or in Hin.
    destruct Hin as [Hin|[<-|[]]]; [apply Hd; exact Hin|]. exact Hg.
Qed.

End Loop.

Lemma fold_Set_add_members (ws : list string) (s : set string) (w : string) :
  In w (fold_left (fun s x => Set_add string_dec x s) ws s) <-> In w s \/ In w ws.
Proof.
  revert s. induction ws as [|x ws IH]; intros s; simpl; [tauto|].
  rewrite IH. unfold Set_add. rewrite set_add_iff.
  split; intros H; repeat destruct H as [H|H]; subst; auto.
Qed.

(** [new Set(items)] has exactly the members of [items]. *)
Lemma new_Set_members (items : list string) (w : string) :
  In w (new_Set string_dec items) <-> In w items.
Proof.
  unfold new_Set. rewrite fold_Set_add_members. simpl. tauto.
Qed.

Lemma unused_members (used0 : list string) (allWords : list string) (w : string) :
  In w (unused (new_Set string_dec used0) allWords)
  <-> In w allWords /\ ~ In w used0.
Proof.
  unfold unused, Set_has. rewrite filter_In, negb_true_iff.
  pose proof (new_Set_members used0 w) as M.
  split; intros [H1 H2]; split; auto.
  - intros Hin. apply M in Hin.
    apply (set_mem_correct2 string_dec) in Hin. congruence.
  - apply (set_mem_complete2 string_dec). intros Hin. apply H2, M, Hin.
Qed.

(** ** A run of the Daily Selection Engine *)

Lemma load_stored {A} (f : file A) (defaultValue a : A) :
  loadJsonFile f defaultValue = Ok a -> a = stored f defaultValue.
Proof. destruct f; simpl; congruence. Qed.

Lemma own_property_set_same {A} (o : list (string * A)) (key : string) (v : A) :
  own_property (obj_set o key v) key = Some v.
Proof.
  induction o as [|[k old] o IH]; simpl.
  - rewrite String.eqb_refl. reflexivity.
  - destruct (String.eqb k key) eqn:E; simpl; rewrite E; [reflexivity | exact IH].
Qed.

Lemma own_property_set_other {A} (o : list (string * A)) (key k' : string) (v : A) :
  k' <> key -> own_property (obj_set o key v) k' = own_property o k'.
Proof.
  intros Hne. induction o as [|[k old] o IH]; simpl.
  - destruct (String.eqb_spec key k'); [congruence | reflexivity].
  - destruct (String.eqb_spec k key) as [->|Hk]; simpl.
    + destruct (String.eqb_spec key k'); [congruence | reflexivity].
    + destruct (String.eqb k k'); [reflexivity | exact IH].
Qed.

Lemma obj_get_absent {A} (o : list (string * A)) (key : string) :
  obj_get o key = Absent -> own_property o key = None.
Proof.
  unfold obj_get. destruct (own_property o key); [discriminate | reflexivity].
Qed.

Lemma obj_get_own {A} (o : list (string * A)) (key : string) (v : A) :
  own_property o key = Some v -> obj_get o key = Own v.
Proof. unfold obj_get. intros ->. reflexivity. Qed.

Lemma updateDailyWords_run (host : Host) (today : string) (disk : Disk) :
  run_of host today disk (updateDailyWords host today disk).
Proof.
  unfold updateDailyWords.
  destruct (loadJsonFile (history_json disk) []) as [history|e] eqn:Hh;
    [|apply run_throws].
  assert (Hr : history_json disk <> Unreadable)
    by (intros U; rewrite U in Hh; discriminate).
  apply load_stored in Hh. fold (history_of disk) in Hh. subst history.
  destruct (obj_get (history_of disk) today) eqn:Hg;
    try (apply run_already_exists; congruence).
  destruct (loadJsonFile (wordlist_json disk) []) as [allWords|e] eqn:Hw;
    [|apply run_throws].
  apply load_stored in Hw. fold (corpus disk) in Hw. subst allWords.
  destruct (loadJsonFile (used_words_json disk) []) as [used_words|e] eqn:Hu;
    [|apply run_throws].
  apply load_stored in Hu. fold (ledger disk) in Hu. subst used_words.
  cbv zeta.
  destruct (Nat.ltb_spec
              (List.length (unused (new_Set string_dec (ledger disk)) (corpus disk))) 3)
    as [Hlt|Hge]; [apply run_not_enough; exact Hlt|].
  destruct (while_loop host _ _) as [st|e] eqn:Hl; [|apply run_throws].
  destruct (Nat.eqb_spec (List.length (newWords st)) 3) as [E|N].
  - apply run_commit; [exact Hr | exact Hg | split; assumption | exact E].
  - apply run_shortfall; [split; assumption | exact N].
Qed.

(** The states a selecting run goes through. *)
Lemma selects_drawn_from (host : Host) (disk : Disk) (st : Selection) :
  selects host disk st ->
  drawn_from (unused (new_Set string_dec (ledger disk)) (corpus disk)) st.
Proof.
  intros [_ H]. revert H. apply while_loop_invariant.
  - apply drawn_from_kept.
  - split; [apply incl_refl | intros p []].
Qed.

Lemma selects_gathered (host : Host) (disk : Disk) (st : Selection) :
  selects host disk st ->
  gathered host (new_Set string_dec (ledger disk)) st.
Proof.
  intros [_ H]. revert H. apply while_loop_invariant.
  - apply gathered_kept.
  - repeat split. intros p [].
Qed.

Lemma unused_NoDup (used0 : set string) (allWords : list string) :
  NoDup allWords -> NoDup (unused used0 allWords).
Proof. apply NoDup_filter. Qed.

Lemma selects_apart (host : Host) (disk : Disk) (st : Selection) :
  NoDup (corpus disk) -> selects host disk st -> apart st.
Proof.
  intros Hn [_ H]. revert H. apply while_loop_invariant.
  - apply apart_kept.
  - split; [apply unused_NoDup; exact Hn | split].
    + intros w Hw. simpl in *. apply unused_members in Hw.
      rewrite new_Set_members. tauto.
    + intros p [].
Qed.

Lemma selects_first_pool (host : Host) (disk : Disk) (st : Selection) :
  selects host disk st ->
  first_pool (unused (new_Set string_dec (ledger disk)) (corpus disk)) st.
Proof.
  intros [_ H]. revert H. apply while_loop_invariant.
  - intros s s' [H0 Hp] _ [i w d _ _ _ _ Ed Ep _ _]. split.
    + rewrite Ed. discriminate.
    + intros p Hin. rewrite Ep in Hin. apply in_app_or in Hin.
      destruct Hin as [Hin|[<-|[]]]; [apply Hp; exact Hin | exact H0].
  - split; [reflexivity | intros p []].
Qed.

(** A commit in which both writes succeed. *)
Lemma commit_saved (host : Host) (today : string) (disk : Disk)
    (history : History) (st : Selection) :
  completion (commit host today disk history st) = Ok Saved ->
  disk_after (commit host today disk history st)
  = {| wordlist_json := disk.(wordlist_json);
       used_words_json := Content st.(usedWords);
       history_json := Content (obj_set history today st.(newWords)) |}
  /\ picks (commit host today disk history st) = st.(picked).
Proof.
  unfold commit.
  destruct (writeFile host HISTORY_PATH), (writeFile host USED_WORDS_PATH);
    simpl; intros H; try discriminate H; split; reflexivity.
Qed.

Lemma commit_completion (host : Host) (today : string) (disk : Disk)
    (history : History) (st : Selection) :
  completion (commit host today disk history st) = Ok Saved
  \/ exists e, completion (commit host today disk history st) = Throw e
               /\ write_calls (commit host today disk history st) <> [].
Proof.
  unfold commit.
  destruct (writeFile host HISTORY_PATH), (writeFile host USED_WORDS_PATH);
    simpl; auto; right; eexists; (split; [reflexivity | discriminate]).
Qed.

Lemma length_three {A} (l : list A) :
  List.length l = 3 -> exists a b c, l = [a; b; c].
Proof.
  destruct l as [|a [|b [|c [|]]]]; try discriminate. eauto.
Qed.

(** ** C3: a day that already has its key *)

Lemma existing_day_stops (host : Host) (today : string) (disk : Disk)
    (records : list WordRecord) :
  own_property (history_of disk) today = Some records ->
  updateDailyWords host today disk = stop disk (Ok AlreadyExists) [].
Proof.
  intros H. unfold updateDailyWords.
  destruct (history_json disk) as [| |history] eqn:F;
    unfold history_of in H; rewrite F in H; try discriminate H.
  cbn [stored] in H. cbn [loadJsonFile]. rewrite (obj_get_own _ _ _ H).
  reflexivity.
Qed.

(** C3.  When the History Store already holds the date's key, a run for
    that date changes neither the History Store nor the Usage Ledger: it
    calls [writeFile] on nothing, takes no turn and leaves the disk as it
    was. *)
Theorem updateDailyWords_existing_day (host : Host) (today : string)
    (disk : Disk) (records : list WordRecord) :
  own_property (history_of disk) today = Some records ->
  updateDailyWords host today disk = stop disk (Ok AlreadyExists) []
  /\ disk_after (updateDailyWords host today disk) = disk
  /\ write_calls (updateDailyWords host today disk) = [].
Proof.
  intros H. rewrite (existing_day_stops host today disk records H).
  repeat split.
Qed.

Lemma updateDailyWords_existing_day_witness :
  let disk := {| wordlist_json := Content ["alpha"; "beta"; "gamma"; "delta"];
                 used_words_json := Content ["alpha"];
                 history_json := Content [("2024-01-02", [])] |} in
  let host := Samples.host_with Samples.echo Samples.all_written in
  updateDailyWords host "2024-01-02" disk = stop disk (Ok AlreadyExists) []
  /\ disk_after (updateDailyWords host "2024-01-02" disk) = disk
  /\ write_calls (updateDailyWords host "2024-01-02" disk) = [].
Proof.
  cbv zeta.
  apply (updateDailyWords_existing_day
           (Samples.host_with Samples.echo Samples.all_written) "2024-01-02"
           {| wordlist_json := Content ["alpha"; "beta"; "gamma"; "delta"];
              used_words_json := Content ["alpha"];
              history_json := Content [("2024-01-02", [])] |} []).
  reflexivity.
Defined.

(** Running again after a run that saved: the second run is a no-op,
    whatever the host does the second time. *)
Lemma updateDailyWords_twice (host host' : Host) (today : string) (disk : Disk) :
  completion (updateDailyWords host today disk) = Ok Saved ->
  updateDailyWords host' today (disk_after (updateDailyWords host today disk))
  = stop (disk_after (updateDailyWords host today disk)) (Ok AlreadyExists) [].
Proof.
  intros H.
  destruct (updateDailyWords_run host today disk) as [e | | | st | st Hr Hg Hs Hl];
    try discriminate H.
  destruct (commit_saved _ _ _ _ _ H) as [Hd _].
  eapply existing_day_stops. rewrite Hd.
  unfold history_of. simpl. apply own_property_set_same.
Qed.

(** ** C1: runs that fail *)

(** A store that cannot be read rejects the run before anything is
    written. *)
Lemma unreadable_history_rejects (host : Host) (today : string) (disk : Disk) :
  history_json disk = Unreadable ->
  updateDailyWords host today disk = stop disk (Throw SystemError) [].
Proof. intros H. unfold updateDailyWords. rewrite H. reflexivity. Qed.

Lemma unreadable_store_rejects (host : Host) (today : string) (disk : Disk) :
  history_json disk <> Unreadable ->
  obj_get (history_of disk) today = Absent ->
  wordlist_json disk = Unreadable \/ used_words_json disk = Unreadable ->
  updateDailyWords host today disk = stop disk (Throw SystemError) [].
Proof.
  intros Hh Hg Hu. unfold updateDailyWords.
  destruct (loadJsonFile (history_json disk) []) as [history|e] eqn:L.
  - apply load_stored in L. fold (history_of disk) in L. subst history.
    rewrite Hg. destruct (wordlist_json disk); simpl; try reflexivity;
      destruct Hu as [Hu|Hu]; try discriminate Hu; rewrite Hu; reflexivity.
  - destruct (history_json disk); try discriminate L. contradiction.
Qed.

(** The two writes of the commit, by what [writeFile] does to each file. *)
Lemma commit_writes (host : Host) (today : string) (disk : Disk)
    (history : History) (st : Selection) :
  let run := commit host today disk history st in
  wordlist_json (disk_after run) = wordlist_json disk
  /\ picks run = st.(picked)
  /\ (writeFile host HISTORY_PATH <> Written ->
      (exists e, completion run = Throw e)
      /\ write_calls run = [HISTORY_PATH]
      /\ used_words_json (disk_after run) = used_words_json disk
      /\ history_json (disk_after run)
         = match writeFile host HISTORY_PATH with
           | Torn => Unreadable
           | _ => history_json disk
           end)
  /\ (writeFile host HISTORY_PATH = Written ->
      history_json (disk_after run)
      = Content (obj_set history today st.(newWords))
      /\ write_calls run = [HISTORY_PATH; USED_WORDS_PATH]
      /\ used_words_json (disk_after run)
         = match writeFile host USED_WORDS_PATH with
           | Written => Content st.(usedWords)
           | Refused => used_words_json disk
           | Torn => Unreadable
           end
      /\ (writeFile host USED_WORDS_PATH <> Written ->
          exists e, completion run = Throw e)).
Proof.
  unfold commit.
  destruct (writeFile host HISTORY_PATH), (writeFile host USED_WORDS_PATH);
    simpl; (split; [reflexivity|]); (split; [reflexivity|]);
    (split; intros H; [try congruence | try discriminate H]);
    repeat split; try (eexists; reflexivity);
    intros H'; try congruence; eexists; reflexivity.
Qed.

(** The records a run gathered are those of its accepted turns. *)
Lemma selects_records (host : Host) (disk : Disk) (st : Selection) :
  selects host disk st -> st.(newWords) = map snd (accepted st.(picked)).
Proof. intros H. apply (selects_gathered host disk st H). Qed.

(** C1 (as amended).  A run that fails for an insufficient pool, for fewer
    than 3 enriched words, or with an error raised before 3 words were
    enriched leaves both stores as they were and writes nothing; a store
    that cannot be read makes the run fail that way.  A run that enriched 3
    words commits with two writes in a row, the History Store first, and
    nothing is rolled back.  When the first write fails, the run fails, the
    Usage Ledger is not written at all, and the History Store file is what
    the failed write left of it.  When the first write succeeds, the History
    Store holds the earlier days and today's 3 records; when the second
    write then fails, the run fails and the Usage Ledger file is what the
    failed write left of it. *)
Theorem updateDailyWords_failure (host : Host) (today : string) (disk : Disk) :
  let run := updateDailyWords host today disk in
  ((completion run = Ok NotEnoughWords
    \/ completion run = Ok FetchShortfall
    \/ exists e, completion run = Throw e
                 /\ List.length (accepted (picks run)) <> 3) ->
   disk_after run = disk /\ write_calls run = [])
  /\ ((history_json disk = Unreadable
       \/ (obj_get (history_of disk) today = Absent
           /\ (wordlist_json disk = Unreadable
               \/ used_words_json disk = Unreadable))) ->
      (exists e, completion run = Throw e) /\ picks run = [])
  /\ (List.length (accepted (picks run)) = 3 ->
      own_property (history_of disk) today = None
      /\ wordlist_json (disk_after run) = wordlist_json disk
      /\ (writeFile host HISTORY_PATH <> Written ->
          (exists e, completion run = Throw e)
          /\ write_calls run = [HISTORY_PATH]
          /\ used_words_json (disk_after run) = used_words_json disk
          /\ history_json (disk_after run)
             = match writeFile host HISTORY_PATH with
               | Torn => Unreadable
               | _ => history_json disk
               end)
      /\ (writeFile host HISTORY_PATH = Written ->
          history_json (disk_after run)
          = Content (obj_set (history_of disk) today
                             (map snd (accepted (picks run))))
          /\ (writeFile host USED_WORDS_PATH <> Written ->
              (exists e, completion run = Throw e)
              /\ write_calls run = [HISTORY_PATH; USED_WORDS_PATH]
              /\ used_words_json (disk_after run)
                 = match writeFile host USED_WORDS_PATH with
                   | Torn => Unreadable
                   | _ => used_words_json disk
                   end))).
Proof.
  cbv zeta. split; [|split].
  - destruct (updateDailyWords_run host today disk) as [e | | | st | st Hr Hg Hs Hl];
      try (intros _; split; reflexivity).
    destruct (commit_writes host today disk (history_of disk) st)
      as (_ & Hp & _ & _).
    assert (H3 : List.length (accepted (picks (commit host today disk (history_of disk) st))) = 3).
    { rewrite Hp, <- (length_map snd), <- (selects_records host disk st Hs). exact Hl. }
    intros [H|[H|(e & H & Hn)]]; [exfalso..|contradiction].
    + revert H. unfold commit.
      destruct (writeFile host HISTORY_PATH), (writeFile host USED_WORDS_PATH);
        simpl; discriminate.
    + revert H. unfold commit.
      destruct (writeFile host HISTORY_PATH), (writeFile host USED_WORDS_PATH);
        simpl; discriminate.
  - intros H.
    assert (E : updateDailyWords host today disk = stop disk (Throw SystemError) []).
    { destruct (history_json disk) as [| |history] eqn:F.
      - destruct H as [H|[Hg Hu]]; [discriminate H|].
        apply unreadable_store_rejects; [rewrite F; discriminate | exact Hg | exact Hu].
      - apply unreadable_history_rejects. exact F.
      - destruct H as [H|[Hg Hu]]; [discriminate H|].
        apply unreadable_store_rejects; [rewrite F; discriminate | exact Hg | exact Hu]. }
    rewrite E. split; [eexists; reflexivity | reflexivity].
  - destruct (updateDailyWords_run host today disk) as [e | Hx | Hx | st Hs Hl | st Hr Hg Hs Hl];
      try (intros H; discriminate H).
    + intros H. exfalso. apply Hl.
      rewrite (selects_records host disk st Hs), length_map. exact H.
    + intros _.
      destruct (commit_writes host today disk (history_of disk) st)
        as (Hw & Hp & H1 & H2).
      split; [apply obj_get_absent; exact Hg|].
      split; [exact Hw|]. split; [exact H1|].
      intros Hh. destruct (H2 Hh) as (Hhist & Hcalls & Hused & Hfail).
      split.
      * rewrite Hhist, Hp, (selects_records host disk st Hs). reflexivity.
      * intros Hu. split; [exact (Hfail Hu)|]. split; [exact Hcalls|].
        rewrite Hused. destruct (writeFile host USED_WORDS_PATH);
          [contradiction | reflexivity | reflexivity].
Qed.

Lemma updateDailyWords_failure_witness :
  let today := "2024-01-02" in
  let refused := updateDailyWords (Samples.host_with Samples.echo history_refused)
                                  today Samples.four_words in
  let half := updateDailyWords (Samples.host_with Samples.echo Samples.ledger_refused)
                               today Samples.four_words in
  let torn := updateDailyWords (Samples.host_with Samples.echo ledger_torn)
                               today Samples.four_words in
  let short := updateDailyWords (Samples.host_with (fun _ _ => Response false None)
                                                   Samples.all_written)
                                today Samples.four_words in
  let broken := updateDailyWords (Samples.host_with Samples.echo Samples.all_written)
                                 today broken_ledger in
  (disk_after short = Samples.four_words /\ write_calls short = [])
  /\ ((exists e, completion broken = Throw e) /\ picks broken = [])
  /\ ((exists e, completion refused = Throw e)
      /\ write_calls refused = [HISTORY_PATH]
      /\ used_words_json (disk_after refused) = Content ["alpha"]
      /\ history_json (disk_after refused) = Missing)
  /\ (history_json (disk_after half)
      = Content [("2024-01-02", map snd (accepted (picks half)))]
      /\ (exists e, completion half = Throw e)
      /\ write_calls half = [HISTORY_PATH; USED_WORDS_PATH]
      /\ used_words_json (disk_after half) = Content ["alpha"])
  /\ (history_json (disk_after torn)
      = Content [("2024-01-02", map snd (accepted (picks torn)))]
      /\ (exists e, completion torn = Throw e)
      /\ write_calls torn = [HISTORY_PATH; USED_WORDS_PATH]
      /\ used_words_json (disk_after torn) = Unreadable).
Proof.
  cbv zeta.
  split; [|split; [|split; [|split]]].
  - apply (proj1 (updateDailyWords_failure
                    (Samples.host_with (fun _ _ => Response false None)
                                       Samples.all_written)
                    "2024-01-02" Samples.four_words)).
    right. left. reflexivity.
  - apply (proj1 (proj2 (updateDailyWords_failure
                    (Samples.host_with Samples.echo Samples.all_written)
                    "2024-01-02" broken_ledger))).
    right. split; [reflexivity | right; reflexivity].
  - destruct (proj2 (proj2 (updateDailyWords_failure
                    (Samples.host_with Samples.echo history_refused)
                    "2024-01-02" Samples.four_words)) eq_refl)
      as (_ & _ & H & _).
    apply H. simpl. discriminate.
  - destruct (proj2 (proj2 (updateDailyWords_failure
                    (Samples.host_with Samples.echo Samples.ledger_refused)
                    "2024-01-02" Samples.four_words)) eq_refl)
      as (_ & _ & _ & H).
    destruct (H eq_refl) as [Hh Hu].
    split; [exact Hh|]. apply Hu. simpl. discriminate.
  - destruct (proj2 (proj2 (updateDailyWords_failure
                    (Samples.host_with Samples.echo ledger_torn)
                    "2024-01-02" Samples.four_words)) eq_refl)
      as (_ & _ & _ & H).
    destruct (H eq_refl) as [Hh Hu].
    split; [exact Hh|]. apply Hu. simpl. discriminate.
Defined.

(** C1 as stated fails when the second write of the commit fails: the run
    ends in an error, the Usage Ledger is as before, and the History Store
    has changed. *)
Lemma updateDailyWords_half_commit :
  let host := Samples.host_with Samples.echo Samples.ledger_refused in
  let run := updateDailyWords host "2024-01-02" Samples.four_words in
  completion run = Throw SystemError
  /\ used_words_json (disk_after run) = used_words_json Samples.four_words
  /\ history_json Samples.four_words = Missing
  /\ (exists records,
        history_json (disk_after run) = Content [("2024-01-02", records)])
  /\ disk_after run <> Samples.four_words.
Proof.
  cbv zeta. repeat split.
  - eexists. vm_compute. reflexivity.
  - vm_compute. discriminate.
Qed.

(** ** C4: used words are not drawn again *)

(** C4.  In every run, at every turn of the selection loop: the selected
    word comes from the pool; no word of the pool, and so not the selected
    word, is in the Usage Ledger as it was at the start of the run; at the
    first turn the pool is exactly the corpus minus the ledger; and, the
    corpus being free of duplicates, the pool is also disjoint from the set
    of used words as it has grown during the run. *)
Theorem updateDailyWords_never_reuses (host : Host) (today : string)
    (disk : Disk) (p : Pick) :
  In p (picks (updateDailyWords host today disk)) ->
  In p.(selectedWord) p.(pool)
  /\ ~ In p.(selectedWord) (ledger disk)
  /\ (forall w, In w p.(pool) -> In w (corpus disk) /\ ~ In w (ledger disk))
  /\ (p.(draw) = 0 ->
      forall w, In w p.(pool) <-> In w (corpus disk) /\ ~ In w (ledger disk))
  /\ (NoDup (corpus disk) -> forall w, In w p.(pool) -> ~ In w p.(used)).
Proof.
  intros Hin.
  assert (Hsel : exists st, selects host disk st /\ In p st.(picked)).
  { destruct (updateDailyWords_run host today disk)
      as [e | | | st Hs | st Hr Hg Hs Hl]; try contradiction.
    - exists st. split; assumption.
    - exists st. split; [exact Hs|].
      revert Hin. unfold commit.
      destruct (writeFile host HISTORY_PATH), (writeFile host USED_WORDS_PATH);
        simpl; auto. }
  destruct Hsel as (st & Hs & Hp).
  destruct (selects_drawn_from _ _ _ Hs) as [_ Hd].
  destruct (Hd p Hp) as [Hpool Hw].
  assert (Hall : forall w, In w (pool p) -> In w (corpus disk) /\ ~ In w (ledger disk)).
  { intros w Hi. apply unused_members. apply Hpool. exact Hi. }
  split; [exact Hw|]. split; [apply Hall; exact Hw|]. split; [exact Hall|]. split.
  - intros H0 w. destruct (selects_first_pool _ _ _ Hs) as [_ Hf].
    rewrite (Hf p Hp H0). apply unused_members.
  - intros Hn. destruct (selects_apart _ _ _ Hn Hs) as (_ & _ & Ha).
    apply Ha. exact Hp.
Qed.

Lemma updateDailyWords_never_reuses_witness :
  let host := Samples.host_with Samples.echo Samples.all_written in
  let p := {| draw := 0; pool := ["beta"; "gamma"; "delta"]; used := ["alpha"];
              selectedWord := "beta";
              details := Some (Api.normal_record (Samples.bare_entry "beta")) |} in
  In p.(selectedWord) p.(pool)
  /\ ~ In p.(selectedWord) (ledger Samples.four_words)
  /\ (forall w, In w p.(pool) ->
        In w (corpus Samples.four_words) /\ ~ In w (ledger Samples.four_words))
  /\ (p.(draw) = 0 ->
      forall w, In w p.(pool) <->
        In w (corpus Samples.four_words) /\ ~ In w (ledger Samples.four_words))
  /\ (NoDup (corpus Samples.four_words) ->
      forall w, In w p.(pool) -> ~ In w p.(used)).
Proof.
  cbv zeta.
  apply (updateDailyWords_never_reuses
           (Samples.host_with Samples.echo Samples.all_written)
           "2024-01-02" Samples.four_words).
  vm_compute. left. reflexivity.
Defined.

(** ** C2 and C10: what a saved day consists of *)

Lemma accepted_picks (turns : list Pick) (w : string) (r : WordRecord) :
  In (w, r) (accepted turns) <->
  exists p, In p turns /\ p.(selectedWord) = w /\ p.(details) = Some r.
Proof.
  unfold accepted. rewrite in_flat_map. split.
  - intros (p & Hp & Hin). exists p. destruct (details p) as [d|]; [|contradiction].
    destruct Hin as [E|[]]. inversion E; subst. auto.
  - intros (p & Hp & <- & Hd). exists p. split; [exact Hp|].
    rewrite Hd. left. reflexivity.
Qed.

(** What a saving run leaves. *)
Lemma updateDailyWords_saved (host : Host) (today : string) (disk : Disk) :
  completion (updateDailyWords host today disk) = Ok Saved ->
  exists st,
    selects host disk st
    /\ List.length st.(newWords) = 3
    /\ own_property (history_of disk) today = None
    /\ picks (updateDailyWords host today disk) = st.(picked)
    /\ disk_after (updateDailyWords host today disk)
       = {| wordlist_json := disk.(wordlist_json);
            used_words_json := Content st.(usedWords);
            history_json := Content (obj_set (history_of disk) today st.(newWords)) |}.
Proof.
  intros H.
  destruct (updateDailyWords_run host today disk) as [e | | | st | st Hr Hg Hs Hl];
    try discriminate H.
  destruct (commit_saved _ _ _ _ _ H) as [Hd Hp].
  exists st. repeat split; try assumption; try apply Hs.
  apply obj_get_absent. exact Hg.
Qed.

(** The History Store after any run holds what it held before, and at most
    today's new key with 3 records. *)
Lemma history_after_run (host : Host) (today : string) (disk : Disk)
    (key : string) (records : list WordRecord) :
  own_property (history_of (disk_after (updateDailyWords host today disk))) key
  = Some records ->
  own_property (history_of disk) key = Some records
  \/ (key = today /\ List.length records = 3).
Proof.
  destruct (updateDailyWords_run host today disk) as [e | | | st | st Hr Hg Hs Hl];
    auto.
  unfold commit.
  destruct (writeFile host HISTORY_PATH), (writeFile host USED_WORDS_PATH);
    unfold history_of at 1; simpl; auto; try discriminate.
  all: destruct (string_dec key today) as [->|Hne];
    [ rewrite own_property_set_same; intros E; inversion E; subst; auto
    | rewrite own_property_set_other by exact Hne; auto ].
Qed.

(** C2 (as amended).  For every run from a pre-run state in which every
    date key maps to exactly 3 WordRecords, every date key present in the
    History Store after the run maps to exactly 3 WordRecords.  And when the
    run saves the day (both writes succeed), today's key maps to the 3
    records of the 3 accepted turns, in order, the 3 words selected at those
    turns are in the Usage Ledger after the run, every other key is as it
    was, and the ledger has lost no word. *)
Theorem updateDailyWords_three_records (host : Host) (today : string) (disk : Disk) :
  let run := updateDailyWords host today disk in
  ((forall key records,
      own_property (history_of disk) key = Some records ->
      List.length records = 3) ->
   forall key records,
     own_property (history_of (disk_after run)) key = Some records ->
     List.length records = 3)
  /\ (completion run = Ok Saved ->
      exists w1 r1 w2 r2 w3 r3,
        accepted (picks run) = [(w1, r1); (w2, r2); (w3, r3)]
        /\ own_property (history_of (disk_after run)) today = Some [r1; r2; r3]
        /\ In w1 (ledger (disk_after run))
        /\ In w2 (ledger (disk_after run))
        /\ In w3 (ledger (disk_after run))
        /\ (forall key, key <> today ->
              own_property (history_of (disk_after run)) key
              = own_property (history_of disk) key)
        /\ (forall w, In w (ledger disk) -> In w (ledger (disk_after run)))).
Proof.
  cbv zeta. split.
  - intros Hpre key records H.
    destruct (history_after_run _ _ _ _ _ H) as [H0|[_ H3]];
      [eapply Hpre; exact H0 | exact H3].
  - intros H. destruct (updateDailyWords_saved _ _ _ H) as (st & Hs & Hl & _ & Hp & Hd).
    destruct (selects_gathered _ _ _ Hs) as (Hn & Hu & _).
    rewrite Hp, Hd. unfold history_of at 1 2, ledger at 1 2 3 4.
    cbn [stored history_json used_words_json].
    rewrite Hn, length_map in Hl.
    destruct (length_three _ Hl) as ([w1 r1] & [w2 r2] & [w3 r3] & Ha).
    exists w1, r1, w2, r2, w3, r3.
    assert (Hin : forall w, In w (usedWords st)
                            <-> In w (ledger disk) \/ In w [w1; w2; w3]).
    { intros w. rewrite Hu, Ha, fold_Set_add_members, new_Set_members.
      reflexivity. }
    split; [exact Ha|]. split.
    { rewrite Hn, Ha. apply own_property_set_same. }
    repeat split; try (apply Hin; right; simpl; tauto).
    + intros key Hne. apply own_property_set_other. exact Hne.
    + intros w Hw. apply Hin. left. exact Hw.
Qed.

Lemma updateDailyWords_three_records_witness :
  let host := Samples.host_with Samples.echo Samples.all_written in
  let run := updateDailyWords host "2024-01-02" Samples.four_words in
  exists w1 r1 w2 r2 w3 r3,
    accepted (picks run) = [(w1, r1); (w2, r2); (w3, r3)]
    /\ own_property (history_of (disk_after run)) "2024-01-02" = Some [r1; r2; r3]
    /\ In w1 (ledger (disk_after run))
    /\ In w2 (ledger (disk_after run))
    /\ In w3 (ledger (disk_after run))
    /\ (forall key, key <> "2024-01-02" ->
          own_property (history_of (disk_after run)) key
          = own_property (history_of Samples.four_words) key)
    /\ (forall w, In w (ledger Samples.four_words) -> In w (ledger (disk_after run))).
Proof.
  cbv zeta.
  apply (proj2 (updateDailyWords_three_records
                  (Samples.host_with Samples.echo Samples.all_written)
                  "2024-01-02" Samples.four_words)).
  reflexivity.
Defined.

(** C2 as stated fails in two ways.  When the ledger write of the commit is
    refused, today's key is in the History Store with its 3 records while
    none of the 3 words is in the Usage Ledger; and a key that maps to
    fewer than 3 records before a run still does after it. *)
Lemma updateDailyWords_key_without_ledger :
  (let host := Samples.host_with Samples.echo Samples.ledger_refused in
   let run := updateDailyWords host "2024-01-02" Samples.four_words in
   exists records,
     own_property (history_of (disk_after run)) "2024-01-02" = Some records
     /\ map word records = [VStr "beta"; VStr "gamma"; VStr "delta"]
     /\ map fst (accepted (picks run)) = ["beta"; "gamma"; "delta"]
     /\ ledger (disk_after run) = ["alpha"])
  /\ (let host := Samples.host_with Samples.echo Samples.all_written in
      let disk := {| wordlist_json := Missing; used_words_json := Missing;
                     history_json := Content [("2024-01-01", [])] |} in
      own_property (history_of (disk_after (updateDailyWords host "2024-01-02" disk)))
                   "2024-01-01" = Some []).
Proof.
  cbv zeta. split; [|reflexivity].
  eexists. split; [vm_compute; reflexivity|]. repeat split.
Qed.

Lemma entry_details_word (host : Host) (entry : value) (r : WordRecord) :
  entry_details host entry = Ok r -> member entry f_word = Ok r.(word).
Proof.
  unfold entry_details. intros H.
  destruct (member entry f_word) as [w|]; [|discriminate H]. cbn [bind] in H.
  repeat match type of H with
         | bind ?x _ = Ok _ => destruct x; cbn [bind] in H; [|discriminate H]
         end.
  inversion H. reflexivity.
Qed.

Lemma getWordDetails_some (host : Host) (k : nat) (w : string) (r : WordRecord) :
  getWordDetails host k w = Ok (Some r) ->
  exists data entry,
    host.(fetch) k w = Response true (Some data)
    /\ first_element data = Ok entry
    /\ member entry f_word = Ok r.(word).
Proof.
  unfold getWordDetails, getWordDetails_try.
  destruct (fetch host k w) as [|[|] [data|]]; try discriminate.
  destruct (first_element data) as [entry|] eqn:F; [|discriminate]. cbn [bind].
  destruct (entry_details host entry) as [r'|] eqn:E; [|discriminate].
  cbn [bind]. intros H. inversion H; subst.
  exists data, entry. split; [reflexivity|]. split; [exact F|].
  apply entry_details_word with host. exact E.
Qed.

(** C10.  In a run that saves the day, for every accepted turn: the record's
    [word] is the [word] of the first entry of the service's response, not
    the selected word; the record is stored under today's key; the selected
    word is what the Usage Ledger receives.  So when the service echoes a
    string other than the selected word, the word in the day's record
    differs from the word in the ledger. *)
Theorem record_word_is_the_echoed_word (host : Host) (today : string)
    (disk : Disk) (w : string) (r : WordRecord) :
  let run := updateDailyWords host today disk in
  completion run = Ok Saved ->
  In (w, r) (accepted (picks run)) ->
  (exists k data entry,
      host.(fetch) k w = Response true (Some data)
      /\ first_element data = Ok entry
      /\ member entry f_word = Ok r.(word)
      /\ forall s, member entry f_word = Ok (VStr s) -> s <> w ->
           r.(word) = VStr s /\ r.(word) <> VStr w)
  /\ (exists records,
        own_property (history_of (disk_after run)) today = Some records
        /\ In r records)
  /\ In w (ledger (disk_after run)).
Proof.
  cbv zeta. intros H Hin.
  destruct (updateDailyWords_saved _ _ _ H) as (st & Hs & Hl & _ & Hp & Hd).
  destruct (selects_gathered _ _ _ Hs) as (Hn & Hu & Hg).
  rewrite Hp in Hin. rewrite Hd.
  unfold history_of, ledger. cbn [stored history_json used_words_json].
  pose proof Hin as Hacc.
  apply accepted_picks in Hin. destruct Hin as (p & Hpin & <- & Hdet).
  specialize (Hg p Hpin). rewrite Hdet in Hg.
  destruct (getWordDetails_some _ _ _ _ Hg) as (data & entry & Hf & He & Hw).
  split; [|split].
  - exists (draw p), data, entry.
    split; [exact Hf|]. split; [exact He|]. split; [exact Hw|].
    intros s Hs' Hne. rewrite Hw in Hs'.
    assert (Es : word r = VStr s) by congruence.
    split; [exact Es|]. rewrite Es. congruence.
  - exists (newWords st). split; [apply own_property_set_same|].
    rewrite Hn. apply in_map_iff. exists (selectedWord p, r).
    split; [reflexivity | exact Hacc].
  - rewrite Hu. apply fold_Set_add_members. right.
    apply in_map_iff. exists (selectedWord p, r).
    split; [reflexivity | exact Hacc].
Qed.

Lemma record_word_is_the_echoed_word_witness :
  let host := Samples.host_with Samples.retitled Samples.all_written in
  let run := updateDailyWords host "2024-01-02" Samples.four_words in
  let r := Api.normal_record (Samples.bare_entry "The beta") in
  (exists k data entry,
      host.(fetch) k "beta" = Response true (Some data)
      /\ first_element data = Ok entry
      /\ member entry f_word = Ok r.(word)
      /\ forall s, member entry f_word = Ok (VStr s) -> s <> "beta" ->
           r.(word) = VStr s /\ r.(word) <> VStr "beta")
  /\ (exists records,
        own_property (history_of (disk_after run)) "2024-01-02" = Some records
        /\ In r records)
  /\ In "beta" (ledger (disk_after run)).
Proof.
  cbv zeta.
  apply (record_word_is_the_echoed_word
           (Samples.host_with Samples.retitled Samples.all_written)
           "2024-01-02" Samples.four_words "beta"
           (Api.normal_record (Samples.bare_entry "The beta"))).
  - reflexivity.
  - vm_compute. left. reflexivity.
Defined.

(** ** C8: the words of a date *)

Lemma date_key_not_inherited (date : string) :
  is_date_key date = true -> ~ In date Object_prototype_keys.
Proof.
  intros H Hin. unfold Object_prototype_keys in Hin. simpl in Hin.
  repeat (destruct Hin as [<-|Hin]; [vm_compute in H; discriminate H|]).
  exact Hin.
Qed.

(** For any key that [Object.prototype] does not define, the lookup sees
    own properties only. *)
Lemma obj_get_plain {A} (o : list (string * A)) (key : string) :
  ~ In key Object_prototype_keys ->
  obj_get o key = match own_property o key with
                  | Some v => Own v
                  | None => Absent
                  end.
Proof.
  intros H. unfold obj_get. destruct (own_property o key); [reflexivity|].
  destruct (in_dec string_dec key Object_prototype_keys); [contradiction | reflexivity].
Qed.

(** In an object, where a key occurs once, the key reads as the value
    listed with it; a key that is not listed has no own property. *)
Lemma own_property_listed {A} (o : list (string * A)) (key : string) (v : A) :
  NoDup (map fst o) -> In (key, v) o -> own_property o key = Some v.
Proof.
  induction o as [|[k old] o IH]; intros Hn Hin; [contradiction|].
  simpl in *. inversion Hn as [|? ? Hfresh Hrest]; subst.
  destruct Hin as [E|Hin].
  - inversion E; subst. rewrite String.eqb_refl. reflexivity.
  - destruct (String.eqb_spec k key) as [->|_].
    + exfalso. apply Hfresh. apply (in_map fst) in Hin. exact Hin.
    + apply IH; assumption.
Qed.

Lemma own_property_unlisted {A} (o : list (string * A)) (key : string) :
  ~ In key (map fst o) -> own_property o key = None.
Proof.
  induction o as [|[k old] o IH]; intros Hn; [reflexivity|].
  simpl in *. destruct (String.eqb_spec k key) as [->|_].
  - exfalso. apply Hn. left. reflexivity.
  - apply IH. intros Hin. apply Hn. right. exact Hin.
Qed.

(** C8.  For every date string (YYYY-MM-DD) and every History Store, be it
    the content of history.json or the empty store of a missing file:
    when the key is present the reply is exactly the records stored under
    it; when it is absent the reply is the 404 "not found", which is not a
    200 reply of any body, empty or otherwise. *)
Theorem get_api_words_by_date (disk : Disk) (history : History) (date : string) :
  is_date_key date = true ->
  history_json disk = Content history
  \/ (history_json disk = Missing /\ history = []) ->
  NoDup (map fst history) ->
  (forall records,
      In (date, records) history ->
      get_api_words disk date = Status200 records)
  /\ (~ In date (map fst history) ->
      get_api_words disk date = Status404
      /\ forall body, get_api_words disk date <> Status200 body).
Proof.
  intros Hd Hfile Hkeys.
  assert (Hl : get_api_words disk date
               = match own_property history date with
                 | Some records => Status200 records
                 | None => Status404
                 end).
  { unfold get_api_words.
    destruct Hfile as [F|[F ->]]; rewrite F; cbn [loadJsonFile];
      rewrite (obj_get_plain _ date (date_key_not_inherited date Hd));
      destruct (own_property _ date); reflexivity. }
  rewrite Hl. split.
  - intros records Hin.
    rewrite (own_property_listed history date records Hkeys Hin). reflexivity.
  - intros Hout. rewrite (own_property_unlisted history date Hout).
    split; [reflexivity | discriminate].
Qed.

Lemma get_api_words_by_date_witness :
  get_api_words two_days "2024-01-02"
  = Status200 (map record_of ["delta"; "epsilon"; "zeta"])
  /\ get_api_words two_days "2099-01-01" = Status404
  /\ get_api_words {| wordlist_json := Missing; used_words_json := Missing;
                      history_json := Missing |} "2024-01-02" = Status404.
Proof.
  assert (Hkeys : NoDup (map (@fst string (list WordRecord))
                     [ ("2024-01-01", map record_of ["alpha"; "beta"; "gamma"]);
                       ("2024-01-02", map record_of ["delta"; "epsilon"; "zeta"]) ])).
  { simpl. constructor; [|constructor; [|constructor]]; simpl.
    - intros [H|[]]. discriminate H.
    - intros []. }
  split; [|split].
  - apply (proj1 (get_api_words_by_date two_days _ "2024-01-02"
                    eq_refl (or_introl eq_refl) Hkeys)).
    right. left. reflexivity.
  - apply (proj2 (get_api_words_by_date two_days _ "2099-01-01"
                    eq_refl (or_introl eq_refl) Hkeys)).
    simpl. intros [H|[H|[]]]; discriminate H.
  - apply (proj2 (get_api_words_by_date
                    {| wordlist_json := Missing; used_words_json := Missing;
                       history_json := Missing |} [] "2024-01-02"
                    eq_refl (or_intror (conj eq_refl eq_refl)) (NoDup_nil _))).
    simpl. intros [].
Defined.

(** Outside date strings the lookup also reaches [Object.prototype]: for
    the name of one of its members the handler takes the 200 branch. *)
Example get_api_words_inherited_name :
  get_api_words {| wordlist_json := Missing; used_words_json := Missing;
                   history_json := Content [("2024-01-02", [])] |}
                "constructor"
  = Status200_inherited.
Proof. reflexivity. Qed.

(** ** C9: the list of dates *)

Lemma ascii_compare_trans (x y z : ascii) (c : comparison) :
  Ascii.compare x y = c -> Ascii.compare y z = c -> Ascii.compare x z = c.
Proof.
  unfold Ascii.compare. destruct c; intros H1 H2.
  - apply N.compare_eq_iff in H1. apply N.compare_eq_iff in H2.
    apply N.compare_eq_iff. congruence.
  - apply N.compare_lt_iff in H1. apply N.compare_lt_iff in H2.
    apply N.compare_lt_iff. eapply N.lt_trans; eassumption.
  - apply N.compare_gt_iff in H1. apply N.compare_gt_iff in H2.
    apply N.compare_gt_iff. eapply N.lt_trans; eassumption.
Qed.

Lemma string_leb_trans (a b c : string) :
  String.leb a b = true -> String.leb b c = true -> String.leb a c = true.
Proof.
  unfold String.leb. revert b c.
  induction a as [|x a IH]; intros [|y b] [|z c]; simpl; try congruence.
  destruct (Ascii.compare x y) eqn:Exy; try discriminate;
    destruct (Ascii.compare y z) eqn:Eyz; try discriminate; intros H1 H2.
  - rewrite (ascii_compare_trans x y z Eq Exy Eyz). eapply IH; eassumption.
  - apply Ascii.compare_eq_iff in Exy. subst. rewrite Eyz. reflexivity.
  - apply Ascii.compare_eq_iff in Eyz. subst. rewrite Exy. reflexivity.
  - rewrite (ascii_compare_trans x y z Lt Exy Eyz). reflexivity.
Qed.

Section Sorting.
Variable cmp : string -> string -> Z.
Variable dated : string -> Prop.
Hypothesis cmp_descending :
  forall a b, dated a -> dated b -> Z.compare (cmp a b) 0 = String.compare b a.

Lemma insert_by_permutation (x : string) (l : list string) :
  Permutation (insert_by cmp x l) (x :: l).
Proof.
  induction l as [|y l IH]; simpl; [reflexivity|].
  destruct (Z.leb (cmp y x) 0); [|reflexivity].
  rewrite IH. apply perm_swap.
Qed.

Lemma Array_sort_permutation (l : list string) :
  Permutation (Array_sort cmp l) l.
Proof.
  unfold Array_sort.
  assert (G : forall acc, Permutation (fold_left (fun s x => insert_by cmp x s) l acc)
                                      (acc ++ l)).
  { induction l as [|x l IH]; intros acc; simpl.
    - rewrite app_nil_r. reflexivity.
    - rewrite IH, insert_by_permutation. apply Permutation_middle. }
  apply G.
Qed.

Lemma insert_by_sorted (x : string) (l : list string) :
  dated x -> Forall dated l ->
  StronglySorted not_before l -> StronglySorted not_before (insert_by cmp x l).
Proof.
  intros Hx Hl Hs. induction Hs as [|y l Hs IH Hy]; simpl.
  - constructor; constructor.
  - inversion Hl as [|? ? Dy Dl]; subst.
    pose proof (cmp_descending y x Dy Hx) as C.
    destruct (Z.leb_spec (cmp y x) 0) as [Le|Gt].
    + assert (Hyx : not_before y x).
      { unfold not_before, String.leb. rewrite <- C.
        destruct (Z.compare_spec (cmp y x) 0); try reflexivity; lia. }
      constructor; [apply IH; exact Dl|].
      rewrite (insert_by_permutation x l). constructor; assumption.
    + assert (Hxy : not_before x y).
      { unfold not_before, String.leb. rewrite String.compare_antisym, <- C.
        destruct (Z.compare_spec (cmp y x) 0); try reflexivity; lia. }
      constructor; [constructor; assumption|].
      constructor; [exact Hxy|].
      eapply Forall_impl; [|exact Hy].
      intros z Hz. unfold not_before in *. eapply string_leb_trans; eassumption.
Qed.

Lemma Array_sort_sorted (l : list string) :
  Forall dated l -> StronglySorted not_before (Array_sort cmp l).
Proof.
  unfold Array_sort.
  assert (G : forall acc, Forall dated acc -> Forall dated l ->
              StronglySorted not_before acc ->
              StronglySorted not_before
                (fold_left (fun s x => insert_by cmp x s) l acc)).
  { induction l as [|x l IH]; intros acc Da Dl Hs; simpl; [exact Hs|].
    inversion Dl as [|? ? Dx Dl']; subst. apply IH; [|exact Dl'|].
    - rewrite (insert_by_permutation x acc). constructor; assumption.
    - apply insert_by_sorted; assumption. }
  intros Dl. apply G; [constructor | exact Dl | constructor].
Qed.

End Sorting.

(** *** Date keys sort as dates *)

Lemma compare_by_number (a b : string) :
  Forall2 same_order (list_ascii_of_string a) (list_ascii_of_string b) ->
  String.compare a b = Nat.compare (date_number a) (date_number b)
  /\ date_number a < 10 ^ String.length a
  /\ date_number b < 10 ^ String.length b
  /\ String.length a = String.length b.
Proof.
  unfold date_number. revert b.
  induction a as [|x a IH]; intros [|y b] H; simpl in H; inversion H; subst.
  - simpl. repeat split; lia.
  - match goal with
    | Hxy : same_order x y, Hab : Forall2 same_order _ _ |- _ =>
        destruct Hxy as (C & Bx & By);
        destruct (IH b Hab) as (E & Na & Nb & L)
    end.
    assert (La : List.length (list_ascii_of_string a) = String.length a).
    { clear. induction a; simpl; congruence. }
    assert (Lb : List.length (list_ascii_of_string b) = String.length b).
    { clear. induction b; simpl; congruence. }
    cbn [String.compare list_ascii_of_string number String.length].
    rewrite C, E. cbn [Nat.pow].
    rewrite La, Lb, L in *.
    set (na := number (list_ascii_of_string a)) in *.
    set (nb := number (list_ascii_of_string b)) in *.
    set (p := 10 ^ String.length b) in *.
    split; [|split; [|split]].
    + destruct (Nat.compare_spec (digit_value x) (digit_value y)) as [Ev|Lv|Gv].
      * rewrite Ev.
        destruct (Nat.compare_spec na nb);
          symmetry; [apply Nat.compare_eq_iff | apply Nat.compare_lt_iff
                    | apply Nat.compare_gt_iff]; lia.
      * symmetry. apply Nat.compare_lt_iff. nia.
      * symmetry. apply Nat.compare_gt_iff. nia.
    + nia.
    + nia.
    + reflexivity.
Qed.

Lemma digits_same_order (x y : ascii) :
  is_digit x = true -> is_digit y = true -> same_order x y.
Proof.
  unfold is_digit, same_order, digit_value, Ascii.compare, nat_of_ascii.
  rewrite !andb_true_iff, !Nat.leb_le. intros [Lx Ux] [Ly Uy].
  split; [|lia].
  destruct (N.compare_spec (N_of_ascii x) (N_of_ascii y));
    symmetry; [apply Nat.compare_eq_iff | apply Nat.compare_lt_iff
              | apply Nat.compare_gt_iff]; lia.
Qed.

Lemma date_keys_same_order (a b : string) :
  is_date_key a = true -> is_date_key b = true ->
  Forall2 same_order (list_ascii_of_string a) (list_ascii_of_string b).
Proof.
  unfold is_date_key.
  destruct (list_ascii_of_string a)
    as [|a1 [|a2 [|a3 [|a4 [|a5 [|a6 [|a7 [|a8 [|a9 [|a10 [|? ?]]]]]]]]]]];
    try discriminate.
  destruct (list_ascii_of_string b)
    as [|b1 [|b2 [|b3 [|b4 [|b5 [|b6 [|b7 [|b8 [|b9 [|b10 [|? ?]]]]]]]]]]];
    try discriminate.
  cbn [forallb]. rewrite !andb_true_iff. unfold is_hyphen.
  intros [[(A1 & A2 & A3 & A4 & A6 & A7 & A9 & A10 & _) A5] A8]
         [[(B1 & B2 & B3 & B4 & B6 & B7 & B9 & B10 & _) B5] B8].
  apply Ascii.eqb_eq in A5, A8, B5, B8. subst.
  repeat (constructor;
          [first [apply digits_same_order; assumption
                 | split; [reflexivity | split; unfold digit_value; simpl; lia]] |]).
  constructor.
Qed.

(** On date keys, descending code-unit order is most recent date first. *)
Lemma date_keys_in_date_order (a b : string) :
  is_date_key a = true -> is_date_key b = true ->
  (not_before a b <-> date_number b <= date_number a).
Proof.
  intros Ha Hb.
  destruct (compare_by_number b a (date_keys_same_order b a Hb Ha)) as (E & _).
  unfold not_before, String.leb. rewrite E.
  destruct (Nat.compare_spec (date_number b) (date_number a));
    split; intros; try discriminate; try reflexivity; lia.
Qed.

Lemma sorted_by_date (dates : list string) :
  Forall (fun key => is_date_key key = true) dates ->
  StronglySorted not_before dates ->
  StronglySorted (fun a b => date_number b <= date_number a) dates.
Proof.
  intros Hk Hs. induction Hs as [|a l Hs IH Ha]; constructor.
  - apply IH. inversion Hk; assumption.
  - inversion Hk as [|? ? Ka Kl]; subst.
    rewrite Forall_forall in *. intros b Hb.
    apply date_keys_in_date_order; auto.
Qed.

(** C9.  For every History Store whose keys are date strings, the reply
    lists exactly the store's keys, each once, in descending order, most
    recent date first; for the empty store it is the empty sequence. *)
Theorem get_api_history_sorted (host : Host) (disk : Disk) (history : History) :
  locale_agrees host ->
  loadJsonFile disk.(history_json) [] = Ok history ->
  Forall (fun key => is_date_key key = true) (Object_keys history) ->
  exists dates,
    get_api_history host disk = Status200 dates
    /\ Permutation dates (Object_keys history)
    /\ StronglySorted not_before dates
    /\ StronglySorted (fun a b => date_number b <= date_number a) dates
    /\ (history = [] -> dates = []).
Proof.
  intros Hloc Hl Hk. unfold get_api_history. rewrite Hl.
  assert (Hs : StronglySorted not_before
                 (Array_sort (fun a b => localeCompare host b a)
                             (Object_keys history))).
  { apply Array_sort_sorted with (dated := fun key => is_date_key key = true);
      [|exact Hk].
    intros a b Ha Hb. apply Hloc; assumption. }
  eexists. split; [reflexivity|]. split; [apply Array_sort_permutation|].
  split; [exact Hs|]. split.
  - apply sorted_by_date; [|exact Hs].
    eapply Permutation_Forall; [|exact Hk].
    symmetry. apply Array_sort_permutation.
  - intros ->. reflexivity.
Qed.

Lemma by_code_unit_agrees (answer : nat -> string -> fetch_outcome)
    (write : store -> write_outcome) :
  locale_agrees (Samples.host_with answer write).
Proof.
  intros a b _ _. simpl. unfold Samples.by_code_unit.
  destruct (String.compare a b); reflexivity.
Qed.

Lemma get_api_history_sorted_witness :
  let host := Samples.host_with Samples.echo Samples.all_written in
  let history := [("2024-01-01", @nil WordRecord); ("2024-01-02", [])] in
  let disk := {| wordlist_json := Missing; used_words_json := Missing;
                 history_json := Content history |} in
  exists dates,
    get_api_history host disk = Status200 dates
    /\ Permutation dates ["2024-01-01"; "2024-01-02"]
    /\ StronglySorted not_before dates
    /\ StronglySorted (fun a b => date_number b <= date_number a) dates
    /\ (history = [] -> dates = []).
Proof.
  cbv zeta.
  apply (get_api_history_sorted
           (Samples.host_with Samples.echo Samples.all_written)
           {| wordlist_json := Missing; used_words_json := Missing;
              history_json := Content [("2024-01-01", []); ("2024-01-02", [])] |}
           [("2024-01-01", []); ("2024-01-02", [])]).
  - apply by_code_unit_agrees.
  - reflexivity.
  - repeat constructor.
Defined.

(** The scenario of the specification. *)
Example get_api_history_scenario :
  get_api_history (Samples.host_with Samples.echo Samples.all_written)
    {| wordlist_json := Missing; used_words_json := Missing;
       history_json := Content [("2024-01-02", []); ("2024-01-01", [])] |}
  = Status200 ["2024-01-02"; "2024-01-01"].
Proof. reflexivity. Qed.

(** ** C5: the corpus builder *)

Section SetOrder.
Context {A : Type} (eq_dec : forall x y : A, {x = y} + {x <> y}).

Lemma Set_add_app (x : A) (s : set A) :
  Set_add eq_dec x s = if in_dec eq_dec x s then s else s ++ [x].
Proof.
  unfold Set_add. induction s as [|y s IH]; simpl; [reflexivity|].
  destruct (eq_dec x y) as [E|Hne].
  - subst y. destruct (eq_dec x x); [reflexivity | contradiction].
  - destruct (eq_dec y x) as [E|Hyx]; [symmetry in E; contradiction|].
    rewrite IH. destruct (in_dec eq_dec x s); reflexivity.
Qed.

Lemma fold_add_members (l : list A) (s : set A) (w : A) :
  In w (fold_left (fun s x => Set_add eq_dec x s) l s) <-> In w s \/ In w l.
Proof.
  revert s. induction l as [|x l IH]; intros s; simpl; [tauto|].
  rewrite IH. unfold Set_add. rewrite set_add_iff.
  split; intros H; repeat destruct H as [H|H]; subst; auto.
Qed.

Lemma fold_add_NoDup (l : list A) (s : set A) :
  NoDup s -> NoDup (fold_left (fun s x => Set_add eq_dec x s) l s).
Proof.
  revert s. induction l as [|x l IH]; intros s H; simpl; [exact H|].
  apply IH. apply set_add_nodup. exact H.
Qed.

Lemma indexOf_app_in (l1 l2 : list A) (w : A) :
  In w l1 -> indexOf eq_dec (l1 ++ l2) w = indexOf eq_dec l1 w.
Proof.
  induction l1 as [|x l1 IH]; simpl; [contradiction|].
  intros H. destruct (eq_dec x w) as [|Hne]; [reflexivity|].
  destruct H as [H|H]; [contradiction|]. rewrite IH by exact H. reflexivity.
Qed.

Lemma indexOf_app_out (l1 l2 : list A) (w : A) :
  ~ In w l1 -> indexOf eq_dec (l1 ++ l2) w = List.length l1 + indexOf eq_dec l2 w.
Proof.
  induction l1 as [|x l1 IH]; simpl; [reflexivity|].
  intros H. destruct (eq_dec x w) as [E|_]; [exfalso; apply H; left; exact E|].
  rewrite IH by (intros Hin; apply H; right; exact Hin). reflexivity.
Qed.

Lemma indexOf_bound (l : list A) (w : A) :
  In w l -> indexOf eq_dec l w < List.length l.
Proof.
  induction l as [|x l IH]; simpl; [contradiction|].
  intros H. destruct (eq_dec x w) as [|Hne]; [lia|].
  destruct H as [H|H]; [contradiction|]. apply IH in H. lia.
Qed.

(** Adding the items of [l] to [s] keeps [s] in front, and puts the new
    words behind it in the order they are first seen in [l]. *)
Lemma fold_add_order (l : list A) (s : set A) (u v : A) :
  let added := fold_left (fun s x => Set_add eq_dec x s) l s in
  In u added -> In v added ->
  (indexOf eq_dec added u < indexOf eq_dec added v
   <-> indexOf eq_dec (s ++ l) u < indexOf eq_dec (s ++ l) v).
Proof.
  cbv zeta.
  revert s. induction l as [|x l IH]; intros s Hu Hv; simpl in *.
  - rewrite app_nil_r. reflexivity.
  - rewrite (IH _ Hu Hv). rewrite Set_add_app.
    destruct (in_dec eq_dec x s) as [Hx|Hx].
    + assert (G : forall w,
                (In w s /\ indexOf eq_dec (s ++ x :: l) w = indexOf eq_dec (s ++ l) w
                        /\ indexOf eq_dec (s ++ l) w < List.length s)
                \/ (indexOf eq_dec (s ++ x :: l) w = S (indexOf eq_dec (s ++ l) w)
                    /\ List.length s <= indexOf eq_dec (s ++ l) w)).
      { intros w. destruct (in_dec eq_dec w s) as [Hw|Hw].
        - left. rewrite !indexOf_app_in by exact Hw.
          split; [exact Hw|]. split; [reflexivity|].
          apply indexOf_bound. exact Hw.
        - right. rewrite !indexOf_app_out by exact Hw. simpl.
          destruct (eq_dec x w) as [E|_]; [subst; contradiction | lia]. }
      destruct (G u) as [(_ & -> & Bu)|[-> Bu]],
               (G v) as [(_ & -> & Bv)|[-> Bv]]; lia.
    + rewrite <- app_assoc. reflexivity.
Qed.

End SetOrder.

Lemma filter_order {A} (eq_dec : forall x y : A, {x = y} + {x <> y})
    (f : A -> bool) (l : list A) (u v : A) :
  f u = true -> f v = true -> In u l -> In v l ->
  (indexOf eq_dec (filter f l) u < indexOf eq_dec (filter f l) v
   <-> indexOf eq_dec l u < indexOf eq_dec l v).
Proof.
  intros Fu Fv. induction l as [|x l IH]; [contradiction|].
  intros Hu Hv. simpl. destruct (f x) eqn:Fx; simpl.
  - destruct (eq_dec x u) as [Eu|Nu], (eq_dec x v) as [Ev|Nv]; try lia.
    destruct Hu as [Hu|Hu]; [contradiction|].
    destruct Hv as [Hv|Hv]; [contradiction|].
    specialize (IH Hu Hv). lia.
  - destruct (eq_dec x u) as [Eu|Nu]; [congruence|].
    destruct (eq_dec x v) as [Ev|Nv]; [congruence|].
    destruct Hu as [Hu|Hu]; [contradiction|].
    destruct Hv as [Hv|Hv]; [contradiction|].
    specialize (IH Hu Hv). lia.
Qed.

Import PrepareDictionary.

Lemma keep_spec (w : jsstring) :
  keep w = true <-> w <> [] /\ 2 < List.length w /\ letters_only w.
Proof.
  unfold keep, alphabetic, letters_only.
  rewrite !andb_true_iff, negb_true_iff, Nat.eqb_neq, Nat.ltb_lt,
    forallb_forall, Forall_forall.
  assert (E : List.length w <> 0 <-> w <> []).
  { destruct w; simpl; split; intros H; congruence. }
  rewrite E. tauto.
Qed.

(** The first piece of a split is the text before the first separator. *)
Lemma split_first (sep : code_unit) (s : jsstring) :
  exists rest,
    s = hd [] (split sep s) ++ rest
    /\ ~ In sep (hd [] (split sep s))
    /\ (rest = [] \/ exists r, rest = sep :: r).
Proof.
  induction s as [|c s (rest & E & Hn & Hr)]; simpl.
  - exists []. split; [reflexivity|]. split; [intros []|left; reflexivity].
  - destruct (N.eqb_spec c sep) as [->|Hc]; simpl.
    + exists (sep :: s). split; [reflexivity|]. split; [intros []|right; eauto].
    + destruct (split sep s) as [|piece pieces]; simpl in *.
      * exists rest. split; [rewrite E at 1; reflexivity|].
        split; [|exact Hr]. intros [H|[]]. congruence.
      * exists rest. split; [rewrite E at 1; reflexivity|].
        split; [|exact Hr]. intros [H|H]; [congruence | contradiction].
Qed.

Lemma split_not_empty (sep : code_unit) (s : jsstring) : split sep s <> [].
Proof.
  induction s as [|c s IH]; simpl; [discriminate|].
  destruct (N.eqb c sep); [discriminate|].
  destruct (split sep s); [contradiction | discriminate].
Qed.

Lemma join_pieces_cons (sep c : code_unit) (piece : jsstring)
    (pieces : list jsstring) :
  join_pieces sep ((c :: piece) :: pieces) = c :: join_pieces sep (piece :: pieces).
Proof. destruct pieces; reflexivity. Qed.

Lemma trimStart_spec (s : jsstring) :
  exists pre,
    s = pre ++ trimStart s
    /\ all_white pre
    /\ forall c rest, trimStart s = c :: rest -> is_white_space c = false.
Proof.
  induction s as [|c s (pre & E & W & H)]; simpl.
  - exists []. split; [reflexivity|]. split; [constructor | discriminate].
  - destruct (is_white_space c) eqn:Wc.
    + exists (c :: pre). split; [simpl; rewrite <- E; reflexivity|].
      split; [constructor; assumption | exact H].
    + exists []. split; [reflexivity|]. split; [constructor|].
      intros c' rest Heq. inversion Heq; subst. exact Wc.
Qed.

Lemma trimStart_fixed (s : jsstring) :
  (forall c rest, s = c :: rest -> is_white_space c = false) -> trimStart s = s.
Proof.
  destruct s as [|c s]; [reflexivity|]. intros H. simpl.
  rewrite (H c s eq_refl). reflexivity.
Qed.

Lemma trimStart_app (s t : jsstring) :
  trimStart s <> [] -> trimStart (s ++ t) = trimStart s ++ t.
Proof.
  induction s as [|c s IH]; simpl; [contradiction|].
  destruct (is_white_space c); [exact IH | reflexivity].
Qed.

Lemma trimStart_white (s t : jsstring) :
  trimStart s = [] -> trimStart (s ++ t) = trimStart t.
Proof.
  induction s as [|c s IH]; simpl; [reflexivity|].
  destruct (is_white_space c); [exact IH | discriminate].
Qed.

(** *** The code's predicates against the listed code units *)

Lemma is_white_space_spec (c : code_unit) :
  is_white_space c = true <-> white_unit c.
Proof.
  unfold is_white_space, white_unit.
  rewrite orb_true_iff, existsb_exists, andb_true_iff, !N.leb_le.
  split; intros [H|H]; [left | right; exact H | left | right; exact H].
  - destruct H as (x & Hin & E). apply N.eqb_eq in E. subst x. exact Hin.
  - exists c. split; [exact H | apply N.eqb_refl].
Qed.

Lemma not_white_space_spec (c : code_unit) :
  is_white_space c = false <-> ~ white_unit c.
Proof.
  rewrite <- is_white_space_spec. destruct (is_white_space c); split;
    intros H; try reflexivity; try discriminate H; try (intros H'; discriminate H').
  exfalso. apply H. reflexivity.
Qed.

Lemma is_letter_spec (c : code_unit) : is_letter c = true <-> letter_unit c.
Proof.
  unfold is_letter, letter_unit.
  rewrite orb_true_iff, !andb_true_iff, !N.leb_le. reflexivity.
Qed.

Lemma all_white_spec (s : jsstring) : all_white s <-> Forall white_unit s.
Proof.
  unfold all_white. rewrite !Forall_forall.
  split; intros H c Hin; apply is_white_space_spec; apply H; exact Hin.
Qed.

Lemma keep_letters (w : jsstring) :
  keep w = true <-> w <> [] /\ 2 < List.length w /\ Forall letter_unit w.
Proof.
  rewrite keep_spec. unfold letters_only. rewrite !Forall_forall.
  split.
  - intros (Hne & Hlen & _ & Hl). split; [exact Hne|]. split; [exact Hlen|].
    intros c Hin. apply is_letter_spec. apply Hl. exact Hin.
  - intros (Hne & Hlen & Hl). split; [exact Hne|]. split; [exact Hlen|].
    split; [exact Hne|]. intros c Hin. apply is_letter_spec. apply Hl. exact Hin.
Qed.

(** *** [split] finds the pieces, and only them *)

Lemma split_whole (sep : code_unit) (piece : jsstring) :
  ~ In sep piece -> split sep piece = [piece].
Proof.
  induction piece as [|c piece IH]; intros Hn; simpl; [reflexivity|].
  destruct (N.eqb_spec c sep) as [E|_]; [exfalso; apply Hn; left; exact E|].
  rewrite IH by (intros Hin; apply Hn; right; exact Hin). reflexivity.
Qed.

Lemma split_at_separator (sep : code_unit) (piece s : jsstring) :
  ~ In sep piece -> split sep (piece ++ sep :: s) = piece :: split sep s.
Proof.
  induction piece as [|c piece IH]; intros Hn; simpl.
  - rewrite N.eqb_refl. reflexivity.
  - destruct (N.eqb_spec c sep) as [E|_]; [exfalso; apply Hn; left; exact E|].
    rewrite IH by (intros Hin; apply Hn; right; exact Hin). reflexivity.
Qed.

Lemma split_of_join (sep : code_unit) (pieces : list jsstring) :
  pieces <> [] ->
  Forall (fun piece => ~ In sep piece) pieces ->
  split sep (join_pieces sep pieces) = pieces.
Proof.
  induction pieces as [|piece rest IH]; intros Hne Hf; [contradiction|].
  inversion Hf as [|? ? Hp Hrest]; subst.
  destruct rest as [|next rest].
  - simpl. apply split_whole. exact Hp.
  - change (join_pieces sep (piece :: next :: rest))
      with (piece ++ sep :: join_pieces sep (next :: rest)).
    rewrite split_at_separator by exact Hp.
    rewrite IH; [reflexivity | discriminate | exact Hrest].
Qed.

Lemma join_of_split (sep : code_unit) (s : jsstring) :
  join_pieces sep (split sep s) = s
  /\ Forall (fun piece => ~ In sep piece) (split sep s).
Proof.
  induction s as [|c s (J & F)]; simpl.
  - split; [reflexivity|]. constructor; [intros [] | constructor].
  - pose proof (split_not_empty sep s) as NE. revert J F NE.
    destruct (split sep s) as [|piece pieces]; intros J F NE; [contradiction|].
    destruct (N.eqb_spec c sep) as [->|Hc].
    + split.
      * change (join_pieces sep ([] :: piece :: pieces))
          with (sep :: join_pieces sep (piece :: pieces)).
        rewrite J. reflexivity.
      * constructor; [intros [] | exact F].
    + split; [rewrite join_pieces_cons, J; reflexivity|].
      inversion F as [|? ? Hp Hps]; subst.
      constructor; [|exact Hps]. intros [H|H]; [congruence | contradiction].
Qed.

(** The lines of a file are what [split] on the line feed returns. *)
Lemma lines_of_lines (fileContent : jsstring) :
  lines_of fileContent (lines fileContent).
Proof.
  unfold lines_of, lines. destruct (join_of_split newline fileContent) as [J F].
  split; [apply split_not_empty|]. split; [exact F | symmetry; exact J].
Qed.

Lemma lines_of_unique (fileContent : jsstring) (ls : list jsstring) :
  lines_of fileContent ls -> lines fileContent = ls.
Proof.
  intros (Hne & Hf & ->). unfold lines. apply split_of_join; assumption.
Qed.

(** *** [trim] finds the text between the white space, and only it *)

Lemma trimStart_all_white (pre s : jsstring) :
  all_white pre -> trimStart (pre ++ s) = trimStart s.
Proof.
  intros H. induction H as [|c pre Hc _ IH]; simpl; [reflexivity|].
  rewrite Hc. exact IH.
Qed.

Lemma trim_between (pre token post : jsstring) :
  all_white pre -> all_white post ->
  (forall c r, token = c :: r -> is_white_space c = false) ->
  (forall i c, token = i ++ [c] -> is_white_space c = false) ->
  trim (pre ++ token ++ post) = token.
Proof.
  intros Hpre Hpost Hfirst Hlast. unfold trim.
  rewrite trimStart_all_white by exact Hpre.
  destruct token as [|c r].
  - simpl. rewrite <- (app_nil_r post), trimStart_all_white by exact Hpost.
    reflexivity.
  - assert (E : trimStart ((c :: r) ++ post) = (c :: r) ++ post).
    { simpl. rewrite (Hfirst c r eq_refl). reflexivity. }
    rewrite E, rev_app_distr.
    rewrite trimStart_all_white by (apply Forall_rev; exact Hpost).
    rewrite trimStart_fixed; [apply rev_involutive|].
    intros c' rest Hr. apply (Hlast (rev rest) c').
    rewrite <- (rev_involutive (c :: r)), Hr. reflexivity.
Qed.

Lemma trim_parts (s : jsstring) :
  exists pre post,
    s = pre ++ trim s ++ post /\ all_white pre /\ all_white post
    /\ (forall c r, trim s = c :: r -> is_white_space c = false)
    /\ (forall i c, trim s = i ++ [c] -> is_white_space c = false).
Proof.
  unfold trim.
  destruct (trimStart_spec s) as (pre & Es & Wpre & Hhead).
  destruct (trimStart_spec (rev (trimStart s))) as (post & Er & Wpost & Hlast).
  assert (Et : trimStart s
               = rev (trimStart (rev (trimStart s))) ++ rev post).
  { rewrite <- rev_app_distr, <- Er. symmetry. apply rev_involutive. }
  exists pre, (rev post).
  split; [rewrite <- Et; exact Es|].
  split; [exact Wpre|]. split; [apply Forall_rev; exact Wpost|].
  split.
  - intros c r Hc. apply (Hhead c (r ++ rev post)). rewrite Et, Hc. reflexivity.
  - intros i c Hc. apply (Hlast c (rev i)).
    rewrite <- (rev_involutive (trimStart (rev (trimStart s)))), Hc, rev_app_distr.
    reflexivity.
Qed.

(** The token of a line is what [line.split(',')[0].trim()] returns. *)
Lemma token_of_first_column (line : jsstring) : token_of line (first_column line).
Proof.
  unfold token_of, first_column.
  destruct (split_first comma line) as (rest & E & Hn & Hr).
  destruct (trim_parts (hd [] (split comma line)))
    as (pre & post & Ef & Wpre & Wpost & Hfirst & Hlast).
  exists (hd [] (split comma line)), rest, pre, post.
  split; [exact E|]. split; [exact Hn|]. split; [exact Hr|].
  split; [exact Ef|].
  split; [apply all_white_spec; exact Wpre|].
  split; [apply all_white_spec; exact Wpost|].
  split.
  - intros c r Hc. apply not_white_space_spec. exact (Hfirst c r Hc).
  - intros i c Hc. apply not_white_space_spec. exact (Hlast i c Hc).
Qed.

Lemma token_of_unique (line token : jsstring) :
  token_of line token -> first_column line = token.
Proof.
  intros (field & rest & pre & post & El & Hn & Hr & Ef & Wpre & Wpost & Hfirst & Hlast).
  unfold first_column.
  assert (Eh : hd [] (split comma line) = field).
  { rewrite El. destruct Hr as [->|(r & ->)].
    - rewrite app_nil_r, split_whole by exact Hn. reflexivity.
    - rewrite split_at_separator by exact Hn. reflexivity. }
  rewrite Eh, Ef. apply trim_between.
  - apply all_white_spec. exact Wpre.
  - apply all_white_spec. exact Wpost.
  - intros c r Hc. apply not_white_space_spec. exact (Hfirst c r Hc).
  - intros i c Hc. apply not_white_space_spec. exact (Hlast i c Hc).
Qed.

Lemma tokens_of_lines (ls tokens : list jsstring) :
  Forall2 token_of ls tokens -> tokens = map first_column ls.
Proof.
  intros H. induction H as [|line token ls tokens Ht _ IH]; [reflexivity|].
  simpl. rewrite (token_of_unique line token Ht), IH. reflexivity.
Qed.

Lemma lines_have_tokens (ls : list jsstring) :
  Forall2 token_of ls (map first_column ls).
Proof.
  induction ls as [|line ls IH]; constructor;
    [apply token_of_first_column | exact IH].
Qed.

(** The output against the first columns of the lines the code computes. *)
Lemma uniqueWords_of_columns (fileContent : jsstring) :
  let tokens := map first_column (lines fileContent) in
  let output := uniqueWords fileContent in
  (forall w, In w output <-> In w tokens /\ keep w = true)
  /\ NoDup output
  /\ (forall u v, In u output -> In v output ->
        (indexOf jsstring_dec output u < indexOf jsstring_dec output v
         <-> indexOf jsstring_dec tokens u < indexOf jsstring_dec tokens v)).
Proof.
  cbv zeta. unfold uniqueWords, words, new_Set.
  assert (M : forall w,
             In w (fold_left (fun s x => Set_add jsstring_dec x s)
                     (filter keep (map first_column (lines fileContent)))
                     (empty_set jsstring))
             <-> In w (map first_column (lines fileContent)) /\ keep w = true).
  { intros w. rewrite fold_add_members, filter_In. simpl. tauto. }
  split; [exact M | split].
  - apply fold_add_NoDup. constructor.
  - intros u v Hu Hv. rewrite (fold_add_order jsstring_dec _ _ u v Hu Hv).
    apply M in Hu, Hv. destruct Hu as [Hu Ku], Hv as [Hv Kv].
    simpl. apply filter_order; assumption.
Qed.

(** C5.  Every file has its lines, the pieces between its line feeds, and
    every line its token, the text before the line's first comma without
    the white space around it.  For every line, the token is in the output
    if and only if it is non-empty, longer than 2 and made of the letters A
    to Z and a to z only; the output holds nothing but tokens of lines, holds
    each word once, and lists the words in the order in which they are first
    seen in the source. *)
Theorem uniqueWords_spec (fileContent : jsstring) :
  (exists ls tokens, lines_of fileContent ls /\ Forall2 token_of ls tokens)
  /\ forall ls tokens,
       lines_of fileContent ls ->
       Forall2 token_of ls tokens ->
       let output := uniqueWords fileContent in
       (forall line token, In line ls -> token_of line token ->
          (In token output
           <-> token <> [] /\ 2 < List.length token /\ Forall letter_unit token))
       /\ (forall w, In w output ->
             exists line, In line ls /\ token_of line w)
       /\ NoDup output
       /\ (forall u v, In u output -> In v output ->
             (indexOf jsstring_dec output u < indexOf jsstring_dec output v
              <-> indexOf jsstring_dec tokens u < indexOf jsstring_dec tokens v)).
Proof.
  split.
  - exists (lines fileContent), (map first_column (lines fileContent)).
    split; [apply lines_of_lines | apply lines_have_tokens].
  - intros ls tokens Hl Ht. cbv zeta.
    apply lines_of_unique in Hl. apply tokens_of_lines in Ht.
    destruct (uniqueWords_of_columns fileContent) as (M & Hn & Ho).
    rewrite Hl in M, Ho. rewrite <- Ht in Ho.
    split; [|split; [|split; [exact Hn | exact Ho]]].
    + intros line token Hin Htok. apply token_of_unique in Htok.
      rewrite M, keep_letters.
      assert (In token (map first_column ls))
        by (rewrite <- Htok; apply in_map; exact Hin).
      tauto.
    + intros w Hw. apply M in Hw. destruct Hw as [Hw _].
      apply in_map_iff in Hw. destruct Hw as (line & E & Hin).
      exists line. split; [exact Hin|]. rewrite <- E.
      apply token_of_first_column.
Qed.

Lemma uniqueWords_spec_witness :
  lines_of sample_file sample_lines
  /\ Forall2 token_of sample_lines sample_tokens
  /\ In [104; 101; 108; 108; 111]%N (uniqueWords sample_file)
  /\ In [100; 101; 102; 103]%N (uniqueWords sample_file)
  /\ ~ In [97; 98]%N (uniqueWords sample_file)
  /\ ~ In [97; 49; 99]%N (uniqueWords sample_file)
  /\ NoDup (uniqueWords sample_file)
  /\ indexOf jsstring_dec (uniqueWords sample_file) [104; 101; 108; 108; 111]%N
     < indexOf jsstring_dec (uniqueWords sample_file) [100; 101; 102; 103]%N.
Proof.
  assert (Hl : lines_of sample_file sample_lines).
  { split; [discriminate|]. split; [|reflexivity].
    unfold sample_lines. repeat (constructor; [no_comma|]). constructor. }
  assert (T1 : token_of [97; 98; 99; 44; 120]%N [97; 98; 99]%N)
    by (token_here [97; 98; 99]%N [44; 120]%N (@nil code_unit) (@nil code_unit)).
  assert (T2 : token_of [32; 104; 101; 108; 108; 111; 32]%N
                        [104; 101; 108; 108; 111]%N)
    by (token_here [32; 104; 101; 108; 108; 111; 32]%N (@nil code_unit)
                   [32%N] [32%N]).
  assert (T3 : token_of [97; 98]%N [97; 98]%N)
    by (token_here [97; 98]%N (@nil code_unit) (@nil code_unit) (@nil code_unit)).
  assert (T4 : token_of [100; 101; 102; 103; 13]%N [100; 101; 102; 103]%N)
    by (token_here [100; 101; 102; 103; 13]%N (@nil code_unit)
                   (@nil code_unit) [13%N]).
  assert (T5 : token_of [97; 49; 99; 44; 32; 55]%N [97; 49; 99]%N)
    by (token_here [97; 49; 99]%N [44; 32; 55]%N (@nil code_unit) (@nil code_unit)).
  assert (T6 : token_of [97; 98; 99]%N [97; 98; 99]%N)
    by (token_here [97; 98; 99]%N (@nil code_unit)
                   (@nil code_unit) (@nil code_unit)).
  assert (Ht : Forall2 token_of sample_lines sample_tokens).
  { unfold sample_lines, sample_tokens.
    repeat (constructor; [assumption|]). constructor. }
  destruct (proj2 (uniqueWords_spec sample_file) sample_lines sample_tokens Hl Ht)
    as (Hiff & _ & Hnodup & Hord).
  assert (Hhello : In [104; 101; 108; 108; 111]%N (uniqueWords sample_file)).
  { apply (Hiff [32; 104; 101; 108; 108; 111; 32]%N [104; 101; 108; 108; 111]%N);
      [simpl; tauto | exact T2 |].
    split; [discriminate|]. split; [simpl; lia|].
    repeat (constructor; [unfold letter_unit; lia|]). constructor. }
  assert (Hdefg : In [100; 101; 102; 103]%N (uniqueWords sample_file)).
  { apply (Hiff [100; 101; 102; 103; 13]%N [100; 101; 102; 103]%N);
      [simpl; tauto | exact T4 |].
    split; [discriminate|]. split; [simpl; lia|].
    repeat (constructor; [unfold letter_unit; lia|]). constructor. }
  split; [exact Hl|]. split; [exact Ht|]. split; [exact Hhello|].
  split; [exact Hdefg|].
  split; [|split; [|split; [exact Hnodup|]]].
  - intros Hin.
    apply (Hiff [97; 98]%N [97; 98]%N) in Hin; [|simpl; tauto | exact T3].
    destruct Hin as (_ & Hlen & _). simpl in Hlen. lia.
  - intros Hin.
    apply (Hiff [97; 49; 99; 44; 32; 55]%N [97; 49; 99]%N) in Hin;
      [|simpl; tauto | exact T5].
    destruct Hin as (_ & _ & Hf).
    inversion Hf as [|? ? _ Hf']; subst.
    inversion Hf' as [|? ? Hdigit _]; subst.
    unfold letter_unit in Hdigit. lia.
  - apply (Hord [104; 101; 108; 108; 111]%N [100; 101; 102; 103]%N Hhello Hdefg).
    vm_compute. lia.
Defined.

(** The sample file: abc, hello, defg. *)
Example uniqueWords_sample_file :
  uniqueWords sample_file
  = [[97; 98; 99]; [104; 101; 108; 108; 111]; [100; 101; 102; 103]]%N.
Proof. reflexivity. Qed.

(** "abc,x" / " abc " / "ab" / "defg\r" / "a1c" / "defg": the output is
    abc, defg. *)
Example uniqueWords_sample :
  PrepareDictionary.uniqueWords
    [97; 98; 99; 44; 120; 10; 32; 97; 98; 99; 32; 10; 97; 98; 10;
     100; 101; 102; 103; 13; 10; 97; 49; 99; 10; 100; 101; 102; 103]%N
  = [[97; 98; 99]; [100; 101; 102; 103]]%N.
Proof. reflexivity. Qed.

(* ===================================================================== *)
(** * Part III. Further properties of the code *)
(* ===================================================================== *)

(** ** prepare-dictionary.js: [split] and [trim] *)

(** X1.  Splitting on a separator loses nothing: joining the pieces with
    the separator gives the string back, no piece holds the separator, and
    there is one piece more than there are separators. *)
Theorem split_join (sep : code_unit) (s : jsstring) :
  join_pieces sep (split sep s) = s
  /\ Forall (fun piece => ~ In sep piece) (split sep s)
  /\ List.length (split sep s) = S (count_occ N.eq_dec s sep).
Proof.
  induction s as [|c s (J & F & L)]; simpl.
  - repeat split. constructor; [intros [] | constructor].
  - pose proof (split_not_empty sep s) as NE. revert J F L NE.
    destruct (split sep s) as [|piece pieces]; intros J F L NE;
      [contradiction|].
    destruct (N.eqb_spec c sep) as [->|Hc].
    + destruct (N.eq_dec sep sep) as [_|N]; [|contradiction].
      split.
      { change (join_pieces sep ([] :: piece :: pieces))
          with (sep :: join_pieces sep (piece :: pieces)).
        rewrite J. reflexivity. }
      split; [constructor; [intros [] | exact F] | simpl; rewrite <- L; reflexivity].
    + destruct (N.eq_dec c sep) as [E'|_]; [contradiction|].
      split; [rewrite join_pieces_cons, J; reflexivity|].
      inversion F as [|? ? Hp Hps]; subst. split; [|exact L].
      constructor; [|exact Hps]. intros [H|H]; [congruence | contradiction].
Qed.

(** X2.  [trim] removes white space at both ends and nothing else: the
    string is white space, then the trimmed string, then white space; the
    trimmed string neither starts nor ends with white space; trimming again
    changes nothing. *)
Theorem trim_spec (s : jsstring) :
  (exists pre post, s = pre ++ trim s ++ post /\ all_white pre /\ all_white post)
  /\ (forall c rest, trim s = c :: rest -> is_white_space c = false)
  /\ (forall init c, trim s = init ++ [c] -> is_white_space c = false)
  /\ trim (trim s) = trim s.
Proof.
  unfold trim.
  destruct (trimStart_spec s) as (pre & Es & Wpre & Hhead).
  destruct (trimStart_spec (rev (trimStart s))) as (post & Er & Wpost & Hlast).
  set (t := trimStart s) in *. set (u := trimStart (rev t)) in *.
  assert (Et : t = rev u ++ rev post).
  { rewrite <- rev_app_distr, <- Er. symmetry. apply rev_involutive. }
  assert (Hfirst : forall c rest, rev u = c :: rest -> is_white_space c = false).
  { intros c rest Hc. apply (Hhead c (rest ++ rev post)).
    rewrite Et, Hc. reflexivity. }
  assert (Hend : forall init c, rev u = init ++ [c] -> is_white_space c = false).
  { intros init c Hc. apply (Hlast c (rev init)).
    rewrite <- (rev_involutive u), Hc, rev_app_distr. reflexivity. }
  split; [|split; [exact Hfirst | split; [exact Hend|]]].
  - exists pre, (rev post). split; [rewrite <- Et; exact Es|].
    split; [exact Wpre|]. apply Forall_rev. exact Wpost.
  - rewrite (trimStart_fixed (rev u) Hfirst), rev_involutive.
    rewrite trimStart_fixed; [reflexivity|].
    intros c rest Hc. apply (Hlast c rest). exact Hc.
Qed.

Lemma hd_split_app (sep : code_unit) (s t : jsstring) :
  hd [] (split sep (s ++ t))
  = if in_dec N.eq_dec sep s then hd [] (split sep s)
    else s ++ hd [] (split sep t).
Proof.
  induction s as [|c s IH]; simpl.
  - reflexivity.
  - destruct (N.eqb_spec c sep) as [->|Hc].
    + destruct (N.eq_dec sep sep); [|contradiction].
      destruct (in_dec N.eq_dec sep s); reflexivity.
    + pose proof (split_not_empty sep (s ++ t)) as NE1.
      pose proof (split_not_empty sep s) as NE2.
      destruct (split sep (s ++ t)) as [|p1 ps1]; [contradiction|].
      destruct (split sep s) as [|p2 ps2]; [contradiction|].
      simpl in *. destruct (N.eq_dec c sep) as [E|Hn]; [contradiction|].
      destruct (in_dec N.eq_dec sep s); rewrite IH; reflexivity.
Qed.

Lemma trim_app_white (s : jsstring) (c : code_unit) :
  is_white_space c = true -> trim (s ++ [c]) = trim s.
Proof.
  intros W. unfold trim. destruct (trimStart s) as [|x xs] eqn:T.
  - rewrite trimStart_white by exact T. simpl. rewrite W. reflexivity.
  - rewrite trimStart_app by (rewrite T; discriminate). rewrite T.
    rewrite rev_app_distr. simpl rev at 1. simpl app.
    cbn [trimStart]. rewrite W. reflexivity.
Qed.

(** X3.  White space at the end of a line, such as the carriage return of
    a CRLF file, does not change the line's word. *)
Theorem first_column_ignores_trailing_space (line : jsstring) (c : code_unit) :
  is_white_space c = true ->
  first_column (line ++ [c]) = first_column line.
Proof.
  intros W. unfold first_column. rewrite hd_split_app.
  assert (Hc : c <> comma) by (intros ->; discriminate W).
  destruct (in_dec N.eq_dec comma line) as [Hin|Hout]; [reflexivity|].
  assert (E1 : hd [] (split comma [c]) = [c]).
  { simpl. destruct (N.eqb_spec c comma); [contradiction | reflexivity]. }
  rewrite E1.
  assert (E2 : hd [] (split comma line) = line).
  { rewrite <- (app_nil_r line) at 1. rewrite hd_split_app.
    destruct (in_dec N.eq_dec comma line); [contradiction|].
    simpl. apply app_nil_r. }
  rewrite E2. apply trim_app_white. exact W.
Qed.

Lemma first_column_ignores_trailing_space_witness :
  first_column [97; 98; 99; 13]%N = first_column [97; 98; 99]%N.
Proof.
  apply (first_column_ignores_trailing_space [97; 98; 99]%N 13%N).
  reflexivity.
Defined.

(** ** server.js: what [getWordDetails] returns *)

Lemma or_else_truthy (a fallback : value) :
  truthy fallback = true -> truthy (or_else a fallback) = true.
Proof. unfold or_else. destruct (truthy a) eqn:T; auto. Qed.

Lemma or_else_blank (a : value) :
  truthy (or_else a (VStr "")) = true \/ or_else a (VStr "") = VStr "".
Proof. unfold or_else. destruct (truthy a) eqn:T; auto. Qed.

Lemma entry_details_filled (host : Host) (entry : value) (r : WordRecord) :
  entry_details host entry = Ok r ->
  (truthy r.(pronunciation) = true \/ r.(pronunciation) = VStr "")
  /\ (truthy r.(audio) = true \/ r.(audio) = VStr "")
  /\ truthy r.(meaning) = true
  /\ truthy r.(example) = true
  /\ truthy r.(synonyms) = true
  /\ truthy r.(antonyms) = true.
Proof.
  unfold entry_details. cbv zeta. intros H.
  destruct (member entry f_word) as [w|]; [|discriminate H]. cbn [bind] in H.
  destruct (member entry f_phonetic) as [ph|]; [|discriminate H].
  cbn [bind] in H.
  match type of H with
  | bind ?x _ = Ok _ => destruct x as [pv|] eqn:P; [|discriminate H]
  end.
  assert (Hpv : truthy pv = true \/ pv = VStr "").
  { destruct (truthy ph) eqn:T.
    - inversion P; subst. left. exact T.
    - repeat match type of P with
             | bind ?x _ = Ok _ =>
                 destruct x; cbn [bind] in P; [|discriminate P]
             end.
      inversion P. apply or_else_blank. }
  cbn [bind] in H.
  repeat match type of H with
         | bind ?x _ = Ok _ => destruct x; cbn [bind] in H; [|discriminate H]
         end.
  inversion H; subst; clear H. cbn [pronunciation audio meaning example
                                   synonyms antonyms].
  split; [exact Hpv|]. split; [apply or_else_blank|].
  repeat split; apply or_else_truthy; reflexivity.
Qed.

(** X4.  Whatever the service sends, a record that [getWordDetails]
    returns has a meaning, an example, synonyms and antonyms that are never
    missing or empty strings (the placeholders and [[]] stand in), and a
    pronunciation and an audio that are either non-empty or exactly the
    empty string, never undefined or null. *)
Theorem getWordDetails_fills_every_field (host : Host) (k : nat) (w : string)
    (r : WordRecord) :
  getWordDetails host k w = Ok (Some r) ->
  (truthy r.(pronunciation) = true \/ r.(pronunciation) = VStr "")
  /\ (truthy r.(audio) = true \/ r.(audio) = VStr "")
  /\ truthy r.(meaning) = true
  /\ truthy r.(example) = true
  /\ truthy r.(synonyms) = true
  /\ truthy r.(antonyms) = true.
Proof.
  unfold getWordDetails, getWordDetails_try.
  destruct (fetch host k w) as [|[|] [data|]]; try discriminate.
  destruct (first_element data) as [entry|]; [|discriminate]. cbn [bind].
  destruct (entry_details host entry) as [r'|] eqn:E; [|discriminate].
  cbn [bind]. intros H. inversion H; subst.
  apply entry_details_filled with host entry. exact E.
Qed.

Lemma getWordDetails_fills_every_field_witness :
  let r := {| word := VUndefined;
              pronunciation := VStr "";
              audio := VStr "";
              meaning := VStr "No definition available.";
              example := VStr "No example sentence available.";
              synonyms := VArr [];
              antonyms := VArr [] |} in
  (truthy r.(pronunciation) = true \/ r.(pronunciation) = VStr "")
  /\ (truthy r.(audio) = true \/ r.(audio) = VStr "")
  /\ truthy r.(meaning) = true
  /\ truthy r.(example) = true
  /\ truthy r.(synonyms) = true
  /\ truthy r.(antonyms) = true.
Proof.
  cbv zeta.
  apply (getWordDetails_fills_every_field
           (Samples.host_with
              (fun _ _ => Response true
                 (Some (VArr [VObj [("phonetics", VArr []);
                                    ("meanings", VArr [])]])))
              Samples.all_written) 0 "cat").
  reflexivity.
Defined.

(** ** server.js: the turns of a run *)

Lemma splice_out_permutation {A} (a : list A) (i : nat) (d : A) :
  i < List.length a -> Permutation (nth i a d :: splice_out a i) a.
Proof.
  revert i. induction a as [|x a IH]; intros i Hi; [simpl in Hi; lia|].
  destruct i as [|i]; [reflexivity|].
  change (Permutation (nth i a d :: x :: splice_out a i) (x :: a)).
  rewrite perm_swap. constructor. apply IH. simpl in Hi. lia.
Qed.

Lemma accounted_kept (host : Host) (pool0 : list string) (st st' : Selection) :
  accounted pool0 st -> loop_condition st = true -> turn_of host st st' ->
  accounted pool0 st'.
Proof.
  unfold accounted. intros Hp _ [i w d Hi Hw _ Ea _ Ep _ _].
  rewrite Ep, Ea, map_app, <- app_assoc. cbn [map selectedWord app].
  rewrite <- Hp. apply Permutation_app_head.
  rewrite Hw. apply splice_out_permutation. exact Hi.
Qed.

Lemma stops_at_three_kept (host : Host) (st st' : Selection) :
  stops_at_three st -> loop_condition st = true -> turn_of host st st' ->
  stops_at_three st'.
Proof.
  intros [Hle _] Hc [i w d _ _ _ _ _ Ep En _].
  unfold loop_condition in Hc. apply andb_true_iff in Hc.
  destruct Hc as [Hc _]. apply Nat.ltb_lt in Hc.
  unfold stops_at_three. rewrite En, Ep, length_app.
  destruct d as [r|]; simpl; split; try lia.
  - intros _. eexists _, _, r. split; reflexivity.
Qed.

Lemma selects_accounted (host : Host) (disk : Disk) (st : Selection) :
  selects host disk st ->
  accounted (unused (new_Set string_dec (ledger disk)) (corpus disk)) st.
Proof.
  intros [_ H]. revert H. apply while_loop_invariant.
  - apply accounted_kept.
  - unfold accounted. reflexivity.
Qed.

Lemma selects_stops_at_three (host : Host) (disk : Disk) (st : Selection) :
  selects host disk st -> stops_at_three st.
Proof.
  intros [_ H]. revert H. apply while_loop_invariant.
  - apply stops_at_three_kept.
  - split; simpl; [lia | discriminate].
Qed.

Lemma selects_exits (host : Host) (disk : Disk) (st : Selection) :
  selects host disk st -> loop_condition st = false.
Proof.
  intros [_ H]. eapply while_loop_exits; [|exact H]. simpl. lia.
Qed.

Lemma commit_picks (host : Host) (today : string) (disk : Disk)
    (history : History) (st : Selection) :
  picks (commit host today disk history st) = st.(picked).
Proof.
  unfold commit.
  destruct (writeFile host HISTORY_PATH), (writeFile host USED_WORDS_PATH);
    reflexivity.
Qed.

(** The turns of a run are those of its loop, if it got as far. *)
Lemma picks_of_run (host : Host) (today : string) (disk : Disk) :
  picks (updateDailyWords host today disk) = []
  \/ exists st, selects host disk st
                /\ picks (updateDailyWords host today disk) = st.(picked).
Proof.
  destruct (updateDailyWords_run host today disk)
    as [e | | | st Hs | st Hr Hg Hs Hl]; auto; right; exists st.
  - split; [exact Hs | reflexivity].
  - split; [exact Hs | apply commit_picks].
Qed.

(** X5.  The loop draws without replacement: in every run the words drawn,
    together with some words never drawn, make up the pool the run started
    with; so a run takes at most as many turns as the pool has words, and
    with a corpus free of duplicates no word is looked up twice. *)
Theorem updateDailyWords_draws_without_replacement (host : Host)
    (today : string) (disk : Disk) :
  let run := updateDailyWords host today disk in
  let pool0 := unused (new_Set string_dec (ledger disk)) (corpus disk) in
  (exists left_over,
      Permutation (map selectedWord (picks run) ++ left_over) pool0)
  /\ List.length (picks run) <= List.length pool0
  /\ (NoDup (corpus disk) -> NoDup (map selectedWord (picks run))).
Proof.
  cbv zeta.
  assert (P : exists left_over,
             Permutation (map selectedWord
                            (picks (updateDailyWords host today disk)) ++ left_over)
                         (unused (new_Set string_dec (ledger disk)) (corpus disk))).
  { destruct (picks_of_run host today disk) as [->|(st & Hs & ->)].
    - eexists. simpl. reflexivity.
    - exists (availableWords st). apply (selects_accounted _ _ _ Hs). }
  destruct P as (left_over & P). split; [eauto|]. split.
  - apply Permutation_length in P. rewrite length_app, length_map in P. lia.
  - intros Hn. apply (unused_NoDup (new_Set string_dec (ledger disk))) in Hn.
    eapply Permutation_NoDup in Hn; [|symmetry; exact P].
    apply NoDup_app_remove_r in Hn. exact Hn.
Qed.

(** X6.  A run ends with "Failed to fetch details for 3 new words" only
    after trying the whole pool: every available word was drawn, and fewer
    than 3 of the lookups succeeded. *)
Theorem updateDailyWords_shortfall_exhausts_pool (host : Host)
    (today : string) (disk : Disk) :
  let run := updateDailyWords host today disk in
  let pool0 := unused (new_Set string_dec (ledger disk)) (corpus disk) in
  completion run = Ok FetchShortfall ->
  Permutation (map selectedWord (picks run)) pool0
  /\ List.length (accepted (picks run)) < 3
  /\ 3 <= List.length (picks run).
Proof.
  cbv zeta. intros H.
  destruct (updateDailyWords_run host today disk)
    as [e | | | st Hs Hl | st Hr Hg Hs Hl]; try discriminate H.
  - cbn [picks stop].
    destruct (selects_stops_at_three _ _ _ Hs) as [Hle _].
    destruct (selects_gathered _ _ _ Hs) as (Hn & _ & _).
    pose proof (selects_exits _ _ _ Hs) as Hx.
    pose proof (selects_accounted _ _ _ Hs) as Hp. unfold accounted in Hp.
    unfold loop_condition in Hx. apply andb_false_iff in Hx.
    assert (Hlt : List.length (newWords st) < 3) by lia.
    destruct Hx as [Hx|Hx]; [apply Nat.ltb_ge in Hx; lia|].
    apply Nat.ltb_ge in Hx.
    assert (Ha : availableWords st = [])
      by (destruct (availableWords st); [reflexivity | simpl in Hx; lia]).
    rewrite Ha, app_nil_r in Hp. split; [exact Hp|]. split.
    + rewrite Hn, length_map in Hlt. exact Hlt.
    + apply Permutation_length in Hp. rewrite length_map in Hp.
      destruct Hs as [H3 _]. lia.
  - exfalso.
    destruct (commit_completion host today disk (history_of disk) st)
      as [Hc | (e & Hc & _)]; rewrite Hc in H; discriminate H.
Qed.

Lemma updateDailyWords_shortfall_exhausts_pool_witness :
  let host := Samples.host_with (fun _ _ => Response false None)
                                Samples.all_written in
  let run := updateDailyWords host "2024-01-02" Samples.four_words in
  Permutation (map selectedWord (picks run)) ["beta"; "gamma"; "delta"]
  /\ List.length (accepted (picks run)) < 3
  /\ 3 <= List.length (picks run).
Proof.
  cbv zeta.
  apply (updateDailyWords_shortfall_exhausts_pool
           (Samples.host_with (fun _ _ => Response false None)
                              Samples.all_written)
           "2024-01-02" Samples.four_words).
  reflexivity.
Defined.

Lemma accepted_app (l1 l2 : list Pick) :
  accepted (l1 ++ l2) = accepted l1 ++ accepted l2.
Proof. unfold accepted. apply flat_map_app. Qed.

(** X7.  A run that saves stops at the third success: exactly 3 turns were
    accepted, the last turn of the run is one of them, and exactly 2 came
    before it. *)
Theorem updateDailyWords_stops_at_third_success (host : Host)
    (today : string) (disk : Disk) :
  let run := updateDailyWords host today disk in
  completion run = Ok Saved ->
  List.length (accepted (picks run)) = 3
  /\ exists earlier p r,
       picks run = earlier ++ [p]
       /\ p.(details) = Some r
       /\ List.length (accepted earlier) = 2.
Proof.
  cbv zeta. intros H.
  destruct (updateDailyWords_saved _ _ _ H) as (st & Hs & Hl & _ & Hp & _).
  destruct (selects_stops_at_three _ _ _ Hs) as [_ Hlast].
  destruct (selects_gathered _ _ _ Hs) as (Hn & _ & _).
  destruct (Hlast Hl) as (earlier & p & r & Ep & Hd).
  rewrite Hp. rewrite Hn, length_map in Hl. split; [exact Hl|].
  exists earlier, p, r. split; [exact Ep|]. split; [exact Hd|].
  rewrite Ep, accepted_app, length_app in Hl.
  unfold accepted at 2 in Hl. simpl in Hl. rewrite Hd in Hl. simpl in Hl. lia.
Qed.

Lemma updateDailyWords_stops_at_third_success_witness :
  let host := Samples.host_with Samples.echo Samples.all_written in
  let run := updateDailyWords host "2024-01-02" Samples.four_words in
  List.length (accepted (picks run)) = 3
  /\ exists earlier p r,
       picks run = earlier ++ [p]
       /\ p.(details) = Some r
       /\ List.length (accepted earlier) = 2.
Proof.
  cbv zeta.
  apply (updateDailyWords_stops_at_third_success
           (Samples.host_with Samples.echo Samples.all_written)
           "2024-01-02" Samples.four_words).
  reflexivity.
Defined.

Lemma while_loop_all_answered (host : Host) :
  always_answers host ->
  forall n fuel st,
    List.length st.(newWords) + n = 3 ->
    n <= List.length st.(availableWords) ->
    n <= fuel ->
    exists st',
      while_loop host fuel st = Ok st'
      /\ List.length st'.(newWords) = 3
      /\ exists turns,
           st'.(picked) = st.(picked) ++ turns
           /\ List.length turns = n
           /\ Forall (fun p => p.(details) <> None) turns.
Proof.
  intros Hans. induction n as [|n IH]; intros fuel st Hn Ha Hf.
  - exists st. rewrite Nat.add_0_r in Hn.
    assert (Hc : loop_condition st = false).
    { unfold loop_condition. rewrite Hn. reflexivity. }
    split; [destruct fuel; simpl; [|rewrite Hc]; reflexivity|].
    split; [exact Hn|]. exists []. rewrite app_nil_r. repeat split. constructor.
  - destruct fuel as [|fuel]; [lia|].
    assert (Hc : loop_condition st = true).
    { unfold loop_condition. apply andb_true_iff.
      split; apply Nat.ltb_lt; lia. }
    simpl. rewrite Hc.
    destruct (loop_body_turn host st Hc) as (st1 & -> & T). cbn [bind].
    destruct T as [i w d Hi Hw Hg Ea Ed Ep En Eu].
    destruct (Hans (draws st) w) as [r Hr]. rewrite Hr in Hg.
    inversion Hg; subst d.
    destruct (IH fuel st1) as (st' & Hl & H3 & turns & Et & Hlen & Hall).
    + rewrite En, length_app. simpl. lia.
    + rewrite Ea, splice_out_length by exact Hi. lia.
    + lia.
    + exists st'. split; [exact Hl|]. split; [exact H3|].
      eexists (_ :: turns). split; [rewrite Et, Ep, <- app_assoc; reflexivity|].
      split; [simpl; rewrite Hlen; reflexivity|].
      constructor; [simpl; discriminate | exact Hall].
Qed.

Lemma load_readable {A} (f : file A) (defaultValue : A) :
  f <> Unreadable -> loadJsonFile f defaultValue = Ok (stored f defaultValue).
Proof. destruct f; simpl; [reflexivity | contradiction | reflexivity]. Qed.

(** X8.  When the three files can be read, the day has no entry yet, at
    least 3 words are unused, every lookup succeeds and both writes
    succeed, the run saves the day after exactly 3 lookups, all of them
    accepted. *)
Theorem updateDailyWords_saves_in_three_turns (host : Host) (today : string)
    (disk : Disk) :
  let run := updateDailyWords host today disk in
  history_json disk <> Unreadable ->
  wordlist_json disk <> Unreadable ->
  used_words_json disk <> Unreadable ->
  obj_get (history_of disk) today = Absent ->
  3 <= List.length (unused (new_Set string_dec (ledger disk)) (corpus disk)) ->
  always_answers host ->
  host.(writeFile) HISTORY_PATH = Written ->
  host.(writeFile) USED_WORDS_PATH = Written ->
  completion run = Ok Saved
  /\ List.length (picks run) = 3
  /\ Forall (fun p => p.(details) <> None) (picks run)
  /\ write_calls run = [HISTORY_PATH; USED_WORDS_PATH].
Proof.
  cbv zeta. intros Hh Hw Hu Hg H3 Hans Wh Wu.
  unfold updateDailyWords.
  rewrite (load_readable _ _ Hh), (load_readable _ _ Hw), (load_readable _ _ Hu).
  fold (history_of disk) (corpus disk) (ledger disk). rewrite Hg. cbv zeta.
  set (pool0 := unused (new_Set string_dec (ledger disk)) (corpus disk)) in *.
  destruct (Nat.ltb_spec (List.length pool0) 3) as [Hlt|_]; [lia|].
  destruct (while_loop_all_answered host Hans 3 (List.length pool0)
              (start (new_Set string_dec (ledger disk)) pool0))
    as (st & Hl & Hn & turns & Et & Hlen & Hall); try (simpl; lia).
  rewrite Hl, Hn. cbn [Nat.eqb]. simpl in Et. subst turns.
  unfold commit. rewrite Wh, Wu. simpl.
  repeat split; assumption.
Qed.

Lemma echo_always_answers (write : store -> write_outcome) :
  always_answers (Samples.host_with Samples.echo write).
Proof. intros k w. eexists. reflexivity. Qed.

Lemma updateDailyWords_saves_in_three_turns_witness :
  let host := Samples.host_with Samples.echo Samples.all_written in
  let run := updateDailyWords host "2024-01-02" Samples.four_words in
  completion run = Ok Saved
  /\ List.length (picks run) = 3
  /\ Forall (fun p => p.(details) <> None) (picks run)
  /\ write_calls run = [HISTORY_PATH; USED_WORDS_PATH].
Proof.
  cbv zeta.
  apply (updateDailyWords_saves_in_three_turns
           (Samples.host_with Samples.echo Samples.all_written)
           "2024-01-02" Samples.four_words).
  - simpl. discriminate.
  - simpl. discriminate.
  - simpl. discriminate.
  - reflexivity.
  - vm_compute. lia.
  - apply echo_always_answers.
  - reflexivity.
  - reflexivity.
Defined.

(** ** server.js: what a run leaves on disk *)

Lemma Object_keys_set_new {A} (o : list (string * A)) (key : string) (v : A) :
  own_property o key = None -> Object_keys (obj_set o key v) = Object_keys o ++ [key].
Proof.
  unfold Object_keys. induction o as [|[k old] o IH]; simpl; [reflexivity|].
  destruct (String.eqb k key); [discriminate|].
  intros H. simpl. rewrite IH by exact H. reflexivity.
Qed.

(** The three files after a run, file by file. *)
Lemma disk_after_run (host : Host) (today : string) (disk : Disk) :
  let after := disk_after (updateDailyWords host today disk) in
  wordlist_json after = wordlist_json disk
  /\ (history_json after = history_json disk
      \/ history_json after = Unreadable
      \/ exists st,
           selects host disk st
           /\ List.length st.(newWords) = 3
           /\ own_property (history_of disk) today = None
           /\ history_json after
              = Content (obj_set (history_of disk) today st.(newWords)))
  /\ (used_words_json after = used_words_json disk
      \/ used_words_json after = Unreadable
      \/ exists st,
           selects host disk st
           /\ picks (updateDailyWords host today disk) = st.(picked)
           /\ used_words_json after = Content st.(usedWords)).
Proof.
  cbv zeta.
  destruct (updateDailyWords_run host today disk)
    as [e | | | st Hs | st Hr Hg Hs Hl]; auto.
  apply obj_get_absent in Hg. unfold commit.
  destruct (writeFile host HISTORY_PATH), (writeFile host USED_WORDS_PATH);
    simpl; (split; [reflexivity|]); split; eauto 10.
Qed.

(** X9.  A run never writes the word list, and never changes or removes a
    day that is already in the history: in the history file a run leaves,
    every earlier key has the records it had, the keys are in the order
    they were, and at most today's key is new, at the end. *)
Theorem updateDailyWords_keeps_the_past (host : Host) (today : string)
    (disk : Disk) (history' : History) :
  let run := updateDailyWords host today disk in
  history_json (disk_after run) = Content history' ->
  wordlist_json (disk_after run) = wordlist_json disk
  /\ (forall key records,
        own_property (history_of disk) key = Some records ->
        own_property history' key = Some records)
  /\ (Object_keys history' = Object_keys (history_of disk)
      \/ Object_keys history' = Object_keys (history_of disk) ++ [today]).
Proof.
  cbv zeta. intros H.
  destruct (disk_after_run host today disk) as (Hw & Hh & _).
  split; [exact Hw|].
  destruct Hh as [Hh|[Hh|(st & _ & _ & Hnone & Hh)]]; rewrite Hh in H.
  - assert (E : history_of disk = history')
      by (unfold history_of; rewrite H; reflexivity).
    rewrite E. auto.
  - discriminate H.
  - inversion H; subst history'. split.
    + intros key records Hk. rewrite own_property_set_other; [exact Hk|].
      intros ->. congruence.
    + right. apply Object_keys_set_new. exact Hnone.
Qed.

Lemma updateDailyWords_keeps_the_past_witness :
  let host := Samples.host_with Samples.echo Samples.all_written in
  let disk := {| wordlist_json := Content ["alpha"; "beta"; "gamma"];
                 used_words_json := Missing;
                 history_json := Content [("2024-01-01", [])] |} in
  let run := updateDailyWords host "2024-01-02" disk in
  exists history',
    history_json (disk_after run) = Content history'
    /\ own_property history' "2024-01-01" = Some []
    /\ Object_keys history' = ["2024-01-01"; "2024-01-02"].
Proof.
  cbv zeta. eexists. split; [vm_compute; reflexivity|].
  edestruct (updateDailyWords_keeps_the_past
               (Samples.host_with Samples.echo Samples.all_written)
               "2024-01-02"
               {| wordlist_json := Content ["alpha"; "beta"; "gamma"];
                  used_words_json := Missing;
                  history_json := Content [("2024-01-01", [])] |})
    as (_ & Hk & _); [vm_compute; reflexivity|].
  split; [apply Hk; reflexivity | reflexivity].
Defined.

Lemma fold_Set_add_fresh (ws : list string) (s : set string) :
  NoDup (s ++ ws) ->
  fold_left (fun s w => Set_add string_dec w s) ws s = s ++ ws.
Proof.
  revert s. induction ws as [|x ws IH]; intros s H; simpl.
  - symmetry. apply app_nil_r.
  - rewrite Set_add_app. destruct (in_dec string_dec x s) as [Hin|_].
    + exfalso. apply NoDup_remove_2 in H. apply H.
      apply in_or_app. left. exact Hin.
    + rewrite IH; rewrite <- app_assoc; [reflexivity | exact H].
Qed.

Lemma new_Set_of_NoDup (items : list string) :
  NoDup items -> new_Set string_dec items = items.
Proof. intros H. apply (fold_Set_add_fresh items []). exact H. Qed.

Lemma accepted_words_drawn (turns : list Pick) :
  incl (map fst (accepted turns)) (map selectedWord turns)
  /\ (NoDup (map selectedWord turns) -> NoDup (map fst (accepted turns))).
Proof.
  induction turns as [|p turns [Hi Hn]]; simpl.
  - split; [apply incl_refl | auto].
  - unfold accepted in *. simpl. destruct (details p) as [r|]; simpl.
    + split.
      * intros w [<-|Hw]; [left; reflexivity | right; apply Hi; exact Hw].
      * intros H. inversion H as [|? ? Hx Hr]; subst.
        constructor; [|apply Hn; exact Hr].
        intros Hin. apply Hx. apply Hi. exact Hin.
    + split.
      * intros w Hw. right. apply Hi. exact Hw.
      * intros H. inversion H; subst. auto.
Qed.

(** X10.  The ledger a saving run writes holds each word once, and holds
    exactly the words it held before and the 3 accepted words: a word whose
    lookup failed is not added.  With a ledger and a corpus free of
    duplicates it is the old ledger followed by the 3 accepted words in the
    order they were accepted. *)
Theorem updateDailyWords_saved_ledger (host : Host) (today : string) (disk : Disk) :
  let run := updateDailyWords host today disk in
  completion run = Ok Saved ->
  exists after,
    used_words_json (disk_after run) = Content after
    /\ NoDup after
    /\ (forall w, In w after <->
                  In w (ledger disk) \/ In w (map fst (accepted (picks run))))
    /\ (NoDup (ledger disk) -> NoDup (corpus disk) ->
        after = ledger disk ++ map fst (accepted (picks run))).
Proof.
  cbv zeta. intros H.
  destruct (updateDailyWords_saved _ _ _ H) as (st & Hs & _ & _ & Hp & Hd).
  destruct (selects_gathered _ _ _ Hs) as (_ & Hu & _).
  rewrite Hp, Hd. cbn [used_words_json].
  exists (usedWords st). split; [reflexivity|]. split; [|split].
  - rewrite Hu. apply fold_add_NoDup.
    apply (fold_add_NoDup string_dec (ledger disk) []). constructor.
  - intros w. rewrite Hu, fold_Set_add_members, new_Set_members. reflexivity.
  - intros Hl Hc. rewrite Hu, (new_Set_of_NoDup _ Hl).
    apply fold_Set_add_fresh.
    destruct (accepted_words_drawn (picked st)) as [Hi Hn].
    pose proof (selects_accounted _ _ _ Hs) as Hperm. unfold accounted in Hperm.
    assert (Hpool : NoDup (map selectedWord (picked st) ++ availableWords st)).
    { eapply Permutation_NoDup; [symmetry; exact Hperm|].
      apply unused_NoDup. exact Hc. }
    apply NoDup_app_remove_r in Hpool.
    apply NoDup_app; [exact Hl | apply Hn; exact Hpool|].
    intros w Hw Hacc. apply Hi in Hacc.
    assert (Hin : In w (unused (new_Set string_dec (ledger disk)) (corpus disk))).
    { eapply Permutation_in; [exact Hperm|]. apply in_or_app. left. exact Hacc. }
    apply unused_members in Hin. tauto.
Qed.

Lemma updateDailyWords_saved_ledger_witness :
  let host := Samples.host_with Samples.echo Samples.all_written in
  let run := updateDailyWords host "2024-01-02" Samples.four_words in
  exists after,
    used_words_json (disk_after run) = Content after
    /\ NoDup after
    /\ (forall w, In w after <->
                  In w (ledger Samples.four_words)
                  \/ In w (map fst (accepted (picks run))))
    /\ (NoDup (ledger Samples.four_words) -> NoDup (corpus Samples.four_words) ->
        after = ledger Samples.four_words ++ map fst (accepted (picks run))).
Proof.
  cbv zeta.
  apply (updateDailyWords_saved_ledger
           (Samples.host_with Samples.echo Samples.all_written)
           "2024-01-02" Samples.four_words).
  reflexivity.
Defined.

(** ** server.js: a run and the two endpoints *)

Lemma Array_sort_any_permutation {A} (cmp : A -> A -> Z) (l : list A) :
  Permutation (Array_sort cmp l) l.
Proof.
  unfold Array_sort.
  assert (I : forall x s, Permutation (insert_by cmp x s) (x :: s)).
  { intros x s. induction s as [|y s IH]; simpl; [reflexivity|].
    destruct (Z.leb (cmp y x) 0); [|reflexivity].
    rewrite IH. apply perm_swap. }
  assert (G : forall acc, Permutation (fold_left (fun s x => insert_by cmp x s) l acc)
                                      (acc ++ l)).
  { induction l as [|x l IH]; intros acc; simpl.
    - rewrite app_nil_r. reflexivity.
    - rewrite IH, I. apply Permutation_middle. }
  apply G.
Qed.

(** X11.  What a saving run stores is what the endpoints serve: before the
    run the day's words are answered 404; after it they are answered with
    exactly the 3 records of the accepted turns, in the order they were
    accepted; and the list of dates is the old keys and today, each once,
    whatever order [localeCompare] imposes. *)
Theorem saved_day_is_served (host reader : Host) (today : string) (disk : Disk) :
  let run := updateDailyWords host today disk in
  completion run = Ok Saved ->
  get_api_words disk today = Status404
  /\ get_api_words (disk_after run) today
     = Status200 (map snd (accepted (picks run)))
  /\ exists dates,
       get_api_history reader (disk_after run) = Status200 dates
       /\ Permutation dates (today :: Object_keys (history_of disk)).
Proof.
  cbv zeta. intros H.
  destruct (updateDailyWords_run host today disk)
    as [e | | | st | st Hr Hg Hs Hl]; try discriminate H.
  destruct (commit_saved _ _ _ _ _ H) as [Hd Hp].
  destruct (selects_gathered _ _ _ Hs) as (Hn & _ & _).
  rewrite Hd, Hp. split; [|split].
  - unfold get_api_words. rewrite (load_readable _ _ Hr).
    fold (history_of disk). rewrite Hg. reflexivity.
  - unfold get_api_words. cbn [history_json loadJsonFile].
    rewrite (obj_get_own _ _ _ (own_property_set_same _ _ _)), Hn. reflexivity.
  - unfold get_api_history. cbn [history_json loadJsonFile].
    eexists. split; [reflexivity|].
    rewrite Array_sort_any_permutation.
    rewrite Object_keys_set_new by (apply obj_get_absent; exact Hg).
    symmetry. apply Permutation_cons_append.
Qed.

Lemma saved_day_is_served_witness :
  let host := Samples.host_with Samples.echo Samples.all_written in
  let run := updateDailyWords host "2024-01-02" Samples.four_words in
  get_api_words Samples.four_words "2024-01-02" = Status404
  /\ get_api_words (disk_after run) "2024-01-02"
     = Status200 (map snd (accepted (picks run)))
  /\ exists dates,
       get_api_history host (disk_after run) = Status200 dates
       /\ Permutation dates ("2024-01-02" :: Object_keys (history_of Samples.four_words)).
Proof.
  cbv zeta.
  apply (saved_day_is_served
           (Samples.host_with Samples.echo Samples.all_written)
           (Samples.host_with Samples.echo Samples.all_written)
           "2024-01-02" Samples.four_words).
  reflexivity.
Defined.

(** X12.  The words endpoint answers 404 exactly when the requested string
    is neither a key of the history nor the name of a member that every
    plain object inherits ([constructor], [toString], ...): the truthiness
    test [history[date]] finds the inherited member, so a request for such
    a name takes the [res.json] branch although the store has no such key. *)
Theorem get_api_words_not_found (disk : Disk) (history : History) (date : string) :
  loadJsonFile disk.(history_json) [] = Ok history ->
  (get_api_words disk date = Status404
   <-> own_property history date = None /\ ~ In date Object_prototype_keys)
  /\ (In date Object_prototype_keys -> own_property history date = None ->
      get_api_words disk date = Status200_inherited).
Proof.
  intros Hl. unfold get_api_words, obj_get. rewrite Hl.
  destruct (own_property history date) as [records|].
  - split; [|discriminate]. split; [discriminate | intros [H _]; discriminate H].
  - destruct (in_dec string_dec date Object_prototype_keys) as [Hin|Hout].
    + split; [|reflexivity]. split; [discriminate | intros [_ H]; contradiction].
    + split; [|contradiction]. split; auto.
Qed.

Lemma get_api_words_not_found_witness :
  (get_api_words Samples.four_words "toString" = Status404
   <-> own_property (@nil (string * list WordRecord)) "toString" = None
       /\ ~ In "toString" Object_prototype_keys)
  /\ (In "toString" Object_prototype_keys ->
      own_property (@nil (string * list WordRecord)) "toString" = None ->
      get_api_words Samples.four_words "toString" = Status200_inherited).
Proof.
  apply (get_api_words_not_found Samples.four_words [] "toString").
  reflexivity.
Defined.

(** ** server.js: one call after the other *)

Lemma process_keeps (I : Disk -> Prop) (P : string -> Run -> Prop) :
  (forall host today disk,
      I disk ->
      I (disk_after (updateDailyWords host today disk))
      /\ P today (updateDailyWords host today disk)) ->
  forall triggers disk,
    I disk ->
    Forall (fun dr => P (fst dr) (snd dr)) (process triggers disk)
    /\ I (disk_at_end triggers disk).
Proof.
  intros Hstep triggers.
  induction triggers as [|t later IH]; intros disk HI; simpl.
  - split; [constructor | exact HI].
  - destruct (Hstep (at_host t) (at_date t) disk HI) as [HI' HP].
    destruct (IH _ HI') as [HF HE]. split; [|exact HE].
    constructor; [exact HP | exact HF].
Qed.

Lemma process_split (triggers : list Trigger) (disk : Disk)
    (before later : list (string * Run)) (d : string) (r : Run) :
  process triggers disk = before ++ (d, r) :: later ->
  exists host disk1 rest,
    r = updateDailyWords host d disk1
    /\ later = process rest (disk_after r).
Proof.
  revert disk before.
  induction triggers as [|t rest IH]; intros disk before H; simpl in H.
  - destruct before; discriminate H.
  - destruct before as [|b before]; simpl in H; inversion H; subst.
    + eauto.
    + eapply IH. eassumption.
Qed.

(** The day [key] is in the history with [records], unless the history
    file has become unreadable. *)
Lemma day_kept_by_run (host : Host) (today : string) (disk : Disk)
    (key : string) (records : list WordRecord) :
  history_json disk = Unreadable
  \/ own_property (history_of disk) key = Some records ->
  let after := disk_after (updateDailyWords host today disk) in
  history_json after = Unreadable
  \/ own_property (history_of after) key = Some records.
Proof.
  cbv zeta. intros [Hu|Hk].
  - rewrite (unreadable_history_rejects host today disk Hu). left. exact Hu.
  - destruct (disk_after_run host today disk) as (_ & Hh & _).
    destruct Hh as [Hh|[Hh|(st & _ & _ & Hnone & Hh)]].
    + right. unfold history_of in *. rewrite Hh. exact Hk.
    + left. exact Hh.
    + right. unfold history_of at 1. rewrite Hh. cbn [stored].
      rewrite own_property_set_other; [exact Hk|]. intros ->. congruence.
Qed.

Lemma kept_day_is_not_saved_again (host : Host) (disk : Disk)
    (key : string) (records : list WordRecord) :
  history_json disk = Unreadable
  \/ own_property (history_of disk) key = Some records ->
  completion (updateDailyWords host key disk) <> Ok Saved
  /\ write_calls (updateDailyWords host key disk) = []
  /\ disk_after (updateDailyWords host key disk) = disk.
Proof.
  intros [Hu|Hk].
  - rewrite (unreadable_history_rejects host key disk Hu).
    repeat split. discriminate.
  - rewrite (existing_day_stops host key disk records Hk).
    repeat split. discriminate.
Qed.

(** X13.  A day is saved at most once: in any succession of calls, after a
    call that saved the words of a date, no later call for that date saves
    or writes anything. *)
Theorem process_saves_a_day_once (triggers : list Trigger) (disk : Disk)
    (before later : list (string * Run)) (date : string) (run : Run) :
  process triggers disk = before ++ (date, run) :: later ->
  completion run = Ok Saved ->
  Forall (fun dr => fst dr = date ->
            completion (snd dr) <> Ok Saved /\ write_calls (snd dr) = [])
         later.
Proof.
  intros H Hs.
  destruct (process_split _ _ _ _ _ _ H) as (host & disk1 & rest & -> & ->).
  destruct (updateDailyWords_saved _ _ _ Hs) as (st & _ & _ & _ & _ & Hd).
  apply (process_keeps
           (fun d => history_json d = Unreadable
                     \/ own_property (history_of d) date = Some (newWords st))
           (fun today r => today = date ->
                           completion r <> Ok Saved /\ write_calls r = [])).
  - intros h today d HI. split; [apply day_kept_by_run; exact HI|].
    intros ->. destruct (kept_day_is_not_saved_again h d date _ HI) as (A & B & _).
    split; assumption.
  - right. rewrite Hd. unfold history_of. cbn [history_json stored].
    apply own_property_set_same.
Qed.

Lemma process_saves_a_day_once_witness :
  Forall (fun dr => fst dr = "2024-01-02" ->
            completion (snd dr) <> Ok Saved /\ write_calls (snd dr) = [])
         (process [call_on "2024-01-02"] (disk_after first_call)).
Proof.
  apply (process_saves_a_day_once
           [call_on "2024-01-02"; call_on "2024-01-02"] Samples.four_words
           [] (process [call_on "2024-01-02"] (disk_after first_call))
           "2024-01-02" first_call).
  - reflexivity.
  - reflexivity.
Defined.

Lemma unreadable_ledger_stops (host : Host) (today : string) (disk : Disk) :
  used_words_json disk = Unreadable ->
  disk_after (updateDailyWords host today disk) = disk
  /\ picks (updateDailyWords host today disk) = [].
Proof.
  intros H. unfold updateDailyWords.
  destruct (loadJsonFile (history_json disk) []); [|split; reflexivity].
  destruct (obj_get _ today); try (split; reflexivity).
  destruct (loadJsonFile (wordlist_json disk) []); [|split; reflexivity].
  rewrite H. split; reflexivity.
Qed.

(** A word of the ledger stays in the ledger, unless the ledger file
    becomes unreadable; and no run draws it. *)
Lemma used_word_kept_by_run (host : Host) (today : string) (disk : Disk)
    (w : string) :
  used_words_json disk = Unreadable \/ In w (ledger disk) ->
  let run := updateDailyWords host today disk in
  (used_words_json (disk_after run) = Unreadable
   \/ In w (ledger (disk_after run)))
  /\ ~ In w (map selectedWord (picks run)).
Proof.
  cbv zeta. intros [Hu|Hw].
  - destruct (unreadable_ledger_stops host today disk Hu) as [-> ->].
    split; [left; exact Hu | intros []].
  - split.
    + destruct (disk_after_run host today disk) as (_ & _ & Hl).
      destruct Hl as [Hl|[Hl|(st & Hs & _ & Hl)]].
      * right. unfold ledger in *. rewrite Hl. exact Hw.
      * left. exact Hl.
      * right. unfold ledger at 1. rewrite Hl. cbn [stored].
        destruct (selects_gathered _ _ _ Hs) as (_ & Hu & _).
        rewrite Hu. apply fold_Set_add_members. left.
        apply new_Set_members. exact Hw.
    + destruct (picks_of_run host today disk) as [->|(st & Hs & ->)];
        [intros []|].
      intros Hin. apply in_map_iff in Hin. destruct Hin as (p & <- & Hp).
      destruct (selects_drawn_from _ _ _ Hs) as [_ Hd].
      destruct (Hd p Hp) as [Hpool Hsel].
      apply Hpool, unused_members in Hsel. tauto.
Qed.

(** X14.  A word is used once: in any succession of calls, a word accepted
    by a call that saved its day is never drawn by any later call. *)
Theorem process_never_draws_a_saved_word (triggers : list Trigger) (disk : Disk)
    (before later : list (string * Run)) (date w : string) (run : Run) :
  process triggers disk = before ++ (date, run) :: later ->
  completion run = Ok Saved ->
  In w (map fst (accepted (picks run))) ->
  Forall (fun dr => ~ In w (map selectedWord (picks (snd dr)))) later.
Proof.
  intros H Hs Hw.
  destruct (process_split _ _ _ _ _ _ H) as (host & disk1 & rest & -> & ->).
  destruct (updateDailyWords_saved _ _ _ Hs) as (st & Hsel & _ & _ & Hp & Hd).
  apply (process_keeps
           (fun d => used_words_json d = Unreadable \/ In w (ledger d))
           (fun _ r => ~ In w (map selectedWord (picks r)))).
  - intros h today d HI. apply used_word_kept_by_run. exact HI.
  - right. rewrite Hd. unfold ledger. cbn [used_words_json stored].
    destruct (selects_gathered _ _ _ Hsel) as (_ & Hu & _).
    rewrite Hu. apply fold_Set_add_members. right. rewrite <- Hp. exact Hw.
Qed.

Lemma process_never_draws_a_saved_word_witness :
  let later := process [call_on "2024-01-03"] (disk_after first_of_seven) in
  map fst (accepted (picks first_of_seven)) = ["beta"; "gamma"; "delta"]
  /\ map (fun dr => map selectedWord (picks (snd dr))) later
     = [["epsilon"; "zeta"; "eta"]]
  /\ Forall (fun dr => ~ In "beta" (map selectedWord (picks (snd dr)))) later.
Proof.
  cbv zeta. split; [reflexivity|]. split; [reflexivity|].
  apply (process_never_draws_a_saved_word
           [call_on "2024-01-02"; call_on "2024-01-03"] seven_words
           [] (process [call_on "2024-01-03"] (disk_after first_of_seven))
           "2024-01-02" "beta" first_of_seven).
  - reflexivity.
  - reflexivity.
  - vm_compute. auto.
Defined.

(** X15.  From a history in which every day has 3 records (an empty or
    missing one, for instance), no succession of calls ever leads to a day
    with another number of records: whatever the words endpoint then
    serves for any requested string has exactly 3 records. *)
Theorem process_serves_three_records (triggers : list Trigger) (disk : Disk)
    (date : string) (records : list WordRecord) :
  (forall key stored_records,
      own_property (history_of disk) key = Some stored_records ->
      List.length stored_records = 3) ->
  get_api_words (disk_at_end triggers disk) date = Status200 records ->
  List.length records = 3.
Proof.
  intros Hinv Hget.
  assert (Hend : forall key stored_records,
             own_property (history_of (disk_at_end triggers disk)) key
             = Some stored_records ->
             List.length stored_records = 3).
  { apply (process_keeps
             (fun d => forall key stored_records,
                  own_property (history_of d) key = Some stored_records ->
                  List.length stored_records = 3)
             (fun _ _ => True)); [|exact Hinv].
    intros h today d HI. split; [|exact I].
    intros key recs Hk.
    destruct (history_after_run _ _ _ _ _ Hk) as [H0|[_ H3]];
      [eapply HI; exact H0 | exact H3]. }
  unfold get_api_words in Hget.
  destruct (loadJsonFile (history_json (disk_at_end triggers disk)) [])
    as [history|] eqn:L; [|discriminate Hget].
  apply load_stored in L. unfold obj_get in Hget.
  destruct (own_property history date) as [recs|] eqn:O.
  - inversion Hget; subst. eapply Hend. unfold history_of. exact O.
  - destruct (in_dec string_dec date Object_prototype_keys); discriminate Hget.
Qed.

Lemma process_serves_three_records_witness :
  List.length (map snd (accepted (picks first_call))) = 3.
Proof.
  apply (process_serves_three_records
           [call_on "2024-01-02"] Samples.four_words "2024-01-02").
  - intros key recs H. discriminate H.
  - reflexivity.
Defined.





(** X18.  Three is the threshold: when the files load and the day has no
    entry, the run gives up with "Not enough new words available!" exactly
    when fewer than 3 words of the corpus are unused, and then it looks
    nothing up and writes nothing. *)
Theorem updateDailyWords_needs_three_words (host : Host) (today : string)
    (disk : Disk) :
  let run := updateDailyWords host today disk in
  let pool0 := unused (new_Set string_dec (ledger disk)) (corpus disk) in
  history_json disk <> Unreadable ->
  wordlist_json disk <> Unreadable ->
  used_words_json disk <> Unreadable ->
  obj_get (history_of disk) today = Absent ->
  (completion run = Ok NotEnoughWords <-> List.length pool0 < 3)
  /\ (List.length pool0 < 3 -> run = stop disk (Ok NotEnoughWords) []).
Proof.
  cbv zeta. intros Hh Hw Hu Hg.
  unfold updateDailyWords.
  rewrite (load_readable _ _ Hh), (load_readable _ _ Hw), (load_readable _ _ Hu).
  fold (history_of disk) (corpus disk) (ledger disk). rewrite Hg. cbv zeta.
  set (pool0 := unused (new_Set string_dec (ledger disk)) (corpus disk)).
  destruct (Nat.ltb_spec (List.length pool0) 3) as [Hlt|Hge].
  - split; [split; [intros _; exact Hlt | reflexivity] | reflexivity].
  - split; [|lia]. split; [|lia]. intros H. exfalso.
    destruct (while_loop host (List.length pool0) _) as [st|e];
      [|discriminate H].
    destruct (List.length (newWords st) =? 3); [|discriminate H].
    destruct (commit_completion host today disk (history_of disk) st)
      as [Hc | (e & Hc & _)]; rewrite Hc in H; discriminate H.
Qed.

Lemma updateDailyWords_needs_three_words_witness :
  let disk := {| wordlist_json := Content ["alpha"; "beta"; "gamma"];
                 used_words_json := Content ["alpha"];
                 history_json := Missing |} in
  updateDailyWords echo_host "2024-01-02" disk
  = stop disk (Ok NotEnoughWords) [].
Proof.
  cbv zeta.
  apply (proj2 (updateDailyWords_needs_three_words echo_host "2024-01-02"
                  {| wordlist_json := Content ["alpha"; "beta"; "gamma"];
                     used_words_json := Content ["alpha"];
                     history_json := Missing |}
                  ltac:(simpl; discriminate) ltac:(simpl; discriminate)
                  ltac:(simpl; discriminate) eq_refl)).
  vm_compute. lia.
Defined.

(** X19.  An entry without its lists is skipped: when the first entry of a
    successful response has a [phonetics] that is not an array (even if it
    has a [phonetic] string), or a [meanings] that is missing or null,
    [getWordDetails] returns null. *)
Theorem getWordDetails_needs_both_lists (host : Host) (k : nat) (w : string)
    (data entry v : value) :
  host.(fetch) k w = Response true (Some data) ->
  first_element data = Ok entry ->
  (member entry f_phonetics = Ok v /\ (forall elems, v <> VArr elems))
  \/ (member entry f_meanings = Ok v /\ nullish v = true) ->
  getWordDetails host k w = Ok None.
Proof.
  intros Hf He Hv. unfold getWordDetails, getWordDetails_try.
  rewrite Hf, He. cbn [bind].
  destruct Hv as [[Hp Hn]|[Hm Hn]].
  - rewrite (raises_without_phonetics host entry v Hp Hn). reflexivity.
  - destruct (raises_without_meanings host entry v Hm Hn) as [e ->].
    reflexivity.
Qed.

Lemma getWordDetails_needs_both_lists_witness :
  getWordDetails
    (Samples.host_with
       (fun _ _ => Response true
          (Some (VArr [VObj [("word", VStr "cat"); ("phonetic", VStr "/kat/");
                             ("meanings", VArr [])]])))
       Samples.all_written) 0 "cat"
  = Ok None.
Proof.
  apply (getWordDetails_needs_both_lists _ 0 "cat"
           (VArr [VObj [("word", VStr "cat"); ("phonetic", VStr "/kat/");
                        ("meanings", VArr [])]])
           (VObj [("word", VStr "cat"); ("phonetic", VStr "/kat/");
                  ("meanings", VArr [])])
           VUndefined).
  - reflexivity.
  - reflexivity.
  - left. split; [reflexivity | discriminate].
Defined.
